(** * PyStatParser: extraction, aggregation, deltas, footers and the table walk

  A shallow embedding of [stats/withdelta.py], [stats/extractor.py],
  [stats/output_module.py] and [stats/formatters.py], followed by the
  properties established about them.  The program is Python 2 code: dictionaries are modelled by
  [gmap string _], Python floats by IEEE binary64 primitive floats,
  exceptions by an explicit error type.  Built-in functions whose behaviour
  the program does not fix (the parsers [int] and [float], [str], the
  [timedelta] constructors, HTML escaping, the [+=] of arbitrary operands)
  are section variables of the definitions that call them. *)

From Stdlib Require Import ZArith Floats Ascii String.
From stdpp Require Import gmap strings list fin_maps sorting pretty.

Set Warnings "-register-all,-inexact-float".
Local Open Scope string_scope.
Local Open Scope Z_scope.

(** ** The Python fragment the program relies on *)

Module Py.

(** Exceptions the modelled code can raise. *)
Inductive exn : Set :=
| IndexError | ValueError | TypeError | KeyError
| AttributeError | AssertionError | OverflowError.

Inductive result (A : Type) : Type :=
| Ok (a : A)
| Raise (e : exn).
Arguments Ok {A} a.
Arguments Raise {A} e.

Definition bind {A B} (m : result A) (k : A -> result B) : result B :=
  match m with
  | Ok a => k a
  | Raise e => Raise e
  end.

(** A list comprehension whose elements may raise: the first failing
    element aborts the whole comprehension. *)
Fixpoint collect {A} (l : list (result A)) : result (list A) :=
  match l with
  | [] => Ok []
  | r :: rest =>
      match r with
      | Raise e => Raise e
      | Ok a =>
          match collect rest with
          | Ok tl => Ok (a :: tl)
          | Raise e => Raise e
          end
      end
  end.

(** Metric values.  [VInt] is the machine-word [int] of Python 2, [VLong]
    its arbitrary-precision [long]; [VTimedelta] holds a [timedelta] as its
    total number of microseconds; [VBox v d] is the object
    [withdelta(v, d)]. *)
Inductive Value : Type :=
| VNone
| VInt (z : Z)
| VLong (z : Z)
| VFloat (f : float)
| VStr (s : string)
| VUnicode (s : string)
| VTimedelta (us : Z)
| VList (l : list Value)
| VTuple (l : list Value)
| VBox (v : Value) (d : option float).

(** What [type(x)] evaluates to. *)
Inductive PyType : Set :=
| TNoneType | TInt | TLong | TFloat | TStr | TUnicode
| TTimedelta | TList | TTuple | TWithdelta.

Definition type_of (v : Value) : PyType :=
  match v with
  | VNone => TNoneType
  | VInt _ => TInt
  | VLong _ => TLong
  | VFloat _ => TFloat
  | VStr _ => TStr
  | VUnicode _ => TUnicode
  | VTimedelta _ => TTimedelta
  | VList _ => TList
  | VTuple _ => TTuple
  | VBox _ _ => TWithdelta
  end.

Definition type_is (a b : PyType) : bool :=
  match a, b with
  | TNoneType, TNoneType | TInt, TInt | TLong, TLong | TFloat, TFloat
  | TStr, TStr | TUnicode, TUnicode | TTimedelta, TTimedelta
  | TList, TList | TTuple, TTuple | TWithdelta, TWithdelta => true
  | _, _ => false
  end.

Definition is_none (v : Value) : bool :=
  match v with VNone => true | _ => false end.

(** [sys.maxint] of a 64-bit build: an integer result outside the machine
    word is a [long]. *)
Definition maxint : Z := 2 ^ 63 - 1.

Definition mk_int (z : Z) : Value :=
  if (- maxint - 1 <=? z) && (z <=? maxint) then VInt z else VLong z.

(** [float(z)] for an integer [z]: rounding to nearest, ties to even. *)
Definition float_of_Z (z : Z) : float :=
  SF2Prim (binary_normalize prec emax z 0 false).

(** [int(f)] for a float [f]: the integral part, the fraction discarded. *)
Definition int_of_float (f : float) : result Value :=
  match Prim2SF f with
  | S754_zero _ => Ok (VInt 0)
  | S754_finite s m e =>
      let a := if 0 <=? e then Z.pos m * 2 ^ e
               else Z.shiftr (Z.pos m) (- e) in
      Ok (mk_int (if s then - a else a))
  | S754_infinity _ => Raise OverflowError
  | S754_nan => Raise ValueError
  end.

(** [a / b] for two integers under true division, [b] being positive: the
    exact quotient rounded once, to nearest with ties to even.  The quotient
    is first taken to [k] fractional bits, enough for it to have more bits
    than a float keeps, and one more bit records whether anything was left
    over. *)
Definition true_divide (a b : Z) : float :=
  let k := 128 + Z.log2_up b in
  let scaled := Z.abs a * 2 ^ k in
  let m := 2 * (scaled / b) + (if scaled mod b =? 0 then 0 else 1) in
  SF2Prim (binary_normalize prec emax (if a <? 0 then - m else m) (- (k + 1))
             (a <? 0)).

(** [timedelta.total_seconds()]: the microsecond count over [10**6]. *)
Definition total_seconds (us : Z) : float :=
  true_divide us 1000000.

(** [l[i]] for an integer index: a negative index counts from the end. *)
Definition list_index {A} (l : list A) (i : Z) : result A :=
  let j := if i <? 0 then i + Z.of_nat (length l) else i in
  if j <? 0 then Raise IndexError
  else match l !! Z.to_nat j with
       | Some x => Ok x
       | None => Raise IndexError
       end.

Definition float_inf : float := PrimFloat.infinity.
Definition float_neg_inf : float := PrimFloat.neg_infinity.
Definition float_nan : float := PrimFloat.nan.
Definition float_zero : float := PrimFloat.zero.

(** ASCII [str.lower()]. *)
Definition lower_char (c : ascii) : ascii :=
  let n := nat_of_ascii c in
  if ((65 <=? n) && (n <=? 90))%nat then ascii_of_nat (n + 32) else c.

Fixpoint lower (s : string) : string :=
  match s with
  | EmptyString => EmptyString
  | String c rest => String (lower_char c) (lower rest)
  end.

(** [s[-1]]: the last character, [IndexError] on the empty string. *)
Fixpoint last_char (s : string) : result ascii :=
  match s with
  | EmptyString => Raise IndexError
  | String c EmptyString => Ok c
  | String _ rest => last_char rest
  end.

(** [s[:-1]]: all but the last character. *)
Fixpoint drop_last (s : string) : string :=
  match s with
  | EmptyString => EmptyString
  | String _ EmptyString => EmptyString
  | String c rest => String c (drop_last rest)
  end.

(** [s.split(':')]. *)
Fixpoint split_colon_aux (cur : string) (s : string) : list string :=
  match s with
  | EmptyString => [cur]
  | String c rest =>
      if Ascii.eqb c ":"%char then cur :: split_colon_aux EmptyString rest
      else split_colon_aux (cur ++ String c EmptyString) rest
  end.

Definition split_colon (s : string) : list string :=
  split_colon_aux EmptyString s.

End Py.
Export Py.

Notation "'let*' x ':=' m 'in' k" := (Py.bind m (fun x => k))
  (at level 10, x name, m at level 100, k at level 200).

(** ** withdelta.py *)

Module withdelta.

(** [val_of(obj)]: unwraps one [withdelta] layer. *)
Definition val_of (obj : Value) : Value :=
  match obj with
  | VBox v _ => v
  | _ => obj
  end.

Definition is_withdelta (obj : Value) : bool :=
  match obj with VBox _ _ => true | _ => false end.

(** The default of the [delta] argument of the constructor. *)
Definition default_delta : option float := Some float_nan.

End withdelta.
Export withdelta.

(** ** extractor.py *)

Module extractor.

(** *** ExtractorBase *)

Definition POLICY_KEEP_LAST : string := "POLICY_KEEP_LAST".
Definition POLICY_KEEP_FIRST : string := "POLICY_KEEP_FIRST".
Definition POLICY_SUM : string := "POLICY_SUM".
Definition POLICY_APPEND : string := "POLICY_APPEND".

Record ExtractorBase : Type := mkExtractor {
  value : Value;
  num_of_matches : Z;
  policy : string
}.

(** [ExtractorBase.__init__]. *)
Definition new_extractor (policy : string) : ExtractorBase :=
  {| value := VNone; num_of_matches := 0; policy := policy |}.

Section ProcessLine.

(** [extract_value_from_line] is the hook subclasses implement; [add] is
    what the [+=] operator of the stored value does when the operands are
    not two lists. *)
Variable extract_value_from_line : string -> result Value.
Variable add : Value -> Value -> result Value.

(** [v += c]: two lists are concatenated by [list.__iadd__], anything else
    goes through the operand types' own addition. *)
Definition iadd (v c : Value) : result Value :=
  match v, c with
  | VList l, VList r => Ok (VList (l ++ r)%list)
  | _, _ => add v c
  end.

(** The branch [if candidate is not None] of [process_line]. *)
Definition accept_candidate (self : ExtractorBase) (candidate : Value)
  : result ExtractorBase :=
  let n := num_of_matches self + 1 in
  if is_none (value self) then
    Ok {| value := if negb (String.eqb (policy self) POLICY_APPEND)
                   then candidate else VList [candidate];
          num_of_matches := n; policy := policy self |}
  else if String.eqb (policy self) POLICY_KEEP_FIRST then
    Ok {| value := value self; num_of_matches := n; policy := policy self |}
  else if String.eqb (policy self) POLICY_KEEP_LAST then
    Ok {| value := candidate; num_of_matches := n; policy := policy self |}
  else if String.eqb (policy self) POLICY_SUM then
    let* v := iadd (value self) candidate in
    Ok {| value := v; num_of_matches := n; policy := policy self |}
  else if String.eqb (policy self) POLICY_APPEND then
    let* v := iadd (value self) (VList [candidate]) in
    Ok {| value := v; num_of_matches := n; policy := policy self |}
  else
    Ok {| value := value self; num_of_matches := n; policy := policy self |}.

Definition process_line (self : ExtractorBase) (line : string)
  : result ExtractorBase :=
  let* candidate := extract_value_from_line line in
  if negb (is_none candidate) then accept_candidate self candidate
  else Ok self.

(** The part of [StatsExtractorBase.scan] that concerns one extractor: every
    line of the file is fed to [process_line], in order. *)
Fixpoint process_lines (self : ExtractorBase) (lines : list string)
  : result ExtractorBase :=
  match lines with
  | [] => Ok self
  | line :: rest =>
      let* self' := process_line self line in
      process_lines self' rest
  end.

End ProcessLine.

(** *** Value-converting extractors *)

Section Converters.

(** The built-in parsers [int(str)] and [float(str)] ([None] stands for
    their [ValueError]) and the [timedelta(days=, hours=, minutes=,
    seconds=)] constructor. *)
Variable parse_int : string -> option Value.
Variable parse_float : string -> option float.
Variable make_timedelta : float -> float -> float -> float -> result Value.

(** [ValueConverterExtractorBase.extract_value_from_line], for a wrapped
    extractor [other] that yields raw strings. *)
Definition converter_extract_value_from_line
    (other : string -> option string)
    (convert_raw_value : string -> result Value) (line : string)
  : result Value :=
  match other line with
  | Some candidate => convert_raw_value candidate
  | None => Ok VNone
  end.

Definition IntConverterExtractor_convert_raw_value (raw_value : string)
  : result Value :=
  match parse_int raw_value with
  | Some v => Ok v
  | None => Ok VNone
  end.

Definition FloatConverterExtractor_convert_raw_value (raw_value : string)
  : result Value :=
  match parse_float raw_value with
  | Some f => Ok (VFloat f)
  | None => Ok VNone
  end.

(** [[float(piece) for piece in pieces]] inside [try]. *)
Fixpoint parse_pieces (pieces : list string) : option (list float) :=
  match pieces with
  | [] => Some []
  | p :: rest =>
      match parse_float p with
      | None => None
      | Some f =>
          match parse_pieces rest with
          | None => None
          | Some fs => Some (f :: fs)
          end
      end
  end.

Definition TimeConverterExtractor_convert_raw_value (raw_value : string)
  : result Value :=
  let pieces := split_colon raw_value in
  if (4 <? length pieces)%nat then Ok VNone
  else
    match parse_pieces pieces with
    | None => Ok VNone
    | Some fs =>
        let fs := (replicate (4 - length fs) float_zero ++ fs)%list in
        match fs with
        | [d; h; m; s] => make_timedelta d h m s
        | _ => Raise IndexError
        end
    end.

Definition MemoryConverterExtractor_convert_raw_value (raw_value : string)
  : result Value :=
  let raw_value := lower raw_value in
  let factor := 1%float in
  let* c := last_char raw_value in
  let raw_value :=
    if Ascii.eqb c "b"%char then drop_last raw_value else raw_value in
  let* c := last_char raw_value in
  let '(factor, raw_value) :=
    if Ascii.eqb c "k"%char || Ascii.eqb c "m"%char || Ascii.eqb c "g"%char
    then
      (if Ascii.eqb c "k"%char then 1000%float
       else if Ascii.eqb c "m"%char then 1000000%float
       else 1000000000%float,
       drop_last raw_value)
    else (factor, raw_value) in
  match parse_float raw_value with
  | None => Raise ValueError
  | Some f => int_of_float (PrimFloat.mul f factor)
  end.

End Converters.

(** *** StatsExtractorBase.get_delta_percent *)

(** The [is_valid] and [to_float] lambdas, selected by [type(val1)]. *)
Definition is_valid (t : PyType) (val : Value) : bool :=
  match t, val with
  | TTimedelta, VTimedelta us => PrimFloat.leb float_zero (total_seconds us)
  | TInt, VInt z => 0 <=? z
  | TStr, _ | TUnicode, _ => true
  | TFloat, VFloat f => PrimFloat.eqb f f
  | _, _ => false
  end.

Definition to_float (t : PyType) (val : Value) : float :=
  match t, val with
  | TTimedelta, VTimedelta us => total_seconds us
  | TInt, VInt z => float_of_Z z
  | TFloat, VFloat f => f
  | _, _ => float_zero
  end.

(** [val1 == val2] for two operands of one scalar type. *)
Definition same_type_eq (val1 val2 : Value) : bool :=
  match val1, val2 with
  | VNone, VNone => true
  | VInt a, VInt b | VLong a, VLong b | VTimedelta a, VTimedelta b =>
      a =? b
  | VFloat a, VFloat b => PrimFloat.eqb a b
  | VStr a, VStr b | VUnicode a, VUnicode b => String.eqb a b
  | _, _ => false
  end.

Definition get_delta_percent (val1 val2 : Value) : option float :=
  if is_none val1 && is_none val2 then None
  else if negb (type_is (type_of val1) (type_of val2)) then None
  else
    let t := type_of val1 in
    if is_valid t val1 && is_valid t val2 then
      if same_type_eq val1 val2 then Some float_zero
      else if PrimFloat.eqb (PrimFloat.abs (to_float t val1)) float_zero then
        Some (if PrimFloat.ltb float_zero (to_float t val2)
              then float_inf else float_neg_inf)
      else
        Some (PrimFloat.div
                (PrimFloat.sub (to_float t val2) (to_float t val1))
                (to_float t val1))
    else Some float_nan.

(** *** StatsExtractorBase: attribute access and [as_dict] *)

(** What [get_<name>] is on the object, when it exists: a method, given by
    the outcome of calling it, or an attribute that cannot be called.  The
    [getters] of an object are listed under [name]. *)
Inductive Getter : Type :=
| GetterMethod (outcome : result Value)
| GetterNotCallable.

Record StatsExtractorBase : Type := mkStats {
  extractors : gmap string ExtractorBase;
  extracted_attributes : list string;
  getters : gmap string Getter
}.

(** [StatsExtractorBase.__getattr__]. *)
Definition getattr (self : StatsExtractorBase) (name : string)
  : result Value :=
  if bool_decide (name ∈ ["extractors"; "extracted_attributes"]) then
    Raise AttributeError
  else
    match extractors self !! name with
    | Some ex => Ok (value ex)
    | None =>
        if bool_decide (name ∈ extracted_attributes self) then
          match getters self !! name with
          | Some (GetterMethod outcome) => outcome
          | _ => Raise AttributeError
          end
        else Raise AttributeError
    end.

Fixpoint as_dict_loop (self : StatsExtractorBase) (keys : list string)
    (retval : gmap string Value) : result (gmap string Value) :=
  match keys with
  | [] => Ok retval
  | k :: rest =>
      let* v := getattr self k in
      as_dict_loop self rest (<[k := v]> retval)
  end.

Definition as_dict (self : StatsExtractorBase) : result (gmap string Value) :=
  as_dict_loop self (extracted_attributes self) ∅.

(** *** Python sets of values *)

Fixpoint hashable (v : Value) : bool :=
  match v with
  | VList _ => false
  | VTuple l => forallb hashable l
  | _ => true
  end.

(** The integer a float is equal to, when it is integral. *)
Definition float_integral (f : float) : option Z :=
  match Prim2SF f with
  | S754_zero _ => Some 0
  | S754_finite s m e =>
      let sign := if s then -1 else 1 in
      if 0 <=? e then Some (sign * (Z.pos m * 2 ^ e))
      else if Z.pos m mod 2 ^ (- e) =? 0
           then Some (sign * (Z.pos m / 2 ^ (- e)))
           else None
  | _ => None
  end.

Fixpoint is_ascii (s : string) : bool :=
  match s with
  | EmptyString => true
  | String c rest => (nat_of_ascii c <? 128)%nat && is_ascii rest
  end.

(** [a == b] between hashable values.  Numbers compare by value across
    [int], [long] and [float]; a byte string equals a unicode string when it
    is ASCII and has the same characters; [withdelta] objects compare by
    identity, so two occurrences are never equal. *)
Fixpoint py_eq (a b : Value) : bool :=
  match a, b with
  | VNone, VNone => true
  | (VInt x | VLong x), (VInt y | VLong y) => x =? y
  | (VInt x | VLong x), VFloat f | VFloat f, (VInt x | VLong x) =>
      match float_integral f with
      | Some y => x =? y
      | None => false
      end
  | VFloat f, VFloat g => PrimFloat.eqb f g
  | VStr s, VStr t | VUnicode s, VUnicode t => String.eqb s t
  | VStr s, VUnicode t | VUnicode t, VStr s => is_ascii s && String.eqb s t
  | VTimedelta x, VTimedelta y => x =? y
  | VTuple l, VTuple r =>
      (fix eq_all (l r : list Value) : bool :=
         match l, r with
         | [], [] => true
         | x :: l', y :: r' => py_eq x y && eq_all l' r'
         | _, _ => false
         end) l r
  | _, _ => false
  end.

Definition set_add (s : list Value) (v : Value) : list Value :=
  if existsb (py_eq v) s then s else (s ++ [v])%list.

(** [set(values)]: [TypeError] on an unhashable element, otherwise the
    distinct elements. *)
Definition py_set (values : list Value) : result (list Value) :=
  if forallb hashable values then Ok (foldl set_add [] values)
  else Raise TypeError.

(** *** StatsExtractorBase.group_multiple_runs *)

(** An element of the [runs] list: the placeholder of a missing file, a
    scanned extractor object, or a dictionary. *)
Inductive Run : Type :=
| RunNone
| RunExtractor (e : StatsExtractorBase)
| RunDict (d : gmap string Value).

(** [key in run] and [run[key]] for an element that is a dictionary, which
    every element is once the first loop is over. *)
Definition run_lookup (run : Run) (key : string) : option Value :=
  match run with
  | RunDict d => d !! key
  | _ => None
  end.

(** One iteration of the first loop, on the list [runs] it mutates. *)
Definition normalise_step (st : list Run * result (gset string)) (i : nat)
  : list Run * result (gset string) :=
  match st with
  | (runs, Raise e) => (runs, Raise e)
  | (runs, Ok all_keys) =>
      match runs !! i with
      | None => (runs, Raise IndexError)
      | Some RunNone =>
          (<[i := RunDict ∅]> runs,
           Ok (all_keys ∪ dom (∅ : gmap string Value)))
      | Some (RunExtractor e) =>
          match as_dict e with
          | Ok d => (<[i := RunDict d]> runs, Ok (all_keys ∪ dom d))
          | Raise x => (runs, Raise x)
          end
      | Some (RunDict d) => (runs, Ok (all_keys ∪ dom d))
      end
  end.

Definition normalise_runs (runs : list Run)
  : list Run * result (gset string) :=
  foldl normalise_step (runs, Ok ∅) (seq 0 (length runs)).

(** The value stored under [key] by the second loop. *)
Definition group_entry (group_by_key : option string) (runs : list Run)
    (key : string) : result Value :=
  if bool_decide (Some key = group_by_key) then
    let* group_by_values := py_set (omap (λ run, run_lookup run key) runs) in
    match group_by_values with
    | [v] => Ok v
    | _ => Raise AssertionError
    end
  else
    Ok (VList ((λ run, default VNone (run_lookup run key)) <$> runs)).

Definition group_loop (group_by_key : option string) (runs : list Run)
    (all_keys : gset string) : result (gmap string Value) :=
  set_fold
    (λ key acc,
       let* retval := acc in
       let* v := group_entry group_by_key runs key in
       Ok (<[key := v]> retval))
    (Ok ∅) all_keys.

(** [group_multiple_runs(group_by_key, runs)]: the list [runs] as the call
    leaves it, and the outcome of the call. *)
Definition group_multiple_runs (group_by_key : option string)
    (runs : list Run) : list Run * result (gmap string Value) :=
  let '(runs', keys) := normalise_runs runs in
  (runs', let* all_keys := keys in group_loop group_by_key runs' all_keys).

(** *** StatsExtractorBase.add_deltas_to_grouped_runs *)

(** [for k in d: d[k] = f(d[k])]. *)
Definition update_each (f : Value -> result Value) (d : gmap string Value)
  : result (gmap string Value) :=
  map_fold
    (λ k v acc,
       let* d' := acc in
       let* e := f v in
       Ok (<[k := e]> d'))
    (Ok d) d.

(** The body of the loop over the keys of one group. *)
Definition annotate_entry (v : Value) : result Value :=
  match v with
  | VList l =>
      match l with
      | [] => Raise IndexError
      | ref_val :: items =>
          Ok (VList (ref_val ::
                ((λ item, VBox item (get_delta_percent ref_val item))
                   <$> items)))
      end
  | _ => Ok v
  end.

(** The dictionaries passed are mutated in place; the result lists them as
    the call leaves them (the arguments being distinct objects). *)
Fixpoint add_deltas_to_grouped_runs (groups : list (gmap string Value))
  : result (list (gmap string Value)) :=
  match groups with
  | [] => Ok []
  | g :: rest =>
      let* g' := update_each annotate_entry g in
      let* rest' := add_deltas_to_grouped_runs rest in
      Ok (g' :: rest')
  end.

(** *** StatsExtractorBase.compute_footer_from_grouped_runs *)

Definition allowed_types : list PyType := [TTimedelta; TFloat; TInt].

Definition type_in (t : PyType) (ts : list PyType) : bool :=
  existsb (type_is t) ts.

(** A [timedelta] holds between -999999999 and 999999999 days. *)
Definition timedelta_in_range (us : Z) : bool :=
  (-999999999 <=? us / 86400000000) && (us / 86400000000 <=? 999999999).

(** [s + t] for two operands of one allowed type. *)
Definition add_leaf (s t : Value) : result Value :=
  match s, t with
  | VInt a, VInt b => Ok (mk_int (a + b))
  | VFloat a, VFloat b => Ok (VFloat (PrimFloat.add a b))
  | VTimedelta a, VTimedelta b =>
      if timedelta_in_range (a + b) then Ok (VTimedelta (a + b))
      else Raise OverflowError
  | _, _ => Raise TypeError
  end.

(** [max(s, t)] for two operands of one allowed type: [t] when [t > s],
    otherwise [s]. *)
Definition max_leaf (s t : Value) : result Value :=
  match s, t with
  | VInt a, VInt b | VTimedelta a, VTimedelta b =>
      Ok (if a <? b then t else s)
  | VFloat a, VFloat b => Ok (if PrimFloat.ltb a b then t else s)
  | _, _ => Raise TypeError
  end.

(** Sequencing of the calls of a list comprehension, for calls that may
    exhaust the recursion budget ([None]) or raise. *)
Fixpoint collect_calls {A} (l : list (option (result A)))
  : option (result (list A)) :=
  match l with
  | [] => Some (Ok [])
  | c :: rest =>
      match c with
      | None => None
      | Some (Raise e) => Some (Raise e)
      | Some (Ok a) =>
          match collect_calls rest with
          | None => None
          | Some (Raise e) => Some (Raise e)
          | Some (Ok tl) => Some (Ok (a :: tl))
          end
      end
  end.

(** [ExpandBinaryAction.__call__], with a budget of nested calls: [None]
    when the budget is exhausted. *)
Fixpoint expand_binary (budget : nat)
    (action : Value -> Value -> result Value) (l r : Value)
  : option (result Value) :=
  match budget with
  | O => None
  | S budget =>
      let l := val_of l in
      let r := val_of r in
      if negb (type_is (type_of l) (type_of r)) then Some (Ok VNone)
      else
        match l, r with
        | VTuple lt, VTuple rt =>
            match expand_binary budget action (VList lt) (VList rt) with
            | None => None
            | Some (Raise e) => Some (Raise e)
            | Some (Ok (VList res)) => Some (Ok (VTuple res))
            | Some (Ok _) => Some (Raise TypeError)
            end
        | VList ll, VList rl =>
            let '(ll, rl) :=
              if (length ll <? length rl)%nat then (rl, ll) else (ll, rl) in
            match collect_calls
                    ((λ i, match ll !! i, rl !! i with
                           | Some a, Some b => expand_binary budget action a b
                           | _, _ => Some (Raise IndexError)
                           end) <$> seq 0 (length rl)) with
            | None => None
            | Some (Raise e) => Some (Raise e)
            | Some (Ok res) => Some (Ok (VList res))
            end
        | _, _ =>
            if negb (type_in (type_of l) allowed_types) then Some (Ok VNone)
            else Some (action l r)
        end
  end.

(** The number of nested calls [ExpandBinaryAction.__call__] makes on an
    operand. *)
Fixpoint call_depth (v : Value) : nat :=
  match v with
  | VList l => S (foldr (λ x n, Nat.max (call_depth x) n) O l)
  | VTuple l => S (S (foldr (λ x n, Nat.max (call_depth x) n) O l))
  | VBox w _ =>
      match w with
      | VList l => S (foldr (λ x n, Nat.max (call_depth x) n) O l)
      | VTuple l => S (S (foldr (λ x n, Nat.max (call_depth x) n) O l))
      | _ => 1%nat
      end
  | _ => 1%nat
  end.

(** The deepest element of a list. *)
Definition max_depth (l : list Value) : nat :=
  foldr (λ x n, Nat.max (call_depth x) n) O l.

(** The call [custom(l, r)] of an [ExpandBinaryAction] object. *)
Definition call_binary (action : Value -> Value -> result Value)
    (l r : Value) : result Value :=
  match expand_binary (call_depth l) action l r with
  | Some res => res
  | None => Ok VNone
  end.

(** [ExpandUnaryAction.__call__]. *)
Fixpoint expand_unary (action : Value -> result Value) (x : Value)
  : result Value :=
  match val_of x with
  | VTuple xs =>
      let* res := collect (map (expand_unary action) xs) in
      Ok (VTuple res)
  | VList xs =>
      let* res := collect (map (expand_unary action) xs) in
      Ok (VList res)
  | y =>
      if negb (type_in (type_of y) allowed_types) then Ok VNone
      else action y
  end.

Section Footer.

(** The constructor call [timedelta(seconds=f)]. *)
Variable timedelta_of_seconds : float -> result Value.

(** [divide_value], [n] being [len(groups)]. *)
Definition divide_value (n : Z) (x : Value) : result Value :=
  match x with
  | VTimedelta us =>
      timedelta_of_seconds (PrimFloat.div (total_seconds us) (float_of_Z n))
  | VInt z => int_of_float (PrimFloat.div (float_of_Z z) (float_of_Z n))
  | VFloat f => Ok (VFloat (PrimFloat.div f (float_of_Z n)))
  | _ => Raise TypeError
  end.

Definition custom_sum : Value -> Value -> result Value :=
  call_binary add_leaf.
Definition custom_max : Value -> Value -> result Value :=
  call_binary max_leaf.
Definition custom_divide (n : Z) : Value -> result Value :=
  expand_unary (divide_value n).

(** The body of [for field in group]. *)
Definition footer_field (field : string) (v : Value)
    (acc : result (gmap string Value * gmap string Value))
  : result (gmap string Value * gmap string Value) :=
  let* sm := acc in
  let* s := match sm.1 !! field with
            | None => Ok v
            | Some s => custom_sum s v
            end in
  let* m := match sm.2 !! field with
            | None => Ok v
            | Some m => custom_max m v
            end in
  Ok (<[field := s]> sm.1, <[field := m]> sm.2).

(** The loop [for group in groups], from the state [acc] of [sums] and
    [maxes]. *)
Definition footer_groups (groups : list (gmap string Value))
    (acc : result (gmap string Value * gmap string Value))
  : result (gmap string Value * gmap string Value) :=
  foldl (λ acc group, map_fold footer_field acc group) acc groups.

Definition compute_footer_from_grouped_runs
    (groups : list (gmap string Value)) (with_delta : bool)
  : result (gmap string (gmap string Value)) :=
  let* sm := footer_groups groups (Ok (∅, ∅)) in
  let* sums := update_each (custom_divide (Z.of_nat (length groups))) sm.1 in
  let maxes := sm.2 in
  let* annotated :=
    if with_delta then add_deltas_to_grouped_runs [sums; maxes]
    else Ok [sums; maxes] in
  match annotated with
  | [sums; maxes] => Ok {[ "max" := maxes; "avg" := sums ]}
  | _ => Raise IndexError
  end.

End Footer.

End extractor.

(** ** output_module.py *)

Module output_module.

(** *** TableFormatterBase.Location *)

Inductive TableLoc : Set :=
| LOC_IN_TABLE_HDR | LOC_IN_TABLE_BODY | LOC_IN_TABLE_FOOTER.

Inductive CellLoc : Set :=
| LOC_IN_CELL_VALUE | LOC_IN_CELL_DELTA.

Record Location : Type := mkLocation {
  loc_in_table : option TableLoc;
  n_group : Z;
  n_col : Z;
  col_name : option string;
  n_run : Z;
  num_of_runs_in_cell : Z;
  num_of_runs_in_group : Z;
  value : Value;
  delta : option float;
  loc_in_cell : option CellLoc;
  col_has_delta : option bool
}.

(** The class attributes a fresh [Location()] starts from. *)
Definition new_location : Location :=
  {| loc_in_table := None; n_group := -1; n_col := -1; col_name := None;
     n_run := -1; num_of_runs_in_cell := -1; num_of_runs_in_group := -1;
     value := VNone; delta := None; loc_in_cell := None;
     col_has_delta := None |}.

(** The calls [loc.update(...)] of the walk, one per set of keywords. *)
Definition update_loc_in_table (t : option TableLoc) (loc : Location)
  : Location :=
  mkLocation t (n_group loc) (n_col loc) (col_name loc) (n_run loc)
    (num_of_runs_in_cell loc) (num_of_runs_in_group loc) (value loc)
    (delta loc) (loc_in_cell loc) (col_has_delta loc).

Definition update_loc_in_cell (c : option CellLoc) (loc : Location)
  : Location :=
  mkLocation (loc_in_table loc) (n_group loc) (n_col loc) (col_name loc)
    (n_run loc) (num_of_runs_in_cell loc) (num_of_runs_in_group loc)
    (value loc) (delta loc) c (col_has_delta loc).

Definition update_header_col (v : Value) (ncol : Z) (chd : option bool)
    (name : option string) (loc : Location) : Location :=
  mkLocation (loc_in_table loc) (n_group loc) ncol name (n_run loc)
    (num_of_runs_in_cell loc) (num_of_runs_in_group loc) v (delta loc)
    (loc_in_cell loc) chd.

Definition update_group (ngroup runs_in_group : Z) (loc : Location)
  : Location :=
  mkLocation (loc_in_table loc) ngroup (n_col loc) (col_name loc) (n_run loc)
    (num_of_runs_in_cell loc) runs_in_group (value loc) (delta loc)
    (loc_in_cell loc) (col_has_delta loc).

Definition update_n_run (nrun : Z) (loc : Location) : Location :=
  mkLocation (loc_in_table loc) (n_group loc) (n_col loc) (col_name loc) nrun
    (num_of_runs_in_cell loc) (num_of_runs_in_group loc) (value loc)
    (delta loc) (loc_in_cell loc) (col_has_delta loc).

Definition update_col (v : Value) (d : option float) (runs_in_cell : Z)
    (chd : option bool) (ncol : Z) (name : option string) (loc : Location)
  : Location :=
  mkLocation (loc_in_table loc) (n_group loc) ncol name (n_run loc)
    runs_in_cell (num_of_runs_in_group loc) v d (loc_in_cell loc) chd.

(** *** TableFormatterBase._get_extra_info *)

Record TableFormatterBase : Type := mkTable {
  table : list (gmap string Value);
  footer : list (gmap string Value);
  footer_names : list string;
  _all_keys : gset string;
  _col_has_delta : gmap string bool;
  _num_of_runs_in_group : list Z;
  _num_of_runs_in_cell : list (gmap string Z)
}.

(** The body of [for k in group], on [_col_has_delta] and on the entries
    just appended to [_num_of_runs_in_cell] and [_num_of_runs_in_group]. *)
Definition extra_info_key (k : string) (v : Value)
    (st : gmap string bool * gmap string Z * Z)
  : gmap string bool * gmap string Z * Z :=
  let '(chd, cell, grp) := st in
  let chd := match chd !! k with
             | None => <[k := false]> chd
             | Some _ => chd
             end in
  let chd := match v with
             | VList l => if existsb is_withdelta l then <[k := true]> chd
                          else chd
             | _ => chd
             end in
  let runs_in_cell := match v with
                      | VList l => Z.of_nat (length l)
                      | _ => -1
                      end in
  let cell := <[k := runs_in_cell]> cell in
  let grp := if grp <? runs_in_cell then runs_in_cell else grp in
  (chd, cell, grp).

(** The body of [for group in self.table + self.footer]. *)
Definition extra_info_group (self : TableFormatterBase)
    (group : gmap string Value) : TableFormatterBase :=
  let '(chd, cell, grp) :=
    map_fold extra_info_key (_col_has_delta self, ∅, -1) group in
  {| table := table self; footer := footer self;
     footer_names := footer_names self;
     _all_keys := _all_keys self ∪ dom group;
     _col_has_delta := chd;
     _num_of_runs_in_group := _num_of_runs_in_group self ++ [grp];
     _num_of_runs_in_cell := _num_of_runs_in_cell self ++ [cell] |}.

Definition _get_extra_info (self : TableFormatterBase) : TableFormatterBase :=
  foldl extra_info_group
    {| table := table self; footer := footer self;
       footer_names := footer_names self;
       _all_keys := ∅; _col_has_delta := ∅;
       _num_of_runs_in_group := []; _num_of_runs_in_cell := [] |}
    (table self ++ footer self).

(** [TableFormatterBase.__init__]. *)
Definition new_table (timedelta_of_seconds : float -> result Value)
    (grouped_runs : list (gmap string Value)) (footer_with_delta : bool)
  : result TableFormatterBase :=
  let* candidate_footer :=
    extractor.compute_footer_from_grouped_runs timedelta_of_seconds
      grouped_runs footer_with_delta in
  let names := (map_to_list candidate_footer).*1 in
  Ok (_get_extra_info
        {| table := grouped_runs;
           footer := (map_to_list candidate_footer).*2;
           footer_names := names;
           _all_keys := ∅; _col_has_delta := ∅;
           _num_of_runs_in_group := []; _num_of_runs_in_cell := [] |}).

(** [TableFormatterBase.column_has_delta]. *)
Definition base_column_has_delta (self : TableFormatterBase)
    (col_name : option string) : result bool :=
  match col_name ≫= (λ k, _col_has_delta self !! k) with
  | Some b => Ok b
  | None => Raise KeyError
  end.

(** *** TableFilteredBase *)

(** The values column descriptors hold. *)
Inductive Attr : Type :=
| AttrBool (b : bool)
| AttrNone
| AttrFormatter (f : Value -> result Value).

Definition truthy (a : Attr) : bool :=
  match a with
  | AttrBool b => b
  | AttrNone => false
  | AttrFormatter _ => true
  end.

Record TableFilteredBase : Type := mkFiltered {
  base : TableFormatterBase;
  column_descriptors : gmap string (gmap string Attr);
  preferred_order : list string;
  (** what [self.__class__.get_default_column_descriptor()] returns *)
  default_column_descriptor : gmap string Attr
}.

Definition TableFilteredBase_default_column_descriptor : gmap string Attr :=
  {[ "toggle_off" := AttrBool false; "toggle_delta_off" := AttrBool false ]}.

Definition get_column_attribute (self : TableFilteredBase)
    (col_name : option string) (attrib_name : string) (default : Attr)
  : Attr :=
  let descriptor :=
    match col_name ≫= (λ k, column_descriptors self !! k) with
    | Some d => d
    | None => default_column_descriptor self
    end in
  match descriptor !! attrib_name with
  | None => default
  | Some a => a
  end.

Definition set_column_attribute (self : TableFilteredBase)
    (col_name attrib_name : string) (v : Attr) : TableFilteredBase :=
  let descriptor := default ∅ (column_descriptors self !! col_name) in
  {| base := base self;
     column_descriptors :=
       <[col_name := <[attrib_name := v]> descriptor]>
         (column_descriptors self);
     preferred_order := preferred_order self;
     default_column_descriptor := default_column_descriptor self |}.

(** [TableFilteredBase.column_has_delta]. *)
Definition column_has_delta (self : TableFilteredBase)
    (col_name : option string) : result bool :=
  if truthy (get_column_attribute self col_name "toggle_delta_off"
               (AttrBool false))
  then Ok false
  else base_column_has_delta (base self) col_name.

(** [TableFilteredBase.recompute_header]; the keys of a dictionary and the
    elements of a set come in the order [map_to_list] and [elements] give. *)
Definition recompute_header (self : TableFilteredBase)
    (all_keys : gset string) : list string :=
  let exclude :=
    filter (λ k, truthy (get_column_attribute self (Some k) "toggle_off"
                           (AttrBool false)) = true)
           (map_to_list (column_descriptors self)).*1 in
  let preferred :=
    filter (λ col, (col ∈ all_keys) ∧ (col ∉ exclude))
      (preferred_order self) in
  let others :=
    filter (λ col, (col ∉ exclude) ∧ (col ∉ preferred_order self))
      (elements all_keys) in
  (preferred ++ others)%list.

(** *** TableFormatterBase.run: the walk *)

(** The hooks of the visitor protocol. *)
Inductive Hook : Set :=
| BeginTable | BeginHeader | BeginBody | BeginFooter | BeginGroup | BeginRow
| BeginCol | BeginValue | BeginDelta | ProcessValue | ProcessDelta | EndDelta
| EndValue | EndCol | EndRow | EndGroup | EndBody | EndFooter | EndHeader
| EndTable.

(** The walk is recorded as the sequence of hook calls it makes, each with
    the contents of the shared [Location] object at the time of the call.
    A [Walk] is that object together with the calls made so far. *)
Definition Event : Type := Hook * Location.
Definition Walk : Type := Location * list Event.

(** [append(self.<hook>(loc.update(...)))]. *)
Definition call (h : Hook) (update : Location -> Location) (w : Walk)
  : Walk :=
  let loc := update w.1 in (loc, (w.2 ++ [(h, loc)])%list).

(** [obj[i]]. *)
Definition py_getitem (obj : Value) (i : nat) : result Value :=
  match obj with
  | VList l | VTuple l =>
      match l !! i with
      | Some x => Ok x
      | None => Raise IndexError
      end
  | VStr s =>
      match String.get i s with
      | Some c => Ok (VStr (String c EmptyString))
      | None => Raise IndexError
      end
  | VUnicode s =>
      match String.get i s with
      | Some c => Ok (VUnicode (String c EmptyString))
      | None => Raise IndexError
      end
  | _ => Raise TypeError
  end.

Section Walk.

Variable self : TableFormatterBase.
(** The methods subclasses override. *)
Variable column_has_delta_method : option string -> result bool.
Variable header : list string.

(** From [begin_value] to [end_col], the same in the header and in the
    groups. *)
Definition walk_cell (w : Walk) : Walk :=
  let w := call BeginValue (update_loc_in_cell (Some LOC_IN_CELL_VALUE)) w in
  let w := call ProcessValue id w in
  let w := call EndValue id w in
  let w := call BeginDelta (update_loc_in_cell (Some LOC_IN_CELL_DELTA)) w in
  let w := call ProcessDelta id w in
  let w := call EndDelta id w in
  call EndCol (update_loc_in_cell None) w.

(** The columns, as the pairs of [n_col] and [self.header[n_col]]. *)
Definition columns : list (nat * string) :=
  zip (seq 0 (length header)) header.

Definition walk_header_col (w : result Walk) (c : nat * string)
  : result Walk :=
  let* w := w in
  let* has := column_has_delta_method (Some c.2) in
  Ok (walk_cell
        (call BeginCol
           (update_header_col (VStr c.2) (Z.of_nat c.1) (Some has) (Some c.2))
           w)).

(** The value, delta and number of runs of the cell of column [col_name] in
    row [n_run] of [groups[n_group]]. *)
Definition cell_content (groups : list (gmap string Value))
    (n_group n_run : nat) (col_name : string)
  : result (Value * option float * Z) :=
  match groups !! n_group with
  | None => Raise IndexError
  | Some group =>
      match group !! col_name with
      | None => Ok (VNone, None, -1)
      | Some entry =>
          let* runs_in_cell :=
            match _num_of_runs_in_cell self !! n_group with
            | None => Raise IndexError
            | Some cells =>
                match cells !! col_name with
                | None => Raise KeyError
                | Some n => Ok n
                end
            end in
          let* v := if 0 <? runs_in_cell then py_getitem entry n_run
                    else Ok entry in
          Ok (val_of v, match v with VBox _ d => d | _ => None end,
              runs_in_cell)
      end
  end.

Definition walk_col (groups : list (gmap string Value))
    (n_group n_run : nat) (w : result Walk) (c : nat * string)
  : result Walk :=
  let* w := w in
  let* content := cell_content groups n_group n_run c.2 in
  let* has := column_has_delta_method (Some c.2) in
  Ok (walk_cell
        (call BeginCol
           (update_col content.1.1 content.1.2 content.2 (Some has)
              (Z.of_nat c.1) (Some c.2))
           w)).

Definition walk_row (groups : list (gmap string Value)) (n_group : nat)
    (w : result Walk) (n_run : nat) : result Walk :=
  let* w := w in
  let w := call BeginRow (update_n_run (Z.of_nat n_run)) w in
  let* w := foldl (walk_col groups n_group n_run) (Ok w) columns in
  Ok (call EndRow (update_col VNone None (-1) None (-1) None) w).

Definition walk_group (groups : list (gmap string Value))
    (group_offset : nat) (w : result Walk) (n_group : nat) : result Walk :=
  let* w := w in
  let* runs_in_group :=
    match _num_of_runs_in_group self !! (n_group + group_offset)%nat with
    | Some n => Ok n
    | None => Raise IndexError
    end in
  let w := call BeginGroup (update_group (Z.of_nat n_group) runs_in_group) w in
  let* w := foldl (walk_row groups n_group) (Ok w)
              (seq 0 (Z.to_nat runs_in_group)) in
  Ok (call EndGroup (update_n_run (-1)) w).

Definition process_groups (groups : list (gmap string Value))
    (group_offset : nat) (w : Walk) : result Walk :=
  foldl (walk_group groups group_offset) (Ok w) (seq 0 (length groups)).

(** The walk up to [begin_body]. *)
Definition walk_header : result Walk :=
  let w := call BeginTable id (new_location, []) in
  let w := call BeginHeader (update_loc_in_table (Some LOC_IN_TABLE_HDR)) w in
  let w := call BeginRow id w in
  let* w := foldl walk_header_col (Ok w) columns in
  let w := call EndRow (update_header_col VNone (-1) None None) w in
  let w := call EndHeader id w in
  Ok (call BeginBody (update_loc_in_table (Some LOC_IN_TABLE_BODY)) w).

(** The walk up to [begin_footer]. *)
Definition walk_body : result Walk :=
  let* w := walk_header in
  let* w := process_groups (table self) 0 w in
  let w := call EndBody (update_group (-1) (-1)) w in
  Ok (call BeginFooter (update_loc_in_table (Some LOC_IN_TABLE_FOOTER)) w).

(** The hook calls of [run], in order. *)
Definition run : result (list Event) :=
  let* w := walk_body in
  let* w := process_groups (footer self) (length (table self)) w in
  let w := call EndFooter (update_group (-1) (-1)) w in
  let w := call EndTable (update_loc_in_table None) w in
  Ok w.2.

End Walk.


(** *** TagBuilder *)

Record TagBuilder : Type := mkTag {
  tag_name : string;
  attributes : gmap string Value;
  classes : list string;
  body : option Value
}.

(** [TagBuilder(tag_name)]. *)
Definition new_tag (name : string) : TagBuilder :=
  {| tag_name := name; attributes := ∅; classes := []; body := None |}.

Definition set_tag_name (name : string) (b : TagBuilder) : TagBuilder :=
  mkTag name (attributes b) (classes b) (body b).

(** [builder.attributes[k] = v]. *)
Definition set_attribute (k : string) (v : Value) (b : TagBuilder)
  : TagBuilder :=
  mkTag (tag_name b) (<[k := v]> (attributes b)) (classes b) (body b).

(** [builder.classes.append(c)]. *)
Definition append_class (c : string) (b : TagBuilder) : TagBuilder :=
  mkTag (tag_name b) (attributes b) (classes b ++ [c])%list (body b).

Definition preprocess (b : TagBuilder) : TagBuilder :=
  if (0 <? length (classes b))%nat then
    set_attribute "class" (VStr (String.concat " " (classes b))) b
  else
    mkTag (tag_name b) (delete "class" (attributes b)) (classes b) (body b).

Definition quote : string := String (ascii_of_nat 34) EmptyString.

Section Html.

(** [quick_html_escape] and the built-in [str]. *)
Variable quick_html_escape : Value -> string.
Variable py_str : Value -> string.

(** [TagBuilder.run]: the opening tag, the escaped body and the closing
    tag. *)
Definition TagBuilder_run (b : TagBuilder) : string * option string * string :=
  let b := preprocess b in
  let opening := ("<" ++ tag_name b)%string in
  let opening :=
    if (0 <? size (attributes b))%nat then
      (opening ++ " " ++
       String.concat " "
         ((λ kv : string * Value,
             kv.1 ++ "=" ++ quote ++ quick_html_escape kv.2 ++ quote)
            <$> map_to_list (attributes b)))%string
    else opening in
  ((opening ++ ">")%string,
   quick_html_escape <$> body b,
   ("</" ++ tag_name b ++ ">")%string).

(** *** HTMLSheetFormatter *)

Record HTMLSheetFormatter : Type := mkHTML {
  filtered : TableFilteredBase;
  _stand_out_class_cache : gmap (Z * Z * Z) (option string);
  _indent : Z;
  run_names : list string;
  title : string
}.

Definition HTMLSheetFormatter_default_column_descriptor : gmap string Attr :=
  <["stand_out" := AttrBool false]>
    (<["formatter" := AttrNone]>
       (<["bigger_is_better" := AttrBool false]>
          TableFilteredBase_default_column_descriptor)).

Definition set_indent (n : Z) (self : HTMLSheetFormatter)
  : HTMLSheetFormatter :=
  mkHTML (filtered self) (_stand_out_class_cache self) n (run_names self)
    (title self).

Definition set_cache (c : gmap (Z * Z * Z) (option string))
    (self : HTMLSheetFormatter) : HTMLSheetFormatter :=
  mkHTML (filtered self) c (_indent self) (run_names self) (title self).

(** [' ' * 4 * n]. *)
Definition spaces (n : Z) : string :=
  String.concat EmptyString (replicate (Z.to_nat n) "    ").

Definition indent (self : HTMLSheetFormatter) : string :=
  spaces (_indent self).

Definition increase_indent (self : HTMLSheetFormatter)
  : string * HTMLSheetFormatter :=
  let self := set_indent (_indent self + 1) self in
  (spaces (_indent self - 1), self).

Definition decrease_indent (self : HTMLSheetFormatter)
  : string * HTMLSheetFormatter :=
  let self := set_indent (_indent self - 1) self in
  (indent self, self).

Definition in_table (loc : Location) (t : TableLoc) : bool :=
  match loc_in_table loc, t with
  | Some LOC_IN_TABLE_HDR, LOC_IN_TABLE_HDR
  | Some LOC_IN_TABLE_BODY, LOC_IN_TABLE_BODY
  | Some LOC_IN_TABLE_FOOTER, LOC_IN_TABLE_FOOTER => true
  | _, _ => false
  end.

Definition cell_is_th (loc : Location) : bool :=
  in_table loc LOC_IN_TABLE_HDR
  || ((num_of_runs_in_cell loc <=? 0) && (n_col loc =? 0)).

Definition get_stand_out_class (self : HTMLSheetFormatter) (loc : Location)
  : option string :=
  match delta loc with
  | None => Some "muted"
  | Some d =>
      if negb (PrimFloat.eqb d d) then None
      else if truthy (get_column_attribute (filtered self) (col_name loc)
                        "bigger_is_better" (AttrBool false)) then
        if PrimFloat.ltb d (PrimFloat.opp 0.05%float) then Some "danger"
        else if PrimFloat.ltb d 0%float then Some "warning"
        else if PrimFloat.ltb d 0.05%float then Some "info"
        else Some "success"
      else
        if PrimFloat.leb d (PrimFloat.opp 0.05%float) then Some "success"
        else if PrimFloat.leb d 0%float then Some "info"
        else if PrimFloat.leb d 0.05%float then Some "warning"
        else Some "danger"
  end.

Definition _get_stand_out_class_from_cache (self : HTMLSheetFormatter)
    (loc : Location) : option string * HTMLSheetFormatter :=
  let key := (n_group loc, n_run loc, n_col loc) in
  match _stand_out_class_cache self !! key with
  | Some c => (c, self)
  | None =>
      let c := get_stand_out_class self loc in
      (c, set_cache (<[key := c]> (_stand_out_class_cache self)) self)
  end.

(** The test the value and delta hooks share: a cell without runs in a
    group that has runs. *)
Definition spans_group (loc : Location) : bool :=
  (num_of_runs_in_cell loc <=? 0) && (0 <? num_of_runs_in_group loc).

(** [begin_value] up to [builder.run()]: the builder, or [None] when the
    hook returns early. *)
Definition begin_value_builder (self : HTMLSheetFormatter) (loc : Location)
  : result (option TagBuilder * HTMLSheetFormatter) :=
  let builder := new_tag "td" in
  let builder :=
    if cell_is_th loc then
      let builder := set_tag_name "th" builder in
      if in_table loc LOC_IN_TABLE_FOOTER then
        append_class "text-center" (append_class "text-muted" builder)
      else if in_table loc LOC_IN_TABLE_HDR then
        append_class "text-center" builder
      else builder
    else append_class "text-right" builder in
  let* builder :=
    if in_table loc LOC_IN_TABLE_HDR then
      let* has := column_has_delta (filtered self) (col_name loc) in
      Ok (if has then set_attribute "colspan" (VInt 2) builder else builder)
    else Ok builder in
  let* spanned :=
    if spans_group loc then
      if n_run loc =? 0 then
        let builder :=
          set_attribute "rowspan" (VInt (num_of_runs_in_group loc)) builder in
        let* has := column_has_delta (filtered self) (col_name loc) in
        Ok (Some (if has then set_attribute "colspan" (VInt 2) builder
                  else builder))
      else Ok None
    else Ok (Some builder) in
  match spanned with
  | None => Ok (None, self)
  | Some builder =>
      if truthy (get_column_attribute (filtered self) (col_name loc)
                   "stand_out" (AttrBool false)) then
        let builder := append_class "stand-out" builder in
        if negb (in_table loc LOC_IN_TABLE_HDR) then
          let '(stand_out_class, self) :=
            _get_stand_out_class_from_cache self loc in
          match stand_out_class with
          | Some c =>
              if negb (String.eqb c "muted")
              then Ok (Some (append_class c builder), self)
              else Ok (Some builder, self)
          | None => Ok (Some builder, self)
          end
        else Ok (Some builder, self)
      else Ok (Some builder, self)
  end.

Definition begin_value (self : HTMLSheetFormatter) (loc : Location)
  : result (option string * HTMLSheetFormatter) :=
  let* built := begin_value_builder self loc in
  match built.1 with
  | None => Ok (None, built.2)
  | Some builder =>
      let opening := (TagBuilder_run builder).1.1 in
      let '(ind, self) := increase_indent built.2 in
      Ok (Some (ind ++ opening)%string, self)
  end.

Definition end_value (self : HTMLSheetFormatter) (loc : Location)
  : result (option string * HTMLSheetFormatter) :=
  if spans_group loc && (0 <? n_run loc) then Ok (None, self)
  else
    let '(ind, self) := decrease_indent self in
    Ok (Some (ind ++ (if cell_is_th loc then "</th>" else "</td>"))%string,
        self).

Definition process_value (self : HTMLSheetFormatter) (loc : Location)
  : result (option string * HTMLSheetFormatter) :=
  if spans_group loc && (0 <? n_run loc) then Ok (None, self)
  else
    let v := value loc in
    let* v :=
      if negb (in_table loc LOC_IN_TABLE_HDR) then
        match get_column_attribute (filtered self) (col_name loc)
                "formatter" AttrNone with
        | AttrNone => Ok v
        | AttrFormatter f => f v
        | AttrBool _ => Raise TypeError
        end
      else Ok v in
    let* v :=
      if in_table loc LOC_IN_TABLE_FOOTER
         && (num_of_runs_in_cell loc <=? 0) && (n_col loc =? 0) then
        let* name :=
          list_index (footer_names (base (filtered self))) (n_group loc) in
        Ok (VStr name)
      else Ok v in
    if is_none v then
      Ok (Some (indent self ++ "<span class=" ++ quote ++ "text-muted"
                  ++ quote ++ ">n/a</span>")%string, self)
    else
      Ok (Some (indent self ++ quick_html_escape (VStr (py_str v)))%string,
          self).

End Html.

End output_module.

(** ** Notions the properties are stated with *)

Module spec.

(** [numeric()]: the number a delta is computed on; a duration stands for
    its total seconds. *)
Definition numeric (v : Value) : float :=
  match v with
  | VInt z => float_of_Z z
  | VFloat f => f
  | VTimedelta us => total_seconds us
  | _ => float_zero
  end.

(** An operand is invalid when it is a negative integer, a negative
    duration or a NaN float. *)
Definition invalid_operand (v : Value) : bool :=
  match v with
  | VInt z => z <? 0
  | VFloat f => negb (PrimFloat.eqb f f)
  | VTimedelta us => negb (PrimFloat.leb float_zero (total_seconds us))
  | _ => false
  end.

(** A delta below zero; it tells -Infinity from 0.0. *)
Definition is_negative (d : option float) : bool :=
  match d with
  | Some f => PrimFloat.ltb f float_zero
  | None => false
  end.

(** Both operands are integers, both floats, or both durations. *)
Definition same_numeric_type (v1 v2 : Value) : bool :=
  match v1, v2 with
  | VInt _, VInt _ | VFloat _, VFloat _ | VTimedelta _, VTimedelta _ => true
  | _, _ => false
  end.

(** The matches a scan accepts: the candidates that are not null. *)
Definition accepted (candidates : list Value) : list Value :=
  filter (λ c, is_none c = false) candidates.

(** [process_line]'s update, applied to the accepted matches in order. *)
Fixpoint accept_all (add : Value -> Value -> result Value)
    (self : extractor.ExtractorBase) (matches : list Value)
  : result extractor.ExtractorBase :=
  match matches with
  | [] => Ok self
  | c :: rest =>
      let* self' := extractor.accept_candidate add self c in
      accept_all add self' rest
  end.

(** What the first loop of [group_multiple_runs] stores in place of an
    element of [runs]: an empty mapping for the placeholder of a missing
    file, the dictionary projection for an extractor object. *)
Definition project (run : extractor.Run) : extractor.Run :=
  match run with
  | extractor.RunNone => extractor.RunDict ∅
  | extractor.RunExtractor e =>
      match extractor.as_dict e with
      | Ok d => extractor.RunDict d
      | Raise _ => run
      end
  | extractor.RunDict d => run
  end.

(** The delta annotation of one entry of a group: in a list, every slot
    after the first is boxed with its delta against the first slot of that
    same list; anything else is left as it is. *)
Definition annotated (v : Value) : Value :=
  match v with
  | VList (ref_val :: items) =>
      VList (ref_val ::
             ((λ item, VBox item (extractor.get_delta_percent ref_val item))
                <$> items))
  | _ => v
  end.



(** A per-run list with a [withdelta] among its elements. *)
Definition list_has_box (v : Value) : bool :=
  match v with
  | VList l => existsb is_withdelta l
  | _ => false
  end.

(** A [withdelta] whose delta is not null. *)
Definition has_delta (v : Value) : bool :=
  match v with
  | VBox _ (Some _) => true
  | _ => false
  end.

(** The number of runs [_get_extra_info] records for an entry: the length
    of a list, -1 for anything else. *)
Definition runs_in_cell (v : Value) : Z :=
  match v with
  | VList l => Z.of_nat (length l)
  | _ => -1
  end.

(** Some group has the key [k]. *)
Definition column_present (groups : list (gmap string Value)) (k : string)
  : bool :=
  existsb (λ g : gmap string Value, bool_decide (is_Some (g !! k))) groups.

(** Some group has, under [k], a list with a [withdelta] among its
    elements. *)
Definition column_list_has_box (groups : list (gmap string Value))
    (k : string) : bool :=
  existsb (λ g : gmap string Value,
             match g !! k with
             | Some v => list_has_box v
             | None => false
             end) groups.

(** Some cell of column [k], in some group, satisfies [p]; the cells of a
    list-valued entry are its elements. *)
Definition column_any (p : Value -> bool) (groups : list (gmap string Value))
    (k : string) : bool :=
  existsb (λ g : gmap string Value,
             match g !! k with
             | Some (VList l) => existsb p l
             | Some v => p v
             | None => false
             end) groups.

(** The hooks that render the value of a cell. *)
Definition value_hook (h : output_module.Hook) : bool :=
  match h with
  | output_module.BeginValue | output_module.ProcessValue
  | output_module.EndValue => true
  | _ => false
  end.

(** The hooks called for one column of one row, in order. *)
Definition cell_hooks : list output_module.Hook :=
  [output_module.BeginCol; output_module.BeginValue;
   output_module.ProcessValue; output_module.EndValue;
   output_module.BeginDelta; output_module.ProcessDelta;
   output_module.EndDelta; output_module.EndCol].

(** What the [Location] says during the calls made for the cell of column
    [c], named [k], in row [r] of group [g]. *)
Definition cell_loc (T : output_module.TableLoc) (g r c : nat) (k : string)
    (R runs : Z) (loc : output_module.Location) : Prop :=
  output_module.loc_in_table loc = Some T
  /\ output_module.n_group loc = Z.of_nat g
  /\ output_module.n_run loc = Z.of_nat r
  /\ output_module.n_col loc = Z.of_nat c
  /\ output_module.col_name loc = Some k
  /\ output_module.num_of_runs_in_group loc = R
  /\ output_module.num_of_runs_in_cell loc = runs.




Section WalkCalls.

Variable self : output_module.TableFormatterBase.
Variable header : list string.
Variable groups : list (gmap string Value).
Variable T : output_module.TableLoc.

(** The calls of one column: the eight cell hooks, on the [Location] of
    that cell. *)
Definition col_calls (g : nat) (R : Z) (r : nat) (c : nat * string)
    (new : list output_module.Event) : Prop :=
  exists content,
    output_module.cell_content self groups g r c.2 = Ok content
    /\ new.*1 = cell_hooks
    /\ Forall (λ ev, cell_loc T g r c.1 c.2 R content.2 ev.2) new.

(** The calls of one row: [begin_row], the calls of every column in turn,
    [end_row]. *)
Definition row_calls (g : nat) (R : Z) (r : nat)
    (new : list output_module.Event) : Prop :=
  exists eb news ee,
    new = eb :: (mjoin news ++ [ee])%list
    /\ value_hook eb.1 = false /\ value_hook ee.1 = false
    /\ Forall2 (col_calls g R r) (output_module.columns header) news.

(** The calls of one group: [begin_group], the calls of every row in turn,
    [end_group]. *)
Definition group_calls (group_offset : nat) (g : nat)
    (new : list output_module.Event) : Prop :=
  exists R eb news ee,
    output_module._num_of_runs_in_group self !! (g + group_offset)%nat
      = Some R
    /\ new = eb :: (mjoin news ++ [ee])%list
    /\ value_hook eb.1 = false /\ value_hook ee.1 = false
    /\ Forall2 (row_calls g R) (seq 0 (Z.to_nat R)) news.

End WalkCalls.

End spec.

(** ** Sample data *)

Module examples.

(** An extractor hook that matches the non-empty lines and yields their
    length. *)
Definition line_length (line : string) : result Value :=
  Ok (if String.eqb line EmptyString then VNone
      else VInt (Z.of_nat (String.length line))).

Definition sample_lines : list string := ["a"; EmptyString; "bb"; "ccc"].

(** A scanned file whose extractor of [name] ended with the value "A". *)
Definition scanned : extractor.StatsExtractorBase :=
  {| extractor.extractors :=
       {[ "name" := {| extractor.value := VStr "A";
                       extractor.num_of_matches := 1;
                       extractor.policy := extractor.POLICY_KEEP_LAST |} ]};
     extractor.extracted_attributes := ["name"];
     extractor.getters := ∅ |}.

Definition sample_runs : list extractor.Run :=
  [extractor.RunExtractor scanned; extractor.RunNone].

(** A stand-in for the constructor call [timedelta(seconds=f)], which keeps
    the whole microseconds.  The sample groups hold no duration, so their
    footers never call it. *)
Definition whole_microseconds (f : float) : result Value :=
  match int_of_float (PrimFloat.mul f (float_of_Z 1000000)) with
  | Ok (VInt us) | Ok (VLong us) =>
      if extractor.timedelta_in_range us then Ok (VTimedelta us)
      else Raise OverflowError
  | Ok _ => Raise TypeError
  | Raise e => Raise e
  end.

(** Two groups of two runs each, for the metric [x]. *)
Definition two_groups : list (gmap string Value) :=
  [ {[ "x" := VList [VInt 2; VInt 4] ]};
    {[ "x" := VList [VInt 4; VInt 12] ]} ].



(** A group whose metric [x] is missing in the reference run, after the
    delta annotation. *)
Definition missing_reference : list (gmap string Value) :=
  [ {[ "x" := VList [VNone; VBox (VInt 5) None] ]} ].

(** One group of two runs, named "A", with the times 10 and 12, after the
    delta annotation; and the formatter input built on it, with the footer
    groups [max] and [avg] of that single group. *)
Definition sample_group : gmap string Value :=
  {[ "name" := VStr "A";
     "time" := VList [VInt 10; VBox (VInt 12) (Some 0.2%float)] ]}.

Definition sample_input : output_module.TableFormatterBase :=
  {| output_module.table := [sample_group];
     output_module.footer :=
       [ {[ "name" := VStr "A";
            "time" := VList [VInt 10;
                             VBox (VBox (VInt 12) (Some 0.2%float)) None] ]};
         {[ "name" := VNone;
            "time" := VList [VInt 10; VBox (VInt 12) (Some 0.2%float)] ]} ];
     output_module.footer_names := ["max"; "avg"];
     output_module._all_keys := ∅;
     output_module._col_has_delta := ∅;
     output_module._num_of_runs_in_group := [];
     output_module._num_of_runs_in_cell := [] |}.

Definition sample_html : output_module.HTMLSheetFormatter :=
  {| output_module.filtered :=
       {| output_module.base := output_module._get_extra_info sample_input;
          output_module.column_descriptors := ∅;
          output_module.preferred_order := [];
          output_module.default_column_descriptor :=
            output_module.HTMLSheetFormatter_default_column_descriptor |};
     output_module._stand_out_class_cache := ∅;
     output_module._indent := 0;
     output_module.run_names := [];
     output_module.title := "HTMLSheetFormatter" |}.

(** Stand-ins for [str] and [quick_html_escape] on the sample values:
    strings as they are, no character being escaped. *)
Definition text_of (v : Value) : string :=
  match v with
  | VStr s | VUnicode s => s
  | _ => "?"
  end.

End examples.

(** ** extractor.py: scanning a file, and the processing pipeline *)

Module stats_extractor.

Section Scan.

(** [extract k] is the [extract_value_from_line] hook of the extractor
    registered under the key [k]; [add] is the addition behind [+=]. *)
Variable extract : string -> string -> result Value.
Variable add : Value -> Value -> result Value.




End Scan.

(** [quick_process_multiple_runs], from the list [scan_multiple_runs]
    returns. *)
Definition quick_process_multiple_runs (group_by_key : option string)
    (runs : list extractor.Run) : result (gmap string Value) :=
  let* grouped := (extractor.group_multiple_runs group_by_key runs).2 in
  let* groups := extractor.add_deltas_to_grouped_runs [grouped] in
  list_index groups 0.

End stats_extractor.

(** ** output_module.py: the header of the base class *)

Module table_formatter.

(** [TableFormatterBase.recompute_header]: [sorted(list(all_keys))], byte
    strings being ordered character by character. *)
Definition recompute_header (all_keys : gset string) : list string :=
  merge_sort String.le (elements all_keys).

(** [TableFormatterBase.run] with the methods of the base class itself. *)
Definition run (self : output_module.TableFormatterBase)
  : result (list output_module.Event) :=
  output_module.run self (output_module.base_column_has_delta self)
    (recompute_header (output_module._all_keys self)).

End table_formatter.

(** ** output_module.py: the run of a table with the hooks of a visitor *)

Module visitor.

Definition newline : string := String (ascii_of_nat 10) EmptyString.

(** [append(val)]: a hook that returns [None] adds nothing to the output,
    any other result is added followed by a line break. *)
Definition append (output : string) (val : option string) : string :=
  match val with
  | None => output
  | Some v => (output ++ v ++ newline)%string
  end.

Section Run.

(** The visitor object, with the methods [TableFormatterBase.run] calls on
    it: the hooks, [column_has_delta], and the header it computed. *)
Variable S : Type.
Variable hook :
  output_module.Hook -> S -> output_module.Location
  -> result (option string * S).
Variable self : output_module.TableFormatterBase.
Variable column_has_delta_method : option string -> result bool.
Variable header : list string.

(** The state of a run: the shared [Location], the visitor and
    [self._output]. *)
Definition Visit : Type := output_module.Location * S * string.

(** [append(self.<hook>(loc.update(...)))]. *)
Definition visit (h : output_module.Hook)
    (update : output_module.Location -> output_module.Location) (w : Visit)
  : result Visit :=
  let loc := update w.1.1 in
  let* r := hook h w.1.2 loc in
  Ok (loc, r.2, append w.2 r.1).

Definition visit_cell (w : Visit) : result Visit :=
  let* w := visit output_module.BeginValue
              (output_module.update_loc_in_cell
                 (Some output_module.LOC_IN_CELL_VALUE)) w in
  let* w := visit output_module.ProcessValue id w in
  let* w := visit output_module.EndValue id w in
  let* w := visit output_module.BeginDelta
              (output_module.update_loc_in_cell
                 (Some output_module.LOC_IN_CELL_DELTA)) w in
  let* w := visit output_module.ProcessDelta id w in
  let* w := visit output_module.EndDelta id w in
  visit output_module.EndCol (output_module.update_loc_in_cell None) w.

Definition visit_header_col (w : result Visit) (c : nat * string)
  : result Visit :=
  let* w := w in
  let* has := column_has_delta_method (Some c.2) in
  let* w := visit output_module.BeginCol
              (output_module.update_header_col (VStr c.2) (Z.of_nat c.1)
                 (Some has) (Some c.2)) w in
  visit_cell w.

Definition visit_col (groups : list (gmap string Value))
    (n_group n_run : nat) (w : result Visit) (c : nat * string)
  : result Visit :=
  let* w := w in
  let* content := output_module.cell_content self groups n_group n_run c.2 in
  let* has := column_has_delta_method (Some c.2) in
  let* w := visit output_module.BeginCol
              (output_module.update_col content.1.1 content.1.2 content.2
                 (Some has) (Z.of_nat c.1) (Some c.2)) w in
  visit_cell w.

Definition visit_row (groups : list (gmap string Value)) (n_group : nat)
    (w : result Visit) (n_run : nat) : result Visit :=
  let* w := w in
  let* w := visit output_module.BeginRow
              (output_module.update_n_run (Z.of_nat n_run)) w in
  let* w := foldl (visit_col groups n_group n_run) (Ok w)
              (output_module.columns header) in
  visit output_module.EndRow
    (output_module.update_col VNone None (-1) None (-1) None) w.

Definition visit_group (groups : list (gmap string Value))
    (group_offset : nat) (w : result Visit) (n_group : nat) : result Visit :=
  let* w := w in
  let* runs_in_group :=
    match output_module._num_of_runs_in_group self
            !! (n_group + group_offset)%nat with
    | Some n => Ok n
    | None => Raise IndexError
    end in
  let* w := visit output_module.BeginGroup
              (output_module.update_group (Z.of_nat n_group) runs_in_group)
              w in
  let* w := foldl (visit_row groups n_group) (Ok w)
              (seq 0 (Z.to_nat runs_in_group)) in
  visit output_module.EndGroup (output_module.update_n_run (-1)) w.

Definition process_groups (groups : list (gmap string Value))
    (group_offset : nat) (w : Visit) : result Visit :=
  foldl (visit_group groups group_offset) (Ok w) (seq 0 (length groups)).

(** [TableFormatterBase.run], from the visitor [st]: the state the run
    ends in, its third component being the text returned. *)
Definition run (st : S) : result Visit :=
  let w := (output_module.new_location, st, EmptyString) in
  let* w := visit output_module.BeginTable id w in
  let* w := visit output_module.BeginHeader
              (output_module.update_loc_in_table
                 (Some output_module.LOC_IN_TABLE_HDR)) w in
  let* w := visit output_module.BeginRow id w in
  let* w := foldl visit_header_col (Ok w) (output_module.columns header) in
  let* w := visit output_module.EndRow
              (output_module.update_header_col VNone (-1) None None) w in
  let* w := visit output_module.EndHeader id w in
  let* w := visit output_module.BeginBody
              (output_module.update_loc_in_table
                 (Some output_module.LOC_IN_TABLE_BODY)) w in
  let* w := process_groups (output_module.table self) 0 w in
  let* w := visit output_module.EndBody
              (output_module.update_group (-1) (-1)) w in
  let* w := visit output_module.BeginFooter
              (output_module.update_loc_in_table
                 (Some output_module.LOC_IN_TABLE_FOOTER)) w in
  let* w := process_groups (output_module.footer self)
              (length (output_module.table self)) w in
  let* w := visit output_module.EndFooter
              (output_module.update_group (-1) (-1)) w in
  visit output_module.EndTable (output_module.update_loc_in_table None) w.

End Run.

End visitor.

(** ** output_module.py: the hooks of HTMLSheetFormatter *)

Module html.

Import output_module.

Section Hooks.

(** [quick_html_escape], the built-in [str], the format [{:+0.1%}] of a
    float, and the body of the [try] block of
    [get_delta_text_and_classes]: the text for the difference between the
    value of the cell and the base value, [None] when computing it
    raises. *)
Variable quick_html_escape : Value -> string.
Variable py_str : Value -> string.
Variable format_percent : float -> string.
Variable difference_text : Value -> Value -> option string.

(** [TagBuilder.create_tag]. *)
Definition create_tag (name : string) (classes : list string)
    (body : option Value) (extra_attribs : gmap string Value) : string :=
  let builder :=
    {| tag_name := name; attributes := extra_attribs; classes := classes;
       body := body |} in
  let '(opening, body, closing) := TagBuilder_run quick_html_escape builder in
  match body with
  | Some body => (opening ++ body ++ closing)%string
  | None => opening
  end.

Definition HookResult : Type := result (option string * HTMLSheetFormatter).

(** [self.increase_indent() + text] and [self.decrease_indent() + text]. *)
Definition opening_line (text : string) (self : HTMLSheetFormatter)
  : HookResult :=
  let '(ind, self) := increase_indent self in
  Ok (Some (ind ++ text)%string, self).

Definition closing_line (text : string) (self : HTMLSheetFormatter)
  : HookResult :=
  let '(ind, self) := decrease_indent self in
  Ok (Some (ind ++ text)%string, self).

Definition begin_table (self : HTMLSheetFormatter) (loc : Location)
  : HookResult :=
  opening_line ("<table class=" ++ quote
                ++ "table table-condensed table-striped" ++ quote ++ ">")
    self.

Definition end_table (self : HTMLSheetFormatter) (loc : Location)
  : HookResult :=
  closing_line "</table>" self.

Definition begin_header (self : HTMLSheetFormatter) (loc : Location)
  : HookResult :=
  opening_line "<thead>" self.

Definition end_header (self : HTMLSheetFormatter) (loc : Location)
  : HookResult :=
  closing_line "</thead>" self.

Definition begin_footer (self : HTMLSheetFormatter) (loc : Location)
  : HookResult :=
  opening_line "<tfoot>" self.

Definition end_footer (self : HTMLSheetFormatter) (loc : Location)
  : HookResult :=
  closing_line "</tfoot>" self.

Definition begin_group (self : HTMLSheetFormatter) (loc : Location)
  : HookResult :=
  if negb (in_table loc LOC_IN_TABLE_BODY) then Ok (None, self)
  else opening_line "<tbody>" self.

Definition end_group (self : HTMLSheetFormatter) (loc : Location)
  : HookResult :=
  if negb (in_table loc LOC_IN_TABLE_BODY) then Ok (None, self)
  else closing_line "</tbody>" self.

Definition begin_row (self : HTMLSheetFormatter) (loc : Location)
  : HookResult :=
  if in_table loc LOC_IN_TABLE_FOOTER && (n_run loc =? 0) then
    opening_line ("<tr class=" ++ quote ++ "as-tbody" ++ quote ++ ">") self
  else opening_line "<tr>" self.

Definition end_row (self : HTMLSheetFormatter) (loc : Location)
  : HookResult :=
  closing_line "</tr>" self.

(** The two early returns the delta hooks share: the column shows no
    delta or the cell is a header cell; the cell is spanned by the one of
    the first row. *)
Definition delta_skipped (self : HTMLSheetFormatter) (loc : Location)
  : result bool :=
  let* has := column_has_delta (filtered self) (col_name loc) in
  if negb has || in_table loc LOC_IN_TABLE_HDR then Ok true
  else Ok (spans_group loc && (0 <? n_run loc)).

Definition begin_delta (self : HTMLSheetFormatter) (loc : Location)
  : HookResult :=
  let* skipped := delta_skipped self loc in
  if skipped then Ok (None, self)
  else
    let classes := ["delta"] in
    let '(classes, self) :=
      if truthy (get_column_attribute (filtered self) (col_name loc)
                   "stand_out" (AttrBool false)) then
        let classes := (classes ++ ["stand-out"])%list in
        let '(stand_out_class, self) :=
          _get_stand_out_class_from_cache self loc in
        match stand_out_class with
        | Some c =>
            if negb (String.eqb c "muted") then ((classes ++ [c])%list, self)
            else (classes, self)
        | None => (classes, self)
        end
      else (classes, self) in
    let '(ind, self) := increase_indent self in
    Ok (Some (ind ++ create_tag "td" classes None ∅)%string, self).

Definition end_delta (self : HTMLSheetFormatter) (loc : Location)
  : HookResult :=
  let* skipped := delta_skipped self loc in
  if skipped then Ok (None, self)
  else closing_line "</td>" self.

(** [math.isinf]. *)
Definition isinf (f : float) : bool :=
  match Prim2SF f with
  | S754_infinity _ => true
  | _ => false
  end.

(** The base value [self.table[loc.n_group][loc.col_name][0]], [None] when
    one of the three subscripts raises. *)
Definition base_value (self : HTMLSheetFormatter) (loc : Location)
  : option Value :=
  match list_index (table (base (filtered self))) (n_group loc) with
  | Ok group =>
      match col_name loc ≫= (λ k, group !! k) with
      | Some entry =>
          match py_getitem entry 0 with
          | Ok v => Some v
          | Raise _ => None
          end
      | None => None
      end
  | Raise _ => None
  end.

Definition get_delta_text_and_classes (self : HTMLSheetFormatter)
    (loc : Location)
  : result (option string * option (list string) * HTMLSheetFormatter) :=
  let as_string :=
    match delta loc with
    | None => Some "n/a"
    | Some d =>
        if negb (PrimFloat.eqb d d) then None
        else if isinf d then
          match base_value self loc ≫= difference_text (value loc) with
          | Some text => Some text
          | None => Some (if PrimFloat.leb 0%float d then "+INF" else "-INF")
          end
        else Some (format_percent d)
    end in
  let '(stand_out_class, self) := _get_stand_out_class_from_cache self loc in
  match stand_out_class with
  | None => Ok (as_string, None, self)
  | Some _ =>
      let '(again, self) := _get_stand_out_class_from_cache self loc in
      match again with
      | Some c => Ok (as_string, Some ["text-" ++ c]%string, self)
      | None => Raise TypeError
      end
  end.

Definition process_delta (self : HTMLSheetFormatter) (loc : Location)
  : HookResult :=
  let* skipped := delta_skipped self loc in
  if skipped then Ok (None, self)
  else if n_run loc =? 0 then Ok (None, self)
  else
    let* text := get_delta_text_and_classes self loc in
    let '(body, classes, self) := text in
    match body with
    | None => Ok (None, self)
    | Some body =>
        let builder :=
          {| tag_name := "small"; attributes := ∅;
             classes := default [] classes; body := Some (VStr body) |} in
        let '(opening, body, closing) :=
          TagBuilder_run quick_html_escape builder in
        match body with
        | Some body =>
            Ok (Some (indent self ++ opening ++ body ++ closing)%string, self)
        | None => Raise TypeError
        end
    end.

(** The hooks of the class, those it does not override being the empty
    ones of [TableFormatterBase]. *)
Definition hook (h : Hook) (self : HTMLSheetFormatter) (loc : Location)
  : HookResult :=
  match h with
  | BeginTable => begin_table self loc
  | EndTable => end_table self loc
  | BeginHeader => begin_header self loc
  | EndHeader => end_header self loc
  | BeginFooter => begin_footer self loc
  | EndFooter => end_footer self loc
  | BeginGroup => begin_group self loc
  | EndGroup => end_group self loc
  | BeginRow => begin_row self loc
  | EndRow => end_row self loc
  | BeginValue => begin_value quick_html_escape self loc
  | ProcessValue => process_value quick_html_escape py_str self loc
  | EndValue => end_value self loc
  | BeginDelta => begin_delta self loc
  | ProcessDelta => process_delta self loc
  | EndDelta => end_delta self loc
  | BeginBody | EndBody | BeginCol | EndCol => Ok (None, self)
  end.

(** [super(HTMLSheetFormatter, self).run()]: the state the run of the table
    ends in. *)
Definition run_table (self : HTMLSheetFormatter)
  : result (visitor.Visit HTMLSheetFormatter) :=
  visitor.run HTMLSheetFormatter hook (base (filtered self))
    (column_has_delta (filtered self))
    (recompute_header (filtered self) (_all_keys (base (filtered self))))
    self.

(** The branch of [run] taken when there are run names: the list of the
    names, and the formatter with its indentation back to 0. *)
Definition runs_output (self : HTMLSheetFormatter)
  : string * HTMLSheetFormatter :=
  let self := set_indent 1 self in
  let '(ind, self) := increase_indent self in
  let output := visitor.append EmptyString (Some (ind ++ "<ol>")%string) in
  let output :=
    foldl (λ output name,
             visitor.append output
               (Some (indent self ++ "<li>" ++ quick_html_escape (VStr name)
                      ++ "</li>")%string))
      output (run_names self) in
  let '(ind, self) := decrease_indent self in
  let output := visitor.append output (Some (ind ++ "</ol>")%string) in
  (output, set_indent 0 self).

(** [HTMLSheetFormatter.run]: the three values handed to the template,
    under [run_names], [title] and [table].  The attribute [_runs_output]
    exists on the object only once a run with run names has set it. *)
Definition run (self : HTMLSheetFormatter) (_runs_output : option string)
  : result (string * string * string) :=
  let '(_runs_output, self) :=
    if (0 <? length (run_names self))%nat then
      let '(output, self) := runs_output self in (Some output, self)
    else (_runs_output, self) in
  let* names := match _runs_output with
                | Some output => Ok output
                | None => Raise AttributeError
                end in
  let title := quick_html_escape (VStr (title self)) in
  let* w := run_table self in
  Ok (names, title, w.2).

End Hooks.

End html.

(** ** output_module.py: SimpleConsoleFormatter *)

Module console.

Definition escape : string := String (ascii_of_nat 27) EmptyString.
Definition HEADER : string := escape ++ "[95m".
Definition OKBLUE : string := escape ++ "[94m".
Definition OKGREEN : string := escape ++ "[92m".
Definition WARNING : string := escape ++ "[93m".
Definition FAIL : string := escape ++ "[91m".
Definition ENDC : string := escape ++ "[0m".

(** [len(s)]. *)
Definition len (s : string) : Z := Z.of_nat (String.length s).

(** [' ' * n]: empty when [n] is not positive. *)
Definition blanks (n : Z) : string :=
  String.concat EmptyString (replicate (Z.to_nat n) " ").

(** [max(values)] on a list: [ValueError] on the empty list. *)
Definition py_max (values : list Z) : result Z :=
  match values with
  | [] => Raise ValueError
  | x :: rest => Ok (foldl Z.max x rest)
  end.

(** A replacement field of a format string: [{}] or [{:>w}]. *)
Inductive Field : Type :=
| Plain
| RightAligned (width : Z).

(** The value of [_output_line_format]: a text without replacement fields,
    or replacement fields separated by single blanks. *)
Inductive LineFormat : Type :=
| FormatText (text : string)
| FormatFields (fields : list Field).

Definition format_field (f : Field) (arg : string) : string :=
  match f with
  | Plain => arg
  | RightAligned width => (blanks (width - len arg) ++ arg)%string
  end.

(** [fmt.format] applied to the strings [args]: [IndexError] when there
    are fewer arguments than replacement fields, arguments in excess being
    ignored. *)
Definition format (fmt : LineFormat) (args : list string) : result string :=
  match fmt with
  | FormatText text => Ok text
  | FormatFields fields =>
      if (length args <? length fields)%nat then Raise IndexError
      else Ok (String.concat " " (zip_with format_field fields args))
  end.

Record SimpleConsoleFormatter : Type := mkConsole {
  runs_group : gmap string Value;
  key_colw : Z;
  value_colw : Z;
  delta_colw : Z;
  _num_of_runs : Z;
  _output_line_format : LineFormat;
  _formatted_header : list string;
  _formatted_output : option (list (list string))
}.

(** The lengths of the entries that are lists, in the order of the keys. *)
Definition list_lengths (runs_group : gmap string Value) : list Z :=
  omap (λ kv : string * Value,
          match kv.2 with
          | VList l => Some (Z.of_nat (length l))
          | _ => None
          end) (map_to_list runs_group).

(** [SimpleConsoleFormatter.__init__]. *)
Definition new_console (runs_group : gmap string Value)
  : result SimpleConsoleFormatter :=
  let* n := py_max (list_lengths runs_group) in
  Ok {| runs_group := runs_group;
        key_colw := 4; value_colw := 6; delta_colw := 8;
        _num_of_runs := n;
        _output_line_format :=
          FormatText "<call _create_header_and_output_format>";
        _formatted_header := ["<call _create_header_and_output_format>"];
        _formatted_output := None |}.

Definition compute_key_len (self : SimpleConsoleFormatter) : Z :=
  foldl (λ w (kv : string * Value), Z.max w (len kv.1)) (key_colw self)
    (map_to_list (runs_group self)).

Section Console.

(** The built-in [str] and the format [{:+0.1%}] of a float. *)
Variable py_str : Value -> string.
Variable format_percent : float -> string.

(** [new_max] for one entry. *)
Definition value_len (v : Value) : result Z :=
  match v with
  | VList l => py_max ((λ obj, len (py_str (val_of obj))) <$> l)
  | _ => Ok (len (py_str (val_of v)))
  end.

Definition compute_value_len (self : SimpleConsoleFormatter) : result Z :=
  foldl (λ acc (kv : string * Value),
           let* w := acc in
           let* new_max := value_len kv.2 in
           Ok (if w <? new_max then new_max else w))
    (Ok (value_colw self)) (map_to_list (runs_group self)).

(** [output_header(h, w, l_or_r)], the last argument telling whether the
    text is aligned to the right. *)
Definition output_header (h : string) (w : Z) (to_right : bool) : string :=
  let padding := blanks (w - len h) in
  if to_right then (padding ++ HEADER ++ h ++ ENDC)%string
  else (HEADER ++ h ++ ENDC ++ padding)%string.

(** The run numbers [xrange(1, n)]. *)
Definition later_runs (n : Z) : list Z :=
  (λ i, Z.of_nat i) <$> seq 1 (Z.to_nat n - 1).

(** [_create_header_and_output_format]: the line format and the header. *)
Definition _create_header_and_output_format (self : SimpleConsoleFormatter)
  : LineFormat * list string :=
  let n := _num_of_runs self in
  (FormatFields
     ([Plain; RightAligned (value_colw self)]
      ++ mjoin ((λ _, [RightAligned (value_colw self); Plain])
                  <$> later_runs n))%list,
   ([output_header "NAME" (key_colw self) false;
     output_header (if n =? 1 then "VALUE" else "VALUE0") (value_colw self)
       true]
    ++ mjoin ((λ i, [output_header ("VALUE" ++ pretty i) (value_colw self)
                       true;
                     output_header ("DELTA" ++ pretty i) (delta_colw self)
                       true]) <$> later_runs n))%list).

Definition output_percent (self : SimpleConsoleFormatter) (obj : Value)
  : string :=
  match obj with
  | VBox _ (Some f) =>
      if negb (PrimFloat.eqb f f) then
        (blanks (delta_colw self - 3) ++ "n/a")%string
      else if PrimFloat.eqb f 0%float then
        (blanks (delta_colw self - 1) ++ "=")%string
      else
        let as_string := format_percent f in
        let padding := blanks (delta_colw self - len as_string) in
        if PrimFloat.ltb 0.05%float f then
          (padding ++ FAIL ++ as_string ++ ENDC)%string
        else if PrimFloat.ltb 0%float f then
          (padding ++ WARNING ++ as_string ++ ENDC)%string
        else (padding ++ OKGREEN ++ as_string ++ ENDC)%string
  | _ => blanks (delta_colw self)
  end.

(** The line [_generate_formatted_output] builds for one key. *)
Definition output_line (self : SimpleConsoleFormatter) (kv : string * Value)
  : result (list string) :=
  let name :=
    (OKBLUE ++ kv.1 ++ ENDC ++ blanks (key_colw self - len kv.1))%string in
  match kv.2 with
  | VList l =>
      match l with
      | [] => Raise IndexError
      | first :: rest =>
          Ok (name :: py_str (val_of first)
                :: mjoin ((λ val, [py_str (val_of val);
                                   output_percent self val]) <$> rest))
      end
  | v => Ok [name; py_str (val_of v)]
  end.

Definition _generate_formatted_output (self : SimpleConsoleFormatter)
  : result (list (list string)) :=
  collect (output_line self <$> map_to_list (runs_group self)).

(** The first part of [run]: the four computations made when
    [_formatted_output] is still [None]. *)
Definition prepare (self : SimpleConsoleFormatter)
  : result SimpleConsoleFormatter :=
  match _formatted_output self with
  | Some _ => Ok self
  | None =>
      let self := mkConsole (runs_group self) (compute_key_len self)
                    (value_colw self) (delta_colw self) (_num_of_runs self)
                    (_output_line_format self) (_formatted_header self)
                    (_formatted_output self) in
      let* w := compute_value_len self in
      let self := mkConsole (runs_group self) (key_colw self) w
                    (delta_colw self) (_num_of_runs self)
                    (_output_line_format self) (_formatted_header self)
                    (_formatted_output self) in
      let '(fmt, header) := _create_header_and_output_format self in
      let self := mkConsole (runs_group self) (key_colw self)
                    (value_colw self) (delta_colw self) (_num_of_runs self)
                    fmt header (_formatted_output self) in
      let* lines := _generate_formatted_output self in
      Ok (mkConsole (runs_group self) (key_colw self) (value_colw self)
            (delta_colw self) (_num_of_runs self)
            (_output_line_format self) (_formatted_header self)
            (Some lines))
  end.

(** The loop of [print] calls: the lines printed so far and whether a
    [format] call has raised. *)
Definition print_line (fmt : LineFormat)
    (st : list string * result unit) (line : list string)
  : list string * result unit :=
  match st.2 with
  | Raise e => st
  | Ok _ =>
      match format fmt line with
      | Ok text => ((st.1 ++ [text])%list, Ok tt)
      | Raise e => (st.1, Raise e)
      end
  end.

(** [SimpleConsoleFormatter.run]: the lines printed, and the formatter as
    the call leaves it or the exception raised. *)
Definition run (self : SimpleConsoleFormatter)
  : list string * result SimpleConsoleFormatter :=
  match prepare self with
  | Raise e => ([], Raise e)
  | Ok self =>
      let printed :=
        foldl (print_line (_output_line_format self))
          ([String.concat " " (_formatted_header self)], Ok tt)
          (default [] (_formatted_output self)) in
      (printed.1, match printed.2 with
                  | Ok _ => Ok self
                  | Raise e => Raise e
                  end)
  end.

End Console.

End console.

(** ** formatters.py *)

Module formatters.

Section Formatters.

(** The built-in [str] of a float, the parser [float(str)] ([None] stands
    for its [ValueError]) and the format [%0.1f] of a float. *)
Variable py_str : Value -> string.
Variable parse_float : string -> option float.
Variable format_1f : float -> string.

(** ['%0.1f GB' % (f / 1000000000.0)]. *)
Definition gigabytes (f : float) : Value :=
  VStr (format_1f (PrimFloat.div f 1000000000%float) ++ " GB").

(** [str(q)] for the result of [int(...)]. *)
Definition str_of_int (q : Value) : string :=
  match q with
  | VInt z | VLong z => pretty z
  | _ => py_str q
  end.

(** [memory_formatter(mem)].  An integer is compared and divided as an
    integer; a float is compared with the bounds and divided as a float; a
    string compares greater than every number; a duration cannot be
    compared with a number, and a list, a tuple or a [withdelta] cannot be
    turned into a float. *)
Definition memory_formatter (mem : Value) : result Value :=
  match mem with
  | VNone => Ok VNone
  | VInt z | VLong z =>
      if z <? 1000 then Ok (VStr (pretty z))
      else if z <? 1000000 then Ok (VStr (pretty (z / 1000) ++ " KB"))
      else if z <? 1000000000 then Ok (VStr (pretty (z / 1000000) ++ " MB"))
      else
        match Prim2SF (float_of_Z z) with
        | S754_infinity _ => Raise OverflowError
        | _ => Ok (gigabytes (float_of_Z z))
        end
  | VFloat f =>
      if PrimFloat.ltb f 1000%float then Ok (VStr (py_str mem))
      else if PrimFloat.ltb f 1000000%float then
        let* q := int_of_float (PrimFloat.div f 1000%float) in
        Ok (VStr (str_of_int q ++ " KB"))
      else if PrimFloat.ltb f 1000000000%float then
        let* q := int_of_float (PrimFloat.div f 1000000%float) in
        Ok (VStr (str_of_int q ++ " MB"))
      else Ok (gigabytes f)
  | VStr s | VUnicode s =>
      match parse_float s with
      | Some f => Ok (gigabytes f)
      | None => Raise ValueError
      end
  | VTimedelta _ | VList _ | VTuple _ | VBox _ _ => Raise TypeError
  end.

End Formatters.

End formatters.

(** ** Further notions and sample data *)

Module notions.

(** The keys a run contributes to the grouping: those of the dictionary the
    first loop of [group_multiple_runs] puts in its place. *)
Definition run_keys (run : extractor.Run) : gset string :=
  match spec.project run with
  | extractor.RunDict d => dom d
  | _ => ∅
  end.

(** Every key present in any run. *)
Definition all_keys (runs : list extractor.Run) : gset string :=
  ⋃ (run_keys <$> runs).

(** The per-run list of a key: one slot per run, in the order of the runs,
    null where the run lacks the key. *)
Definition slots (runs : list extractor.Run) (k : string) : list Value :=
  (λ run, default VNone (extractor.run_lookup (spec.project run) k)) <$> runs.

(** The values the runs that have the key [k] hold for it. *)
Definition present_values (runs : list extractor.Run) (k : string)
  : list Value :=
  omap (λ run, extractor.run_lookup (spec.project run) k) runs.

(** A string without a colon. *)
Fixpoint no_colon (s : string) : bool :=
  match s with
  | EmptyString => true
  | String c rest => negb (Ascii.eqb c ":"%char) && no_colon rest
  end.

(** A column whose own descriptor switches it off. *)
Definition excluded (self : output_module.TableFilteredBase) (col : string)
  : bool :=
  match output_module.column_descriptors self !! col with
  | Some descriptor =>
      output_module.truthy
        (default (output_module.AttrBool false) (descriptor !! "toggle_off"))
  | None => false
  end.

(** The hooks of the walk, as the call stack in the documentation of
    [TableFormatterBase] lists them: those of a row of [ncols] columns, of
    a group of [R] rows, and of the whole table, for the numbers of rows of
    the body groups and of the footer groups. *)
Definition row_hooks (ncols : nat) : list output_module.Hook :=
  output_module.BeginRow
    :: (mjoin (replicate ncols spec.cell_hooks) ++ [output_module.EndRow])%list.

Definition group_hooks (ncols : nat) (R : Z) : list output_module.Hook :=
  output_module.BeginGroup
    :: (mjoin (replicate (Z.to_nat R) (row_hooks ncols))
        ++ [output_module.EndGroup])%list.

Definition walk_hooks (ncols : nat) (body footer : list Z)
  : list output_module.Hook :=
  ([output_module.BeginTable; output_module.BeginHeader]
   ++ row_hooks ncols
   ++ [output_module.EndHeader; output_module.BeginBody]
   ++ mjoin (group_hooks ncols <$> body)
   ++ [output_module.EndBody; output_module.BeginFooter]
   ++ mjoin (group_hooks ncols <$> footer)
   ++ [output_module.EndFooter; output_module.EndTable])%list.

(** A table of two groups with different keys, with the footer groups
    [max] and [avg] computed from them. *)
Definition uneven_table : output_module.TableFormatterBase :=
  {| output_module.table :=
       [ {[ "a" := VList [VInt 1; VInt 2] ]};
         {[ "b" := VList [VInt 3; VInt 4] ]} ];
     output_module.footer :=
       [ {[ "a" := VList [VInt 1; VInt 2]; "b" := VList [VInt 3; VInt 4] ]};
         {[ "a" := VList [VInt 0; VInt 1]; "b" := VList [VInt 1; VInt 2] ]} ];
     output_module.footer_names := ["max"; "avg"];
     output_module._all_keys := ∅;
     output_module._col_has_delta := ∅;
     output_module._num_of_runs_in_group := [];
     output_module._num_of_runs_in_cell := [] |}.

(** Whether the delta hooks render the delta cell at a location. *)
Definition delta_shown (f : output_module.TableFilteredBase)
    (loc : output_module.Location) : bool :=
  match output_module.column_has_delta f (output_module.col_name loc) with
  | Ok has =>
      has
      && negb (output_module.in_table loc output_module.LOC_IN_TABLE_HDR)
      && negb (output_module.spans_group loc
               && (0 <? output_module.n_run loc))
  | Raise _ => false
  end.

(** By how much a hook of the HTML visitor that returns changes the
    indentation level. *)
Definition indent_change (f : output_module.TableFilteredBase)
    (h : output_module.Hook) (loc : output_module.Location) : Z :=
  match h with
  | output_module.BeginTable | output_module.BeginHeader
  | output_module.BeginFooter | output_module.BeginRow => 1
  | output_module.EndTable | output_module.EndHeader
  | output_module.EndFooter | output_module.EndRow => -1
  | output_module.BeginGroup =>
      if output_module.in_table loc output_module.LOC_IN_TABLE_BODY
      then 1 else 0
  | output_module.EndGroup =>
      if output_module.in_table loc output_module.LOC_IN_TABLE_BODY
      then -1 else 0
  | output_module.BeginValue =>
      if output_module.spans_group loc
         && negb (output_module.n_run loc =? 0) then 0 else 1
  | output_module.EndValue =>
      if output_module.spans_group loc && (0 <? output_module.n_run loc)
      then 0 else -1
  | output_module.BeginDelta => if delta_shown f loc then 1 else 0
  | output_module.EndDelta => if delta_shown f loc then -1 else 0
  | _ => 0
  end.

(** The state of a run of the HTML visitor whose column descriptors and
    data are those of [f] and whose indentation level is [n]. *)
Definition at_level (f : output_module.TableFilteredBase) (n : Z)
    (w : output_module.Location * output_module.HTMLSheetFormatter * string)
  : Prop :=
  output_module.filtered w.1.2 = f /\ output_module._indent w.1.2 = n.

(** An entry the line format of the console formatter has enough fields
    for, [n] being the number of runs: a list of [n] values, or anything
    that is not a list when there is a single run. *)
Definition fits_format (n : Z) (v : Value) : Prop :=
  match v with
  | VList l => Z.of_nat (length l) = n
  | _ => n = 1
  end.

(** The unit [memory_formatter] shows a byte count in, below a gigabyte. *)
Definition unit_of (z : Z) : Z :=
  if z <? 1000 then 1 else if z <? 1000000 then 1000 else 1000000.

(** The numbers [memory_formatter] writes before a unit. *)
Definition small_counts : list Z := (λ i, Z.of_nat i) <$> seq 0 1000.

(** The decimal writing of a small count is left alone by [lower] and does
    not end with a letter the memory converter reads as a suffix. *)
Definition digits_only (q : Z) : bool :=
  String.eqb (lower (pretty q)) (pretty q)
  && match last_char (pretty q) with
     | Ok c => negb (Ascii.eqb c "b"%char || Ascii.eqb c "k"%char
                     || Ascii.eqb c "m"%char || Ascii.eqb c "g"%char)
     | Raise _ => false
     end.

(** The product of a small count with a factor of the memory converter is
    computed exactly. *)
Definition scaled_exactly (q : Z) : bool :=
  forallb (λ factor : float * Z,
             match int_of_float (PrimFloat.mul (float_of_Z q) factor.1) with
             | Ok (VInt r) => r =? q * factor.2
             | _ => false
             end)
    [(1%float, 1); (1000%float, 1000); (1000000%float, 1000000)].

(** The number a string of decimal digits writes, the string possibly
    ending with one blank. *)
Fixpoint digits_value (s : string) (acc : Z) : option Z :=
  match s with
  | EmptyString => Some acc
  | String c rest =>
      let n := nat_of_ascii c in
      if ((48 <=? n) && (n <=? 57))%nat then
        digits_value rest (10 * acc + Z.of_nat (n - 48))
      else if Ascii.eqb c " "%char && String.eqb rest EmptyString then Some acc
      else None
  end.

(** A stand-in for [float(str)] on the strings [memory_formatter] writes
    before a unit: the decimal writing of a count, possibly followed by a
    blank. *)
Definition parse_small_count (s : string) : option float :=
  float_of_Z <$> digits_value s 0.

Definition parses_itself (q : Z) : bool :=
  match digits_value (pretty q) 0, digits_value (pretty q ++ " ") 0 with
  | Some a, Some b => (a =? q) && (b =? q)
  | _, _ => false
  end.


(** Two runs of the group "A", with their times. *)
Definition keyed_runs : list extractor.Run :=
  [ extractor.RunDict {[ "g" := VStr "A"; "t" := VInt 1 ]};
    extractor.RunDict {[ "g" := VStr "A"; "t" := VInt 2 ]} ].


(** A stand-in for the [timedelta] constructor that keeps its four
    arguments apart. *)
Definition timedelta_fields (d h m s : float) : result Value :=
  Ok (VTuple [VFloat d; VFloat h; VFloat m; VFloat s]).

End notions.

(** ** Properties *)

Import extractor.
Local Open Scope list_scope.

(** *** Pairwise deltas *)

Lemma type_is_eq (a b : PyType) : type_is a b = true <-> a = b.
Proof. destruct a, b; simpl; split; intros H; congruence. Qed.

Lemma float_abs_eqb_zero (f : float) :
  PrimFloat.eqb (PrimFloat.abs f) float_zero = PrimFloat.eqb f float_zero.
Proof.
  rewrite !FloatAxioms.eqb_spec, FloatAxioms.abs_spec.
  destruct (Prim2SF f) as [s|s| |s m e]; try destruct s; reflexivity.
Qed.

(** C5.  For operands that are both null, or both integers, both floats or
    both durations: two nulls give null; an invalid operand gives NaN; equal
    valid operands give 0.0; otherwise a zero [numeric(v1)] gives +Infinity
    when [numeric(v2) > 0] and -Infinity if not, and a non-zero one gives
    [(numeric(v2) - numeric(v1)) / numeric(v1)].  Operands of different
    types give null. *)
Theorem get_delta_percent_cases (v1 v2 : Value) :
  (v1 = VNone -> v2 = VNone -> get_delta_percent v1 v2 = None)
  /\ (type_of v1 <> type_of v2 -> get_delta_percent v1 v2 = None)
  /\ (spec.same_numeric_type v1 v2 = true ->
      (spec.invalid_operand v1 || spec.invalid_operand v2 = true ->
       get_delta_percent v1 v2 = Some float_nan)
      /\ (spec.invalid_operand v1 = false ->
          spec.invalid_operand v2 = false ->
          (same_type_eq v1 v2 = true ->
           get_delta_percent v1 v2 = Some float_zero)
          /\ (v1 = v2 -> get_delta_percent v1 v2 = Some float_zero)
          /\ (same_type_eq v1 v2 = false ->
              PrimFloat.eqb (spec.numeric v1) float_zero = true ->
              get_delta_percent v1 v2 =
                Some (if PrimFloat.ltb float_zero (spec.numeric v2)
                      then float_inf else float_neg_inf))
          /\ (same_type_eq v1 v2 = false ->
              PrimFloat.eqb (spec.numeric v1) float_zero = false ->
              get_delta_percent v1 v2 =
                Some (PrimFloat.div
                        (PrimFloat.sub (spec.numeric v2) (spec.numeric v1))
                        (spec.numeric v1))))).
Proof.
  split; [| split].
  - intros -> ->. reflexivity.
  - intros Hne. unfold get_delta_percent.
    destruct (type_is (type_of v1) (type_of v2)) eqn:Ht.
    + apply type_is_eq in Ht. contradiction.
    + destruct (is_none v1 && is_none v2); reflexivity.
  - intros Hsame.
    destruct v1, v2; try discriminate Hsame; clear Hsame;
      unfold get_delta_percent; cbn [is_none andb type_of type_is negb
        is_valid to_float spec.invalid_operand spec.numeric same_type_eq].
    + (* integers *)
      rewrite float_abs_eqb_zero.
      rewrite !Z.ltb_antisym.
      split.
      * intros H. destruct (0 <=? z), (0 <=? z0); simpl in *;
          try discriminate; reflexivity.
      * intros H1 H2. apply negb_false_iff in H1, H2. rewrite H1, H2. simpl.
        repeat split.
        -- intros ->. reflexivity.
        -- intros [= ->]. rewrite Z.eqb_refl. reflexivity.
        -- intros -> ->. reflexivity.
        -- intros -> ->. reflexivity.
    + (* floats *)
      rewrite float_abs_eqb_zero.
      split.
      * intros H. destruct (PrimFloat.eqb f f), (PrimFloat.eqb f0 f0);
          simpl in *; try discriminate; reflexivity.
      * intros H1 H2. apply negb_false_iff in H1, H2. rewrite H1, H2. simpl.
        repeat split.
        -- intros ->. reflexivity.
        -- intros [= ->]. rewrite H2. reflexivity.
        -- intros -> ->. reflexivity.
        -- intros -> ->. reflexivity.
    + (* durations *)
      rewrite float_abs_eqb_zero.
      split.
      * intros H.
        destruct (PrimFloat.leb float_zero (total_seconds us)),
                 (PrimFloat.leb float_zero (total_seconds us0));
          simpl in *; try discriminate; reflexivity.
      * intros H1 H2. apply negb_false_iff in H1, H2. rewrite H1, H2. simpl.
        repeat split.
        -- intros ->. reflexivity.
        -- intros [= ->]. rewrite Z.eqb_refl. reflexivity.
        -- intros -> ->. reflexivity.
        -- intros -> ->. reflexivity.
Qed.

Lemma get_delta_percent_cases_witness :
  spec.same_numeric_type (VInt 10) (VInt 12) = true
  /\ spec.invalid_operand (VInt 10) = false
  /\ spec.invalid_operand (VInt 12) = false
  /\ same_type_eq (VInt 10) (VInt 12) = false
  /\ PrimFloat.eqb (spec.numeric (VInt 10)) float_zero = false
  /\ get_delta_percent (VInt 10) (VInt 12) = Some 0.2%float.
Proof.
  repeat (split; [reflexivity |]).
  destruct (get_delta_percent_cases (VInt 10) (VInt 12)) as (_ & _ & H).
  destruct (H eq_refl) as [_ H2].
  destruct (H2 eq_refl eq_refl) as (_ & _ & _ & H3).
  rewrite (H3 eq_refl eq_refl). vm_compute. reflexivity.
Defined.

(** C6 fails as stated: two different strings do not have delta 0.0. *)
Lemma string_delta_not_always_zero :
  ~ (forall s1 s2 : string,
       get_delta_percent (VStr s1) (VStr s2) = Some float_zero).
Proof.
  intros H. specialize (H "A" "B").
  apply (f_equal spec.is_negative) in H. vm_compute in H. discriminate H.
Qed.

(** C6, amended.  Two strings of one string type have delta 0.0 when they
    are equal and -Infinity when they differ. *)
Theorem string_delta (s1 s2 : string) :
  get_delta_percent (VStr s1) (VStr s2) =
    Some (if String.eqb s1 s2 then float_zero else float_neg_inf)
  /\ get_delta_percent (VUnicode s1) (VUnicode s2) =
       Some (if String.eqb s1 s2 then float_zero else float_neg_inf).
Proof.
  unfold get_delta_percent. simpl.
  destruct (String.eqb s1 s2); split; reflexivity.
Qed.

(** *** Value-converting extractors *)

(** C3, at inputs where the code departs from it: the byte-count converter
    raises [IndexError] on the empty string and on a lone unit letter,
    whatever the float parser does, and lets the parser's [ValueError]
    through on a string with no numeric prefix. *)
Theorem memory_converter_raises
    (parse_float : string -> option float) :
  MemoryConverterExtractor_convert_raw_value parse_float EmptyString
    = Raise IndexError
  /\ MemoryConverterExtractor_convert_raw_value parse_float "b"
     = Raise IndexError
  /\ MemoryConverterExtractor_convert_raw_value parse_float "B"
     = Raise IndexError
  /\ (parse_float "abc" = None ->
      MemoryConverterExtractor_convert_raw_value parse_float "abc"
      = Raise ValueError).
Proof.
  repeat split; try reflexivity.
  intros H. unfold MemoryConverterExtractor_convert_raw_value.
  change (lower "abc") with "abc". simpl. rewrite H. reflexivity.
Qed.

Lemma memory_converter_raises_witness :
  MemoryConverterExtractor_convert_raw_value (fun _ => None) "abc"
  = Raise ValueError.
Proof.
  exact (proj2 (proj2 (proj2 (memory_converter_raises (fun _ => None))))
           eq_refl).
Defined.

(** The integer and float converters never raise. *)
Lemma int_float_converters_total
    (parse_int : string -> option Value)
    (parse_float : string -> option float) (raw : string) :
  (exists v, IntConverterExtractor_convert_raw_value parse_int raw = Ok v)
  /\ (exists v,
        FloatConverterExtractor_convert_raw_value parse_float raw = Ok v).
Proof.
  unfold IntConverterExtractor_convert_raw_value,
    FloatConverterExtractor_convert_raw_value.
  destruct (parse_int raw), (parse_float raw); eauto.
Qed.

(** *** Grouping *)

(** C1, at an input where the code departs from it: one run holds "A" for
    the group-by key and the other holds null for it, and the call fails its
    assertion. *)
Theorem group_multiple_runs_null_key_fails :
  (group_multiple_runs (Some "g")
     [RunDict {[ "g" := VStr "A" ]}; RunDict {[ "g" := VNone ]}]).2
  = Raise AssertionError.
Proof. vm_compute. reflexivity. Qed.

(** Where the claim and the code agree: equal keys are stored once, a run
    lacking the key is skipped, and different keys fail the assertion. *)
Lemma group_multiple_runs_examples :
  (group_multiple_runs (Some "g")
     [RunDict {[ "g" := VStr "A" ]}; RunDict {[ "g" := VStr "A" ]}]).2
  = Ok {[ "g" := VStr "A" ]}
  /\ (group_multiple_runs (Some "g")
        [RunDict {[ "g" := VStr "A" ]}; RunNone]).2
     = Ok {[ "g" := VStr "A" ]}
  /\ (group_multiple_runs (Some "g")
        [RunDict {[ "g" := VStr "A" ]}; RunDict {[ "g" := VStr "B" ]}]).2
     = Raise AssertionError.
Proof. repeat split; vm_compute; reflexivity. Qed.

(** *** The fold of matches into an extractor *)

Section ProcessLineFacts.

Variable extract : string -> result Value.
Variable add : Value -> Value -> result Value.

Lemma process_lines_accept_all (lines : list string) :
  forall (self : ExtractorBase) (cands : list Value),
    collect (map extract lines) = Ok cands ->
    process_lines extract add self lines
    = spec.accept_all add self (spec.accepted cands).
Proof.
  induction lines as [|line rest IH]; intros self cands Hc; simpl in Hc.
  - injection Hc as <-. reflexivity.
  - destruct (extract line) as [c|e] eqn:Hline; [|discriminate].
    destruct (collect (map extract rest)) as [tl|e] eqn:Hrest; [|discriminate].
    injection Hc as <-.
    simpl. unfold process_line. rewrite Hline. simpl.
    unfold spec.accepted.
    destruct (is_none c) eqn:Hn; simpl.
    + rewrite filter_cons_False by (rewrite Hn; discriminate).
      apply IH. reflexivity.
    + rewrite filter_cons_True by exact Hn.
      simpl. destruct (accept_candidate add self c); simpl; [|reflexivity].
      apply IH. reflexivity.
Qed.

Lemma accepted_not_none (cands : list Value) (c : Value) :
  c ∈ spec.accepted cands -> is_none c = false.
Proof. unfold spec.accepted. rewrite list_elem_of_filter. tauto. Qed.

Lemma accept_candidate_count (self st : ExtractorBase) (c : Value) :
  accept_candidate add self c = Ok st ->
  num_of_matches st = num_of_matches self + 1 /\ policy st = policy self.
Proof.
  unfold accept_candidate. intros H.
  repeat match type of H with
         | (if ?b then _ else _) = _ => destruct b
         | Py.bind ?m _ = _ => destruct m; simpl in H
         end;
    try discriminate; injection H as <-; split; reflexivity.
Qed.

Lemma accept_all_count (ms : list Value) :
  forall self st : ExtractorBase,
    spec.accept_all add self ms = Ok st ->
    num_of_matches st = num_of_matches self + Z.of_nat (length ms)
    /\ policy st = policy self.
Proof.
  induction ms as [|c rest IH]; intros self st H; simpl in H.
  - injection H as <-. simpl. split; [lia | reflexivity].
  - destruct (accept_candidate add self c) as [s1|e] eqn:H1; [|discriminate].
    simpl in H. apply IH in H as [Hn Hp].
    apply accept_candidate_count in H1 as [Hn1 Hp1].
    rewrite Hn, Hn1, Hp, Hp1. simpl length. split; [lia | reflexivity].
Qed.

#[local] Arguments iadd : simpl never.

(** C4.  A scan whose lines yield the candidates [cands]: with no accepted
    match the extractor is left with value null and no match counted; with
    the accepted matches [a], [b], [c] in this order KEEP_FIRST ends with
    [a], KEEP_LAST with [c], APPEND with the list [[a, b, c]] and SUM with
    [a + b + c] where these sums are defined; and whatever the policy, a
    completed scan has counted every accepted match. *)
Theorem process_lines_policies (lines : list string) (cands : list Value) :
  collect (map extract lines) = Ok cands ->
  (spec.accepted cands = [] ->
   forall p : string,
     process_lines extract add (new_extractor p) lines
     = Ok {| value := VNone; num_of_matches := 0; policy := p |})
  /\ (forall a b c : Value,
        spec.accepted cands = [a; b; c] ->
        process_lines extract add (new_extractor POLICY_KEEP_FIRST) lines
        = Ok {| value := a; num_of_matches := 3;
                policy := POLICY_KEEP_FIRST |}
        /\ process_lines extract add (new_extractor POLICY_KEEP_LAST) lines
           = Ok {| value := c; num_of_matches := 3;
                   policy := POLICY_KEEP_LAST |}
        /\ process_lines extract add (new_extractor POLICY_APPEND) lines
           = Ok {| value := VList [a; b; c]; num_of_matches := 3;
                   policy := POLICY_APPEND |}
        /\ (forall ab abc : Value,
              iadd add a b = Ok ab -> ab <> VNone ->
              iadd add ab c = Ok abc ->
              process_lines extract add (new_extractor POLICY_SUM) lines
              = Ok {| value := abc; num_of_matches := 3;
                      policy := POLICY_SUM |}))
  /\ (forall (p : string) (st : ExtractorBase),
        process_lines extract add (new_extractor p) lines = Ok st ->
        num_of_matches st = Z.of_nat (length (spec.accepted cands))).
Proof.
  intros Hc. split; [| split].
  - intros Hnil p. rewrite (process_lines_accept_all _ _ _ Hc), Hnil.
    reflexivity.
  - intros a b c Habc.
    assert (Ha : is_none a = false)
      by (apply (accepted_not_none cands); rewrite Habc; set_solver).
    assert (Hb : is_none b = false)
      by (apply (accepted_not_none cands); rewrite Habc; set_solver).
    rewrite !(process_lines_accept_all _ _ _ Hc), Habc.
    unfold spec.accept_all, accept_candidate, new_extractor; simpl.
    split; [| split; [| split]].
    + repeat (rewrite ?Ha; simpl). reflexivity.
    + repeat (rewrite ?Ha, ?Hb; simpl). reflexivity.
    + reflexivity.
    + intros ab abc Hab Hne Habc'.
      assert (Hn : is_none ab = false) by (destruct ab; done).
      rewrite Ha. simpl. rewrite Hab. simpl. rewrite Hn. simpl.
      rewrite Habc'. reflexivity.
  - intros p st Hst. rewrite (process_lines_accept_all _ _ _ Hc) in Hst.
    apply accept_all_count in Hst as [Hn _]. rewrite Hn. simpl. lia.
Qed.

End ProcessLineFacts.

Lemma process_lines_policies_witness :
  collect (map examples.line_length examples.sample_lines)
  = Ok [VInt 1; VNone; VInt 2; VInt 3]
  /\ process_lines examples.line_length add_leaf (new_extractor POLICY_SUM)
       examples.sample_lines
     = Ok {| value := VInt 6; num_of_matches := 3; policy := POLICY_SUM |}.
Proof.
  split; [reflexivity |].
  destruct (process_lines_policies examples.line_length add_leaf
              examples.sample_lines _ eq_refl) as (_ & H & _).
  destruct (H (VInt 1) (VInt 2) (VInt 3) eq_refl) as (_ & _ & _ & Hsum).
  apply (Hsum (VInt 3) (VInt 6)); [reflexivity | discriminate | reflexivity].
Defined.

(** *** The first loop of group_multiple_runs *)

Lemma normalise_step_project (cur : list Run) (keys : gset string)
    (k : nat) (r : Run) :
  cur !! k = Some r ->
  (forall e, r = RunExtractor e -> exists d, as_dict e = Ok d) ->
  exists keys',
    normalise_step (cur, Ok keys) k = (<[k := spec.project r]> cur, Ok keys').
Proof.
  intros Hk Hok. unfold normalise_step. rewrite Hk.
  destruct r as [|e|d]; simpl.
  - eauto.
  - destruct (Hok e eq_refl) as [d Hd]. rewrite Hd. eauto.
  - rewrite list_insert_id by exact Hk. eauto.
Qed.

Lemma normalise_fold (n : nat) :
  forall (k : nat) (cur : list Run) (keys : gset string),
    (k + n <= length cur)%nat ->
    (forall i e, cur !! i = Some (RunExtractor e) ->
                 exists d, as_dict e = Ok d) ->
    exists final keys',
      foldl normalise_step (cur, Ok keys) (seq k n) = (final, Ok keys')
      /\ forall i,
           final !! i =
             if bool_decide (k <= i < k + n)%nat
             then spec.project <$> (cur !! i) else cur !! i.
Proof.
  induction n as [|n IH]; intros k cur keys Hlen Hok.
  - exists cur, keys. split; [reflexivity |].
    intros i. rewrite bool_decide_eq_false_2 by lia. reflexivity.
  - destruct (lookup_lt_is_Some_2 cur k) as [r Hr]; [lia |].
    destruct (normalise_step_project cur keys k r Hr) as [keys1 Hstep].
    { intros e ->. eauto. }
    cbn [seq foldl]. rewrite Hstep.
    destruct (IH (S k) (<[k := spec.project r]> cur) keys1)
      as (final & keys2 & Hfold & Hlook).
    { rewrite length_insert. lia. }
    { intros i e Hi. destruct (decide (i = k)) as [->|Hne].
      - rewrite list_lookup_insert_eq in Hi by (apply lookup_lt_Some in Hr; lia).
        injection Hi as Hp. destruct r as [|e'|d]; simpl in Hp;
          try discriminate.
        destruct (Hok k e' Hr) as [d Hd]. rewrite Hd in Hp. discriminate.
      - rewrite list_lookup_insert_ne in Hi by congruence. eauto. }
    exists final, keys2. split; [exact Hfold |].
    intros i. rewrite Hlook.
    destruct (decide (i = k)) as [->|Hne].
    + rewrite bool_decide_eq_false_2 by lia.
      rewrite bool_decide_eq_true_2 by lia.
      rewrite list_lookup_insert_eq by (apply lookup_lt_Some in Hr; lia).
      rewrite Hr. reflexivity.
    + rewrite list_lookup_insert_ne by congruence.
      destruct (decide (S k <= i < S k + n)%nat).
      * rewrite !bool_decide_eq_true_2 by lia. reflexivity.
      * rewrite !bool_decide_eq_false_2 by lia. reflexivity.
Qed.

(** C10.  The call leaves the caller's list changed: whatever the outcome
    of the grouping itself, every placeholder of a missing file has been
    replaced by an empty mapping and every extractor object by its
    dictionary projection, dictionaries staying as they were. *)
Theorem group_multiple_runs_mutates_runs
    (group_by_key : option string) (runs : list Run) :
  (forall e, RunExtractor e ∈ runs -> exists d, as_dict e = Ok d) ->
  let final := (group_multiple_runs group_by_key runs).1 in
  length final = length runs
  /\ forall i : nat,
       (runs !! i = Some RunNone -> final !! i = Some (RunDict ∅))
       /\ (forall e, runs !! i = Some (RunExtractor e) ->
             exists d, as_dict e = Ok d /\ final !! i = Some (RunDict d))
       /\ (forall d, runs !! i = Some (RunDict d) ->
             final !! i = Some (RunDict d)).
Proof.
  intros Hok.
  destruct (normalise_fold (length runs) 0 runs ∅) as (fin & keys & Hf & Hl).
  { lia. }
  { intros i e Hi. apply Hok. apply list_elem_of_lookup. eauto. }
  unfold group_multiple_runs, normalise_runs. rewrite Hf. simpl.
  assert (Hlook : forall i, fin !! i = spec.project <$> (runs !! i)).
  { intros i. rewrite Hl. case_bool_decide as Hi; [reflexivity |].
    rewrite lookup_ge_None_2 by lia. reflexivity. }
  split.
  - apply Nat.le_antisymm.
    + apply Nat.nlt_ge. intros Hlt.
      destruct (lookup_lt_is_Some_2 fin (length runs)) as [x Hx]; [lia |].
      rewrite Hlook, lookup_ge_None_2 in Hx by lia. discriminate.
    + apply Nat.nlt_ge. intros Hlt.
      destruct (lookup_lt_is_Some_2 runs (length fin)) as [x Hx]; [lia |].
      specialize (Hlook (length fin)). rewrite Hx in Hlook.
      rewrite lookup_ge_None_2 in Hlook by lia. discriminate.
  - intros i. rewrite Hlook. repeat split.
    + intros ->. reflexivity.
    + intros e He. rewrite He. simpl.
      destruct (Hok e) as [d Hd].
      { apply list_elem_of_lookup. eauto. }
      exists d. rewrite Hd. auto.
    + intros d ->. reflexivity.
Qed.

Lemma sample_runs_project :
  forall e, RunExtractor e ∈ examples.sample_runs -> exists d, as_dict e = Ok d.
Proof.
  intros e He. unfold examples.sample_runs in He.
  apply elem_of_cons in He as [He|He].
  - injection He as ->. eexists. vm_compute. reflexivity.
  - apply elem_of_cons in He as [He|He]; [discriminate |].
    inversion He.
Defined.

Lemma group_multiple_runs_mutates_runs_witness :
  (forall e, RunExtractor e ∈ examples.sample_runs ->
             exists d, as_dict e = Ok d)
  /\ (group_multiple_runs (Some "name") examples.sample_runs).1 !! 1%nat
     = Some (RunDict ∅).
Proof.
  split; [exact sample_runs_project |].
  exact (proj1 (proj2 (group_multiple_runs_mutates_runs (Some "name")
                         examples.sample_runs sample_runs_project) 1%nat)
           eq_refl).
Defined.

(** *** Updating every entry of a dictionary *)

Lemma update_each_fold (f : Value -> result Value) (d0 m : gmap string Value) :
  let r := map_fold
             (λ k v acc,
                let* d' := acc in let* e := f v in Ok (<[k := e]> d'))
             (Ok d0) m in
  (forall d', r = Ok d' ->
     forall k, (m !! k = None /\ d' !! k = d0 !! k)
               \/ (exists v v', m !! k = Some v /\ f v = Ok v'
                                /\ d' !! k = Some v'))
  /\ ((forall k v, m !! k = Some v -> exists v', f v = Ok v') ->
      exists d', r = Ok d').
Proof.
  cbv zeta. apply (map_fold_weak_ind (λ r m,
    (forall d', r = Ok d' ->
       forall k, (m !! k = None /\ d' !! k = d0 !! k)
                 \/ (exists v v', m !! k = Some v /\ f v = Ok v'
                                  /\ d' !! k = Some v'))
    /\ ((forall k v, m !! k = Some v -> exists v', f v = Ok v') ->
        exists d', r = Ok d'))).
  - split.
    + intros d' [= <-] k. left. rewrite lookup_empty. auto.
    + intros _. eauto.
  - intros i x m' r Hi [IH1 IH2]. split.
    + intros d'' Hr k.
      destruct r as [d'|e]; simpl in Hr; [|discriminate].
      destruct (f x) as [e|e] eqn:Hfx; simpl in Hr; [|discriminate].
      injection Hr as <-.
      destruct (decide (k = i)) as [->|Hne].
      * right. exists x, e. rewrite !lookup_insert_eq. auto.
      * rewrite !lookup_insert_ne by congruence. apply IH1. reflexivity.
    + intros Hall.
      destruct IH2 as [d' ->].
      { intros k v Hk. apply (Hall k v).
        rewrite lookup_insert_ne; [exact Hk | congruence]. }
      destruct (Hall i x) as [e He]; [apply lookup_insert_eq |].
      simpl. rewrite He. simpl. eauto.
Qed.

Lemma update_each_lookup (f : Value -> result Value)
    (d d' : gmap string Value) :
  update_each f d = Ok d' ->
  forall k, (d !! k = None /\ d' !! k = None)
            \/ (exists v v', d !! k = Some v /\ f v = Ok v'
                             /\ d' !! k = Some v').
Proof.
  intros H k. destruct (update_each_fold f d d) as [H1 _].
  destruct (H1 d' H k) as [[Hn Hd]|Hs]; [left | right; exact Hs].
  split; [exact Hn | congruence].
Qed.

Lemma update_each_total (f : Value -> result Value) (d : gmap string Value) :
  (forall k v, d !! k = Some v -> exists v', f v = Ok v') ->
  exists d', update_each f d = Ok d'.
Proof. intros H. destruct (update_each_fold f d d) as [_ H2]. auto. Qed.

(** *** Deltas of the footer *)

Section FooterDeltas.

Variable timedelta_of_seconds : float -> result Value.

Lemma annotate_entry_annotated (v v' : Value) :
  annotate_entry v = Ok v' -> v' = spec.annotated v.
Proof.
  destruct v as [| | | | | | |l| |]; simpl; try (intros [= <-]; reflexivity).
  destruct l; [discriminate |]. intros [= <-]. reflexivity.
Qed.

Lemma annotate_entry_total (v : Value) :
  v <> VList [] -> exists v', annotate_entry v = Ok v'.
Proof.
  destruct v as [| | | | | | |l| |]; simpl; eauto.
  destruct l; [congruence | eauto].
Qed.



End FooterDeltas.



(** *** The recursion budget of ExpandBinaryAction *)

Section BinaryBudget.

Variable action : Value -> Value -> result Value.

Lemma call_depth_pos (v : Value) : (1 <= call_depth v)%nat.
Proof. destruct v as [| | | | | | | | |w d]; simpl; try lia. destruct w; lia. Qed.

Lemma call_depth_val_of (v : Value) :
  match val_of v with
  | VList l => call_depth v = S (max_depth l)
  | VTuple l => call_depth v = S (S (max_depth l))
  | _ => True
  end.
Proof.
  destruct v as [| | | | | | | | |w d]; simpl; try exact I; try reflexivity.
  destruct w; simpl; try exact I; reflexivity.
Qed.

Lemma max_depth_lookup (l : list Value) (i : nat) (a : Value) :
  l !! i = Some a -> (call_depth a <= max_depth l)%nat.
Proof.
  revert i. induction l as [|x l IH]; intros [|i] H; simpl in *;
    try discriminate.
  - injection H as ->. unfold max_depth. simpl. lia.
  - apply IH in H. unfold max_depth in *. simpl. lia.
Qed.

Lemma collect_calls_mono {A} (l1 l2 : list (option (result A)))
    (res : result (list A)) :
  Forall2 (λ x y, forall r, x = Some r -> y = Some r) l1 l2 ->
  collect_calls l1 = Some res -> collect_calls l2 = Some res.
Proof.
  intros HF. revert res.
  induction HF as [|x y l1 l2 Hxy HF IH]; intros res; simpl; [auto |].
  destruct x as [[a|e]|]; try discriminate; rewrite (Hxy _ eq_refl); [|auto].
  destruct (collect_calls l1) as [[tl|e]|]; try discriminate;
    rewrite (IH _ eq_refl); auto.
Qed.


Lemma expand_binary_mono (n : nat) :
  forall (m : nat) (l r : Value) (res : result Value),
    (n <= m)%nat ->
    expand_binary n action l r = Some res ->
    expand_binary m action l r = Some res.
Proof.
  induction n as [|n IH]; intros m l r res Hle H; [discriminate |].
  destruct m as [|m]; [lia |]. assert (Hle' : (n <= m)%nat) by lia.
  simpl in H |- *.
  destruct (negb (type_is (type_of (val_of l)) (type_of (val_of r))));
    [exact H |].
  destruct (val_of l) as [| | | | | | |ll|lt|], (val_of r) as [| | | | | | |rl|rt|];
    try exact H.
  - (* two lists *)
    destruct (length ll <? length rl)%nat.
    + destruct (collect_calls _) as [c|] eqn:E in H; [|discriminate].
      erewrite collect_calls_mono; [exact H | | exact E].
      apply Forall2_fmap, Forall_Forall2_diag, Forall_forall.
      intros i _ r0. destruct (rl !! i), (ll !! i); auto.
    + destruct (collect_calls _) as [c|] eqn:E in H; [|discriminate].
      erewrite collect_calls_mono; [exact H | | exact E].
      apply Forall2_fmap, Forall_Forall2_diag, Forall_forall.
      intros i _ r0. destruct (ll !! i), (rl !! i); auto.
  - (* two tuples *)
    destruct (expand_binary n action (VList lt) (VList rt)) as [c|] eqn:E;
      [|discriminate].
    rewrite (IH m _ _ _ Hle' E). exact H.
Qed.

Lemma collect_calls_is_Some {A} (l : list (option (result A))) :
  Forall is_Some l -> is_Some (collect_calls l).
Proof.
  induction 1 as [|x l [[a|e] ->] _ IH]; simpl; [eauto | | eauto].
  destruct IH as [[tl|e] ->]; eauto.
Qed.

Lemma expand_binary_enough (n : nat) :
  forall l r : Value,
    (call_depth l <= n)%nat \/ (call_depth r <= n)%nat ->
    is_Some (expand_binary n action l r).
Proof.
  induction n as [|n IH]; intros l r H.
  { pose proof (call_depth_pos l). pose proof (call_depth_pos r). lia. }
  simpl.
  destruct (negb (type_is (type_of (val_of l)) (type_of (val_of r))));
    [eauto |].
  pose proof (call_depth_val_of l) as Hl.
  pose proof (call_depth_val_of r) as Hr.
  destruct (val_of l) as [| | | | | | |ll|lt|], (val_of r) as [| | | | | | |rl|rt|];
    try (destruct (negb _); eauto; fail).
  - (* two lists *)
    assert (Hd : (max_depth ll <= n)%nat \/ (max_depth rl <= n)%nat) by lia.
    destruct (length ll <? length rl)%nat.
    + destruct (collect_calls_is_Some
                  ((λ i, match rl !! i, ll !! i with
                         | Some a, Some b => expand_binary n action a b
                         | _, _ => Some (Raise IndexError)
                         end) <$> seq 0 (length ll))) as [[c|e] ->]; eauto.
      apply Forall_fmap, Forall_forall. intros i _. simpl.
      destruct (rl !! i) as [a|] eqn:Ha, (ll !! i) as [b|] eqn:Hb; eauto.
      apply IH. apply max_depth_lookup in Ha, Hb. lia.
    + destruct (collect_calls_is_Some
                  ((λ i, match ll !! i, rl !! i with
                         | Some a, Some b => expand_binary n action a b
                         | _, _ => Some (Raise IndexError)
                         end) <$> seq 0 (length rl))) as [[c|e] ->]; eauto.
      apply Forall_fmap, Forall_forall. intros i _. simpl.
      destruct (ll !! i) as [a|] eqn:Ha, (rl !! i) as [b|] eqn:Hb; eauto.
      apply IH. apply max_depth_lookup in Ha, Hb. lia.
  - (* two tuples *)
    destruct (IH (VList lt) (VList rt)) as [[c|e] ->];
      [unfold max_depth in *; simpl; lia | |eauto].
    destruct c; eauto.
Qed.

(** Any budget that covers one of the operands gives the result of the
    call. *)
Lemma expand_binary_call (n : nat) (l r : Value) :
  (call_depth l <= n)%nat \/ (call_depth r <= n)%nat ->
  expand_binary n action l r = Some (call_binary action l r).
Proof.
  intros H. unfold call_binary.
  destruct (expand_binary_enough n l r H) as [res Hres].
  destruct (expand_binary_enough (call_depth l) l r) as [res' Hres'];
    [lia |].
  rewrite Hres, Hres'. f_equal.
  destruct (Nat.le_ge_cases n (call_depth l)) as [Hle|Hle].
  - apply (expand_binary_mono _ _ _ _ _ Hle) in Hres. congruence.
  - apply (expand_binary_mono _ _ _ _ _ Hle) in Hres'. congruence.
Qed.




Lemma expand_binary_tuples (n : nat) (l r : list Value) :
  expand_binary (S n) action (VTuple l) (VTuple r)
  = match expand_binary n action (VList l) (VList r) with
    | None => None
    | Some (Raise e) => Some (Raise e)
    | Some (Ok (VList res)) => Some (Ok (VTuple res))
    | Some (Ok _) => Some (Raise TypeError)
    end.
Proof. reflexivity. Qed.

Lemma call_binary_tuples (l r : list Value) :
  call_binary action (VTuple l) (VTuple r)
  = let* res := call_binary action (VList l) (VList r) in
    match res with
    | VList xs => Ok (VTuple xs)
    | _ => Raise TypeError
    end.
Proof.
  unfold call_binary at 1.
  change (call_depth (VTuple l)) with (S (call_depth (VList l))).
  rewrite expand_binary_tuples, expand_binary_call by lia.
  destruct (call_binary action (VList l) (VList r)) as [[]|]; reflexivity.
Qed.

(** Operands of different types, or of a type that is not allowed, give
    null; two leaves of one allowed type go to the action. *)
Lemma call_binary_leaves (l r : Value) :
  (type_is (type_of (val_of l)) (type_of (val_of r)) = false ->
   call_binary action l r = Ok VNone)
  /\ (type_is (type_of (val_of l)) (type_of (val_of r)) = true ->
      type_of (val_of l) <> TList -> type_of (val_of l) <> TTuple ->
      call_binary action l r
      = if type_in (type_of (val_of l)) allowed_types
        then action (val_of l) (val_of r) else Ok VNone).
Proof.
  unfold call_binary.
  pose proof (call_depth_pos l) as Hp.
  destruct (call_depth l) as [|n]; [lia |]. simpl.
  split.
  - intros ->. reflexivity.
  - intros -> Hl Ht. simpl.
    destruct (val_of l), (val_of r); simpl in *; try reflexivity;
      try contradiction; try discriminate.
Qed.

End BinaryBudget.

(** *** Footer statistics *)


Section FooterStatistics.

Variable timedelta_of_seconds : float -> result Value.



End FooterStatistics.


(** *** What _get_extra_info records *)

Import output_module.

Lemma extra_info_key_fold (chd0 : gmap string bool)
    (group : gmap string Value) :
  let st := map_fold extra_info_key (chd0, ∅, -1) group in
  (forall k,
     st.1.1 !! k
     = match group !! k with
       | None => chd0 !! k
       | Some v => Some (default false (chd0 !! k) || spec.list_has_box v)
       end)
  /\ (forall k, st.1.2 !! k = spec.runs_in_cell <$> (group !! k)).
Proof.
  cbv zeta.
  apply (map_fold_weak_ind (λ (st : gmap string bool * gmap string Z * Z) m,
    (forall k,
       st.1.1 !! k
       = match m !! k with
         | None => chd0 !! k
         | Some v => Some (default false (chd0 !! k) || spec.list_has_box v)
         end)
    /\ (forall k, st.1.2 !! k = spec.runs_in_cell <$> (m !! k)))).
  - split; intros k; rewrite lookup_empty; reflexivity.
  - intros i x m [[chd cell] grp] Hi [IH1 IH2]. simpl in IH1, IH2.
    unfold extra_info_key. split; intros k; simpl.
    + destruct (decide (k = i)) as [->|Hne].
      * rewrite lookup_insert_eq.
        pose proof (IH1 i) as Hc. rewrite Hi in Hc.
        destruct (chd !! i) as [b|] eqn:Hb; rewrite <- Hc; simpl.
        -- destruct x as [| | | | | | |l| |]; simpl;
             rewrite ?orb_false_r; try exact Hb.
           destruct (existsb is_withdelta l).
           ++ rewrite lookup_insert_eq, orb_true_r. reflexivity.
           ++ rewrite orb_false_r. exact Hb.
        -- destruct x as [| | | | | | |l| |]; simpl;
             rewrite ?lookup_insert_eq; try reflexivity.
           destruct (existsb is_withdelta l); rewrite !lookup_insert_eq;
             reflexivity.
      * rewrite lookup_insert_ne by congruence. rewrite <- IH1.
        assert (Hk : forall c : gmap string bool,
                  match x with
                  | VList l => if existsb is_withdelta l
                               then <[i := true]> c else c
                  | _ => c
                  end !! k = c !! k).
        { intros c. destruct x as [| | | | | | |l| |]; try reflexivity.
          destruct (existsb is_withdelta l); [|reflexivity].
          apply lookup_insert_ne. congruence. }
        rewrite Hk. destruct (chd !! i); [reflexivity |].
        apply lookup_insert_ne. congruence.
    + destruct (decide (k = i)) as [->|Hne].
      * rewrite !lookup_insert_eq. reflexivity.
      * rewrite !lookup_insert_ne by congruence. apply IH2.
Qed.

Lemma extra_info_group_fields (self : TableFormatterBase)
    (group : gmap string Value) :
  (forall k,
     _col_has_delta (extra_info_group self group) !! k
     = match group !! k with
       | None => _col_has_delta self !! k
       | Some v =>
           Some (default false (_col_has_delta self !! k)
                 || spec.list_has_box v)
       end)
  /\ (exists cell : gmap string Z,
        _num_of_runs_in_cell (extra_info_group self group)
        = _num_of_runs_in_cell self ++ [cell]
        /\ forall k, cell !! k = spec.runs_in_cell <$> (group !! k))
  /\ (exists grp : Z,
        _num_of_runs_in_group (extra_info_group self group)
        = _num_of_runs_in_group self ++ [grp])
  /\ table (extra_info_group self group) = table self
  /\ footer (extra_info_group self group) = footer self
  /\ footer_names (extra_info_group self group) = footer_names self.
Proof.
  unfold extra_info_group.
  destruct (extra_info_key_fold (_col_has_delta self) group) as [H1 H2].
  destruct (map_fold extra_info_key (_col_has_delta self, ∅, -1) group)
    as [[chd cell] grp].
  simpl in *. repeat split; eauto.
Qed.

Lemma column_flag_fold (groups : list (gmap string Value)) (k : string) :
  forall init : option bool,
    foldl (λ (acc : option bool) (g : gmap string Value),
             match g !! k with
             | None => acc
             | Some v => Some (default false acc || spec.list_has_box v)
             end) init groups
    = match init with
      | Some b => Some (b || spec.column_list_has_box groups k)
      | None => if spec.column_present groups k
                then Some (spec.column_list_has_box groups k)
                else None
      end.
Proof.
  induction groups as [|g groups IH]; intros init.
  - destruct init; simpl; [rewrite orb_false_r |]; reflexivity.
  - cbn [foldl]. rewrite IH. unfold spec.column_present,
      spec.column_list_has_box. cbn [existsb].
    destruct (g !! k) as [v|] eqn:Hg; simpl.
    + destruct init; simpl; rewrite ?orb_assoc; reflexivity.
    + reflexivity.
Qed.

Lemma extra_info_fold (groups : list (gmap string Value)) :
  forall self : TableFormatterBase,
    let info := foldl extra_info_group self groups in
    (forall k,
       _col_has_delta info !! k
       = foldl (λ (acc : option bool) (g : gmap string Value),
                  match g !! k with
                  | None => acc
                  | Some v => Some (default false acc || spec.list_has_box v)
                  end) (_col_has_delta self !! k) groups)
    /\ (forall (i : nat) (g : gmap string Value),
          groups !! i = Some g ->
          exists cell : gmap string Z,
            _num_of_runs_in_cell info
              !! (length (_num_of_runs_in_cell self) + i)%nat = Some cell
            /\ forall k, cell !! k = spec.runs_in_cell <$> (g !! k))
    /\ table info = table self
    /\ footer info = footer self
    /\ footer_names info = footer_names self.
Proof.
  induction groups as [|g groups IH]; intros self; cbv zeta.
  - simpl. repeat split; try reflexivity. intros i g' Hi. discriminate.
  - cbn [foldl].
    destruct (extra_info_group_fields self g)
      as (Hc & (cell & Hcell & Hk) & _ & Ht & Hf & Hn).
    destruct (IH (extra_info_group self g)) as (IH1 & IH2 & IH3 & IH4 & IH5).
    split; [| split; [| split; [| split]]]; try congruence.
    + intros k. rewrite IH1, Hc. reflexivity.
    + intros [|i] g' Hi; simpl in Hi.
      * injection Hi as <-. exists cell. split; [|exact Hk].
        assert (Hpre : forall (more : list (gmap string Value))
                         (s : TableFormatterBase),
                   exists tl, _num_of_runs_in_cell (foldl extra_info_group s more)
                              = _num_of_runs_in_cell s ++ tl).
        { induction more as [|m more IHm]; intros s.
          - exists []. simpl. rewrite app_nil_r. reflexivity.
          - cbn [foldl]. destruct (IHm (extra_info_group s m)) as [tl ->].
            destruct (extra_info_group_fields s m)
              as (_ & (c & -> & _) & _).
            exists (c :: tl). rewrite <- app_assoc. reflexivity. }
        destruct (Hpre groups (extra_info_group self g)) as [tl ->].
        rewrite Hcell, Nat.add_0_r, <- app_assoc.
        rewrite lookup_app_r by lia. rewrite Nat.sub_diag. reflexivity.
      * destruct (IH2 i g' Hi) as (c & Hc1 & Hc2).
        exists c. split; [|exact Hc2].
        rewrite Hcell, length_app in Hc1. simpl in Hc1.
        rewrite <- Hc1. f_equal. lia.
Qed.

Lemma base_column_has_delta_info (t : TableFormatterBase) (k : string) :
  base_column_has_delta (_get_extra_info t) (Some k)
  = if spec.column_present (table t ++ footer t) k
    then Ok (spec.column_list_has_box (table t ++ footer t) k)
    else Raise KeyError.
Proof.
  unfold base_column_has_delta, _get_extra_info. simpl.
  destruct (extra_info_fold (table t ++ footer t)
              {| table := table t; footer := footer t;
                 footer_names := footer_names t; _all_keys := ∅;
                 _col_has_delta := ∅; _num_of_runs_in_group := [];
                 _num_of_runs_in_cell := [] |}) as (H & _).
  rewrite H, column_flag_fold. simpl. rewrite lookup_empty.
  destruct (spec.column_present _ k); reflexivity.
Qed.


(** C8 fails as stated: a column whose only boxes hold a null delta has
    [column_has_delta] true. *)
Lemma column_has_delta_with_null_deltas :
  exists self : TableFormatterBase,
    new_table examples.whole_microseconds examples.missing_reference true
    = Ok self
    /\ base_column_has_delta self (Some "x") = Ok true
    /\ spec.column_any spec.has_delta (table self ++ footer self) "x" = false.
Proof.
  eexists. split; [vm_compute; reflexivity |].
  split; vm_compute; reflexivity.
Qed.

(** C8, amended.  The default value of [column_has_delta] for a column is
    true exactly when some group holds under that column a list with a
    [withdelta] among its elements, whatever the delta it carries; and once
    [toggle_delta_off] has been set for the column, [column_has_delta] is
    false whatever the data. *)
Theorem column_has_delta_default (t : TableFormatterBase) (k : string) :
  base_column_has_delta (_get_extra_info t) (Some k)
  = (if spec.column_present (table t ++ footer t) k
     then Ok (spec.column_list_has_box (table t ++ footer t) k)
     else Raise KeyError)
  /\ forall self : TableFilteredBase,
       column_has_delta
         (set_column_attribute self k "toggle_delta_off" (AttrBool true))
         (Some k)
       = Ok false.
Proof.
  split.
  - apply base_column_has_delta_info.
  - intros self. unfold column_has_delta, get_column_attribute,
      set_column_attribute. simpl.
    rewrite !lookup_insert_eq. reflexivity.
Qed.

(** *** The calls of the walk *)

Section WalkFacts.

Variable self : TableFormatterBase.
Variable chd : option string -> result bool.
Variable header : list string.

Lemma call_events (h : Hook) (f : Location -> Location) (w : Walk) :
  call h f w = (f w.1, w.2 ++ [(h, f w.1)]).
Proof. reflexivity. Qed.

(** A loop of the walk: when every iteration keeps [I] on the [Location]
    and appends calls that satisfy [P], so does the loop. *)
Lemma foldl_walk {A} (step : result Walk -> A -> result Walk)
    (I : Location -> Prop) (P : A -> list Event -> Prop) :
  (forall e a, step (Raise e) a = Raise e) ->
  (forall w a w', I w.1 -> step (Ok w) a = Ok w' ->
     I w'.1 /\ exists new, w'.2 = w.2 ++ new /\ P a new) ->
  forall (xs : list A) (w w' : Walk),
    I w.1 -> foldl step (Ok w) xs = Ok w' ->
    I w'.1 /\ exists news, w'.2 = w.2 ++ mjoin news /\ Forall2 P xs news.
Proof.
  intros Hraise Hstep xs.
  induction xs as [|a xs IH]; intros w w' HI H; cbn [foldl] in H.
  - injection H as <-. split; [exact HI |].
    exists []. simpl. rewrite app_nil_r. split; [reflexivity | constructor].
  - destruct (step (Ok w) a) as [w1|e] eqn:H1.
    + destruct (Hstep w a w1 HI H1) as (HI1 & new & Hnew & HP).
      destruct (IH w1 w' HI1 H) as (HI' & news & Hnews & HF).
      split; [exact HI' |].
      exists (new :: news). simpl. rewrite Hnews, Hnew, app_assoc.
      split; [reflexivity | constructor; assumption].
    + exfalso. clear -H Hraise.
      assert (Hr : forall ys, foldl step (Raise e) ys = Raise e).
      { induction ys as [|y ys IHy]; simpl; [reflexivity |].
        rewrite Hraise. exact IHy. }
      rewrite Hr in H. discriminate.
Qed.

Section Groups.

Variable groups : list (gmap string Value).
Variable T : TableLoc.

Lemma walk_col_calls (g r : nat) (R : Z) (w w' : Walk) (c : nat * string) :
  (loc_in_table w.1 = Some T /\ n_group w.1 = Z.of_nat g
   /\ n_run w.1 = Z.of_nat r /\ num_of_runs_in_group w.1 = R) ->
  walk_col self chd groups g r (Ok w) c = Ok w' ->
  (loc_in_table w'.1 = Some T /\ n_group w'.1 = Z.of_nat g
   /\ n_run w'.1 = Z.of_nat r /\ num_of_runs_in_group w'.1 = R)
  /\ exists new, w'.2 = w.2 ++ new
                 /\ spec.col_calls self groups T g R r c new.
Proof.
  intros (H1 & H2 & H3 & H4) H. unfold walk_col in H. simpl in H.
  destruct (cell_content self groups g r c.2) as [content|e] eqn:Hc;
    [|discriminate].
  simpl in H. destruct (chd (Some c.2)) as [has|e]; [|discriminate].
  simpl in H. injection H as <-.
  destruct w as [loc evs]. simpl in *.
  split; [auto |].
  eexists. split.
  - unfold walk_cell, call. simpl. rewrite <- !app_assoc. reflexivity.
  - exists content. split; [exact Hc |]. split; [reflexivity |].
    repeat constructor; simpl; auto.
Qed.

Lemma walk_row_calls (g : nat) (R : Z) (w w' : Walk) (r : nat) :
  (loc_in_table w.1 = Some T /\ n_group w.1 = Z.of_nat g
   /\ num_of_runs_in_group w.1 = R) ->
  walk_row self chd header groups g (Ok w) r = Ok w' ->
  (loc_in_table w'.1 = Some T /\ n_group w'.1 = Z.of_nat g
   /\ num_of_runs_in_group w'.1 = R)
  /\ exists new, w'.2 = w.2 ++ new
                 /\ spec.row_calls self header groups T g R r new.
Proof.
  intros (H1 & H2 & H4) H. unfold walk_row in H. simpl in H.
  destruct (foldl _ _ _) as [w1|e] eqn:Hf in H; [|discriminate].
  simpl in H. injection H as <-.
  apply (foldl_walk _
           (λ loc, loc_in_table loc = Some T /\ n_group loc = Z.of_nat g
                   /\ n_run loc = Z.of_nat r /\ num_of_runs_in_group loc = R)
           (spec.col_calls self groups T g R r)) in Hf.
  - destruct Hf as ((I1 & I2 & I3 & I4) & news & Hnews & HF).
    split; [simpl; auto |].
    eexists. split.
    + rewrite call_events. cbn [snd]. rewrite Hnews, call_events. cbn [snd].
      rewrite <- !app_assoc. reflexivity.
    + eexists _, news, _. split; [reflexivity |]. auto.
  - intros e a. reflexivity.
  - intros w0 a w0' HI Hs. apply (walk_col_calls g r R w0 w0' a HI Hs).
  - simpl. auto.
Qed.

Lemma walk_group_calls (group_offset : nat) (w w' : Walk) (g : nat) :
  loc_in_table w.1 = Some T ->
  walk_group self chd header groups group_offset (Ok w) g = Ok w' ->
  loc_in_table w'.1 = Some T
  /\ exists new, w'.2 = w.2 ++ new
                 /\ spec.group_calls self header groups T group_offset g new.
Proof.
  intros H1 H. unfold walk_group in H. simpl in H.
  destruct (_num_of_runs_in_group self !! (g + group_offset)%nat)
    as [R|] eqn:HR; [|discriminate].
  simpl in H.
  destruct (foldl _ _ _) as [w1|e] eqn:Hf in H; [|discriminate].
  simpl in H. injection H as <-.
  apply (foldl_walk _
           (λ loc, loc_in_table loc = Some T /\ n_group loc = Z.of_nat g
                   /\ num_of_runs_in_group loc = R)
           (spec.row_calls self header groups T g R)) in Hf.
  - destruct Hf as ((I1 & I2 & I4) & news & Hnews & HF).
    split; [simpl; auto |].
    eexists. split.
    + rewrite call_events. cbn [snd]. rewrite Hnews, call_events. cbn [snd].
      rewrite <- !app_assoc. reflexivity.
    + eexists R, _, news, _. split; [exact HR |].
      split; [reflexivity |]. auto.
  - intros e a. reflexivity.
  - intros w0 a w0' HI Hs. apply (walk_row_calls g R w0 w0' a HI Hs).
  - simpl. auto.
Qed.

Lemma process_groups_calls (group_offset : nat) (w w' : Walk) :
  loc_in_table w.1 = Some T ->
  process_groups self chd header groups group_offset w = Ok w' ->
  loc_in_table w'.1 = Some T
  /\ exists news,
       w'.2 = w.2 ++ mjoin news
       /\ Forall2 (spec.group_calls self header groups T group_offset)
            (seq 0 (length groups)) news.
Proof.
  intros H1 H. unfold process_groups in H.
  apply (foldl_walk _ (λ loc, loc_in_table loc = Some T)
           (spec.group_calls self header groups T group_offset)) in H;
    [exact H | reflexivity | | exact H1].
  intros w0 a w0' HI Hs. apply (walk_group_calls group_offset w0 w0' a HI Hs).
Qed.

End Groups.

Lemma walk_header_calls (w : Walk) :
  walk_header chd header = Ok w ->
  loc_in_table w.1 = Some LOC_IN_TABLE_BODY
  /\ Forall (λ ev : Event, spec.value_hook ev.1 = true ->
                           loc_in_table ev.2 = Some LOC_IN_TABLE_HDR) w.2.
Proof.
  unfold walk_header. intros H.
  destruct (foldl _ _ _) as [w1|e] eqn:Hf in H; [|discriminate].
  simpl in H. injection H as <-.
  apply (foldl_walk _ (λ loc, loc_in_table loc = Some LOC_IN_TABLE_HDR)
           (λ _ new, Forall (λ ev : Event,
                               loc_in_table ev.2 = Some LOC_IN_TABLE_HDR) new))
    in Hf.
  - destruct Hf as (HI & news & Hnews & HF).
    split; [reflexivity |].
    rewrite !call_events. cbn [fst snd]. rewrite Hnews.
    rewrite !Forall_app. repeat split.
    + repeat constructor; simpl; discriminate.
    + apply Forall_join. eapply Forall2_Forall_r; [exact HF |].
      apply Forall_forall. intros a _ new Hn.
      eapply Forall_impl; [exact Hn |]. auto.
    + repeat constructor; simpl; discriminate.
    + repeat constructor; simpl; discriminate.
    + repeat constructor; simpl; discriminate.
  - reflexivity.
  - intros w0 a w0' HI Hs. unfold walk_header_col in Hs. simpl in Hs.
    destruct (chd (Some a.2)) as [has|e]; [|discriminate].
    simpl in Hs. injection Hs as <-. split; [exact HI |].
    eexists. split.
    + unfold walk_cell, call. simpl. rewrite <- !app_assoc. reflexivity.
    + repeat constructor; simpl; exact HI.
  - reflexivity.
Qed.


(** The calls of the whole walk: those of the header, of the body groups,
    of the footer groups, and the calls that open and close the sections. *)
Lemma run_calls (evs : list Event) :
  run self chd header = Ok evs ->
  exists pre bnews mid fnews post,
    evs = pre ++ mjoin bnews ++ mid ++ mjoin fnews ++ post
    /\ Forall (λ ev : Event, spec.value_hook ev.1 = true ->
                             loc_in_table ev.2 = Some LOC_IN_TABLE_HDR) pre
    /\ Forall (λ ev : Event, spec.value_hook ev.1 = false) mid
    /\ Forall (λ ev : Event, spec.value_hook ev.1 = false) post
    /\ Forall2 (spec.group_calls self header (table self)
                  LOC_IN_TABLE_BODY 0)
         (seq 0 (length (table self))) bnews
    /\ Forall2 (spec.group_calls self header (footer self)
                  LOC_IN_TABLE_FOOTER (length (table self)))
         (seq 0 (length (footer self))) fnews.
Proof.
  unfold run, walk_body. intros H.
  destruct (walk_header chd header) as [w0|e] eqn:Hh; [|discriminate].
  simpl in H.
  destruct (process_groups self chd header (table self) 0 w0)
    as [w1|e] eqn:Hb; [|discriminate].
  simpl in H.
  destruct (process_groups self chd header (footer self) _ _)
    as [w2|e] eqn:Hf in H; [|discriminate].
  simpl in H. injection H as <-.
  apply walk_header_calls in Hh as [Hloc0 Hpre].
  apply (process_groups_calls (table self) LOC_IN_TABLE_BODY) in Hb
    as (Hloc1 & bnews & Hbn & HFb); [|exact Hloc0].
  apply (process_groups_calls (footer self) LOC_IN_TABLE_FOOTER) in Hf
    as (Hloc2 & fnews & Hfn & HFf); [|reflexivity].
  rewrite Hfn. rewrite ?call_events. cbn [fst snd]. rewrite Hbn.
  rewrite <- !app_assoc.
  eexists w0.2, bnews, [_; _], fnews, [_; _].
  split; [reflexivity |].
  split; [exact Hpre |].
  split; [repeat constructor |].
  split; [repeat constructor |].
  split; assumption.
Qed.


End WalkFacts.

(** *** The value hooks of the HTML visitor *)

Section HtmlHooks.

Variable quick_html_escape : Value -> string.
Variable py_str : Value -> string.



End HtmlHooks.

(** *** The rows on which a cell is rendered *)


Lemma join_cons {A} (x : list A) (ls : list (list A)) :
  mjoin (x :: ls) = x ++ mjoin ls.
Proof. reflexivity. Qed.








Section WalkRows.

Variable self : TableFormatterBase.
Variable header : list string.
Variable groups : list (gmap string Value).
Variable T : TableLoc.
Variables g c : nat.





End WalkRows.





(** ** Further properties *)

Set Warnings "-clear-no-such-hyp".

(** *** The dictionary projection of a scanned file *)

Lemma as_dict_loop_ok (self : StatsExtractorBase) (keys : list string) :
  forall (retval d : gmap string Value),
    as_dict_loop self keys retval = Ok d ->
    forall k,
      if bool_decide (k ∈ keys)
      then exists v, getattr self k = Ok v /\ d !! k = Some v
      else d !! k = retval !! k.
Proof.
  induction keys as [|k0 rest IH]; intros retval d Hd k.
  - simpl in Hd. injection Hd as <-.
    rewrite bool_decide_eq_false_2 by apply not_elem_of_nil. reflexivity.
  - simpl in Hd. destruct (getattr self k0) as [v0|e] eqn:Hk0; [|discriminate].
    simpl in Hd. specialize (IH _ _ Hd k).
    destruct (decide (k ∈ rest)) as [Hin|Hnin].
    + rewrite bool_decide_eq_true_2 in IH by exact Hin.
      rewrite bool_decide_eq_true_2 by (right; exact Hin). exact IH.
    + rewrite bool_decide_eq_false_2 in IH by exact Hnin.
      destruct (decide (k = k0)) as [->|Hne].
      * rewrite bool_decide_eq_true_2 by left.
        exists v0. rewrite IH, lookup_insert_eq. auto.
      * rewrite bool_decide_eq_false_2.
        -- rewrite IH, lookup_insert_ne by congruence. reflexivity.
        -- intros Hin. apply elem_of_cons in Hin as [?|?]; contradiction.
Qed.

Lemma as_dict_loop_raise (self : StatsExtractorBase) (keys : list string) :
  forall (retval : gmap string Value) (e : exn),
    as_dict_loop self keys retval = Raise e ->
    exists k, k ∈ keys /\ getattr self k = Raise e.
Proof.
  induction keys as [|k0 rest IH]; intros retval e He; [discriminate |].
  simpl in He. destruct (getattr self k0) as [v0|e0] eqn:Hk0.
  - simpl in He. destruct (IH _ _ He) as (k & Hk & Hg).
    exists k. split; [right; exact Hk | exact Hg].
  - simpl in He. injection He as <-. exists k0. split; [left | exact Hk0].
Qed.

(** X1.  [as_dict] returns a dictionary whose keys are exactly the
    extracted attributes, each mapped to what attribute access gives for it;
    and it raises exactly what the access to one of these attributes
    raises. *)
Theorem as_dict_attributes (self : StatsExtractorBase) :
  (forall d, as_dict self = Ok d ->
     dom d = list_to_set (extracted_attributes self)
     /\ forall k, k ∈ extracted_attributes self ->
          exists v, getattr self k = Ok v /\ d !! k = Some v)
  /\ (forall e, as_dict self = Raise e ->
        exists k, k ∈ extracted_attributes self /\ getattr self k = Raise e).
Proof.
  split.
  - intros d Hd.
    pose proof (as_dict_loop_ok self _ _ _ Hd) as H.
    split.
    + apply set_eq. intros k. rewrite elem_of_dom, elem_of_list_to_set.
      specialize (H k). case_bool_decide as Hk.
      * destruct H as (v & _ & Hv). rewrite Hv. split; eauto.
      * rewrite H, lookup_empty. split; [intros [? ?]; discriminate | tauto].
    + intros k Hk. specialize (H k).
      rewrite bool_decide_eq_true_2 in H by exact Hk. exact H.
  - intros e He. exact (as_dict_loop_raise self _ _ _ He).
Qed.

Lemma as_dict_attributes_witness :
  exists d, as_dict examples.scanned = Ok d
            /\ dom d = list_to_set (extracted_attributes examples.scanned).
Proof.
  exists {[ "name" := VStr "A" ]}.
  assert (H : as_dict examples.scanned = Ok {[ "name" := VStr "A" ]})
    by (vm_compute; reflexivity).
  split; [exact H |].
  exact (proj1 (proj1 (as_dict_attributes examples.scanned) _ H)).
Defined.

(** *** Scanning the lines of a file *)


Section ScanFacts.

Variable extract : string -> string -> result Value.
Variable add : Value -> Value -> result Value.






End ScanFacts.

(** *** The grouping of runs *)

Lemma normalise_raise (e : exn) (l : list nat) :
  forall cur : list Run,
    foldl normalise_step (cur, Raise e) l = (cur, Raise e).
Proof. induction l as [|i l IH]; intros cur; [reflexivity | simpl; apply IH]. Qed.

Lemma normalise_step_keys (cur final : list Run) (keys keys' : gset string)
    (k : nat) :
  normalise_step (cur, Ok keys) k = (final, Ok keys') ->
  exists r, cur !! k = Some r
            /\ final = <[k := spec.project r]> cur
            /\ keys' = keys ∪ notions.run_keys r.
Proof.
  unfold normalise_step, notions.run_keys.
  destruct (cur !! k) as [r|] eqn:Hk; [|intros [= _ ?]; discriminate].
  destruct r as [|s|d]; simpl.
  - intros [= <- <-]. exists RunNone. auto.
  - destruct (as_dict s) as [d|x] eqn:Hd; intros [= <- <-].
    exists (RunExtractor s). simpl. rewrite Hd. auto.
  - intros [= <- <-]. exists (RunDict d).
    rewrite list_insert_id by exact Hk. auto.
Qed.

Lemma normalise_fold_keys (n : nat) :
  forall (k : nat) (cur final : list Run) (keys keys' : gset string),
    foldl normalise_step (cur, Ok keys) (seq k n) = (final, Ok keys') ->
    forall x, x ∈ keys' <->
              x ∈ keys \/ exists i r, (k <= i < k + n)%nat
                                      /\ cur !! i = Some r
                                      /\ x ∈ notions.run_keys r.
Proof.
  induction n as [|n IH]; intros k cur final keys keys' H x.
  - simpl in H. injection H as <- <-. split; [auto |].
    intros [?|(i & r & Hi & _)]; [assumption | lia].
  - cbn [seq foldl] in H.
    destruct (normalise_step (cur, Ok keys) k) as [cur1 [keys1|e]] eqn:Hstep.
    + apply normalise_step_keys in Hstep as (r & Hr & -> & ->).
      rewrite (IH _ _ _ _ _ H x), elem_of_union. split.
      * intros [[Hx|Hx]|(i & r' & Hi & Hr' & Hx)].
        -- auto.
        -- right. exists k, r. split; [lia | auto].
        -- right. exists i, r'. split; [lia |].
           rewrite list_lookup_insert_ne in Hr' by lia. auto.
      * intros [Hx|(i & r' & Hi & Hr' & Hx)]; [auto |].
        destruct (decide (i = k)) as [->|Hne].
        -- rewrite Hr in Hr'. injection Hr' as <-. auto.
        -- right. exists i, r'. split; [lia |].
           rewrite list_lookup_insert_ne by lia. auto.
    + rewrite normalise_raise in H. discriminate.
Qed.

(** The first loop, when every extractor object has a dictionary
    projection: the runs are replaced by their projections and the keys of
    all of them are collected. *)
Lemma normalise_runs_project (runs : list Run) :
  (forall e, RunExtractor e ∈ runs -> exists d, as_dict e = Ok d) ->
  normalise_runs runs = (spec.project <$> runs, Ok (notions.all_keys runs)).
Proof.
  intros Hok.
  destruct (normalise_fold (length runs) 0 runs ∅) as (fin & keys & Hf & Hl).
  { lia. }
  { intros i e Hi. apply Hok. apply list_elem_of_lookup. eauto. }
  unfold normalise_runs. rewrite Hf. f_equal.
  - apply list_eq. intros i. rewrite Hl, list_lookup_fmap.
    case_bool_decide as Hi; [reflexivity |].
    rewrite lookup_ge_None_2 by lia. reflexivity.
  - f_equal. apply set_eq. intros x.
    rewrite (normalise_fold_keys _ _ _ _ _ _ Hf x).
    unfold notions.all_keys. rewrite elem_of_union_list. split.
    + intros [Hx|(i & r & _ & Hr & Hx)]; [set_solver |].
      exists (notions.run_keys r). split; [|exact Hx].
      apply list_elem_of_fmap. exists r. split; [reflexivity |].
      apply list_elem_of_lookup. eauto.
    + intros (X & HX & Hx). right.
      apply list_elem_of_fmap in HX as (r & -> & Hr).
      apply list_elem_of_lookup in Hr as [i Hi].
      exists i, r. split; [|auto].
      apply lookup_lt_Some in Hi. lia.
Qed.

(** The second loop stores, for every key, what [group_entry] gives; it
    raises what [group_entry] raises for one of the keys. *)
Lemma group_loop_entries (group_by_key : option string) (runs : list Run)
    (keys : gset string) :
  match group_loop group_by_key runs keys with
  | Ok g =>
      forall k,
        if bool_decide (k ∈ keys)
        then exists v, group_entry group_by_key runs k = Ok v
                       /\ g !! k = Some v
        else g !! k = None
  | Raise e =>
      exists k, k ∈ keys /\ group_entry group_by_key runs k = Raise e
  end.
Proof.
  unfold group_loop.
  pose (P := λ (r : result (gmap string Value)) (X : gset string),
    match r with
    | Ok g =>
        forall k,
          if bool_decide (k ∈ X)
          then exists v, group_entry group_by_key runs k = Ok v
                         /\ g !! k = Some v
          else g !! k = None
    | Raise e =>
        exists k, k ∈ X /\ group_entry group_by_key runs k = Raise e
    end).
  apply (set_fold_ind_L P); unfold P; clear P.
  - intros k. rewrite bool_decide_eq_false_2 by set_solver.
    apply lookup_empty.
  - intros x X r Hx IH. destruct r as [g|e]; simpl.
    + destruct (group_entry group_by_key runs x) as [v|e] eqn:Hv; simpl.
      * intros k. destruct (decide (k = x)) as [->|Hne].
        -- rewrite bool_decide_eq_true_2
             by (apply elem_of_union_l, elem_of_singleton; reflexivity).
           exists v. rewrite lookup_insert_eq. auto.
        -- rewrite lookup_insert_ne by congruence. specialize (IH k).
           case_bool_decide as Hk.
           ++ rewrite bool_decide_eq_true_2 by (apply elem_of_union_r, Hk).
              exact IH.
           ++ rewrite bool_decide_eq_false_2; [exact IH |].
              rewrite elem_of_union, elem_of_singleton. tauto.
      * exists x. split; [|exact Hv].
        apply elem_of_union_l, elem_of_singleton. reflexivity.
    + destruct IH as (k & Hk & He). exists k.
      split; [apply elem_of_union_r, Hk | exact He].
Qed.

Lemma group_entry_list (group_by_key : option string) (runs : list Run)
    (k : string) :
  Some k <> group_by_key ->
  group_entry group_by_key (spec.project <$> runs) k
  = Ok (VList (notions.slots runs k)).
Proof.
  intros Hne. unfold group_entry, notions.slots.
  rewrite bool_decide_eq_false_2 by exact Hne.
  rewrite <- list_fmap_compose. reflexivity.
Qed.

Lemma omap_fmap_compose {A B C} (f : B -> option C) (g : A -> B)
    (l : list A) :
  omap f (g <$> l) = omap (λ x, f (g x)) l.
Proof.
  induction l as [|a l IH]; [reflexivity |].
  csimpl. rewrite IH. reflexivity.
Qed.

Lemma group_entry_key (key : string) (runs : list Run) :
  group_entry (Some key) (spec.project <$> runs) key
  = match py_set (notions.present_values runs key) with
    | Ok [v] => Ok v
    | Ok _ => Raise AssertionError
    | Raise e => Raise e
    end.
Proof.
  unfold group_entry, notions.present_values.
  rewrite bool_decide_eq_true_2 by reflexivity.
  rewrite omap_fmap_compose.
  destruct (py_set _) as [[|v [|w vs]]|e]; reflexivity.
Qed.

(** X3.  Grouping without a group-by key cannot fail once the runs are
    dictionaries: the result has one entry for every key present in any
    run, and that entry is a list with one slot per run, in the order of the
    runs, holding the run's value or null where the run lacks the key. *)
Theorem group_multiple_runs_lists (runs : list Run) :
  (forall e, RunExtractor e ∈ runs -> exists d, as_dict e = Ok d) ->
  exists g,
    (group_multiple_runs None runs).2 = Ok g
    /\ dom g = notions.all_keys runs
    /\ forall k, k ∈ notions.all_keys runs ->
         g !! k = Some (VList (notions.slots runs k))
         /\ length (notions.slots runs k) = length runs
         /\ forall i run, runs !! i = Some run ->
              notions.slots runs k !! i
              = Some (default VNone (run_lookup (spec.project run) k)).
Proof.
  intros Hok. unfold group_multiple_runs.
  rewrite (normalise_runs_project runs Hok). simpl.
  pose proof (group_loop_entries None (spec.project <$> runs)
                (notions.all_keys runs)) as H.
  destruct (group_loop None _ _) as [g|e].
  - exists g. split; [reflexivity |]. split.
    + apply set_eq. intros k. rewrite elem_of_dom. specialize (H k).
      case_bool_decide as Hk.
      * destruct H as (v & _ & ->). split; eauto.
      * rewrite H. split; [intros [? ?]; discriminate | tauto].
    + intros k Hk. specialize (H k).
      rewrite bool_decide_eq_true_2 in H by exact Hk.
      destruct H as (v & Hv & Hg).
      rewrite group_entry_list in Hv by discriminate. injection Hv as <-.
      split; [exact Hg |]. unfold notions.slots. split.
      * apply length_fmap.
      * intros i run Hi. rewrite list_lookup_fmap, Hi. reflexivity.
  - destruct H as (k & _ & Hk).
    rewrite group_entry_list in Hk by discriminate. discriminate.
Qed.

Lemma group_multiple_runs_lists_witness :
  exists g,
    (group_multiple_runs None examples.sample_runs).2 = Ok g
    /\ dom g = notions.all_keys examples.sample_runs.
Proof.
  destruct (group_multiple_runs_lists examples.sample_runs sample_runs_project)
    as (g & Hg & Hdom & _).
  exists g. auto.
Defined.

(** The distinct values of a list are a single one exactly when the list is
    not empty, holds hashable values only, and every value equals the first
    one. *)
Lemma foldl_set_add_grows (vs : list Value) :
  forall s : list Value,
    (length s <= length (foldl set_add s vs))%nat.
Proof.
  induction vs as [|v vs IH]; intros s; [simpl; lia |].
  simpl. etransitivity; [|apply IH].
  unfold set_add. destruct (existsb (py_eq v) s); [lia |].
  rewrite length_app. simpl. lia.
Qed.

Lemma foldl_set_add_single (vs : list Value) (v w : Value) :
  foldl set_add [v] vs = [w] <->
  v = w /\ Forall (λ x, py_eq x v = true) vs.
Proof.
  induction vs as [|x vs IH]; simpl.
  - split; [intros [= ->]; auto | intros [-> _]; reflexivity].
  - unfold set_add at 2. simpl. rewrite orb_false_r.
    destruct (py_eq x v) eqn:Hx.
    + rewrite IH. split; intros [-> H]; split; auto.
      inversion H; assumption.
    + split.
      * intros H. pose proof (foldl_set_add_grows vs ([v] ++ [x])) as Hlen.
        simpl in Hlen, H. rewrite H in Hlen. simpl in Hlen. lia.
      * intros [_ H]. inversion H; congruence.
Qed.

Lemma py_set_single (vs : list Value) (w : Value) :
  py_set vs = Ok [w] <->
  forallb hashable vs = true
  /\ exists rest, vs = w :: rest /\ Forall (λ x, py_eq x w = true) rest.
Proof.
  unfold py_set. destruct (forallb hashable vs) eqn:Hh.
  - destruct vs as [|v vs]; simpl.
    + split; [discriminate | intros [_ (rest & ? & _)]; discriminate].
    + change (set_add [] v) with [v]. split.
      * intros [= H]. apply foldl_set_add_single in H as [-> H].
        split; [reflexivity |]. eauto.
      * intros [_ (rest & [= -> ->] & H)]. f_equal.
        apply foldl_set_add_single. auto.
  - split; [discriminate | intros [? _]; discriminate].
Qed.

(** X4.  Grouping by a key differs from grouping without one at that key
    only.  When no run has the key, the two agree.  Otherwise the values the
    runs hold for it, null included, are collected into a set: an
    unhashable value raises [TypeError], more than one distinct value fails
    the assertion, and a single one is stored in place of the list.  The
    set is a single value exactly when every value is hashable and equal to
    the first. *)
Theorem group_multiple_runs_by_key (key : string) (runs : list Run)
    (lists : gmap string Value) :
  (forall e, RunExtractor e ∈ runs -> exists d, as_dict e = Ok d) ->
  (group_multiple_runs None runs).2 = Ok lists ->
  (key ∉ notions.all_keys runs ->
     (group_multiple_runs (Some key) runs).2 = Ok lists)
  /\ (key ∈ notions.all_keys runs ->
        (group_multiple_runs (Some key) runs).2
        = match py_set (notions.present_values runs key) with
          | Ok [v] => Ok (<[key := v]> lists)
          | Ok _ => Raise AssertionError
          | Raise e => Raise e
          end)
  /\ (forall v, py_set (notions.present_values runs key) = Ok [v] <->
        forallb hashable (notions.present_values runs key) = true
        /\ exists rest, notions.present_values runs key = v :: rest
                        /\ Forall (λ x, py_eq x v = true) rest).
Proof.
  intros Hok Hlists.
  split; [|split; [|intros v; apply py_set_single]].
  - intros Hkey. revert Hlists. unfold group_multiple_runs.
    rewrite (normalise_runs_project runs Hok). simpl.
    pose proof (group_loop_entries None (spec.project <$> runs)
                  (notions.all_keys runs)) as H0.
    pose proof (group_loop_entries (Some key) (spec.project <$> runs)
                  (notions.all_keys runs)) as H1.
    destruct (group_loop None _ _) as [g0|e0]; [|discriminate].
    intros [= ->].
    destruct (group_loop (Some key) _ _) as [g1|e1].
    + f_equal. apply map_eq. intros k. specialize (H0 k). specialize (H1 k).
      case_bool_decide as Hk; [|congruence].
      destruct H0 as (v0 & Hv0 & ->). destruct H1 as (v1 & Hv1 & ->).
      rewrite group_entry_list in Hv0 by discriminate.
      rewrite group_entry_list in Hv1 by (intros [= ->]; contradiction).
      congruence.
    + destruct H1 as (k & Hk & He).
      rewrite group_entry_list in He by (intros [= ->]; contradiction).
      discriminate.
  - intros Hkey. revert Hlists. unfold group_multiple_runs.
    rewrite (normalise_runs_project runs Hok). simpl.
    pose proof (group_loop_entries None (spec.project <$> runs)
                  (notions.all_keys runs)) as H0.
    pose proof (group_loop_entries (Some key) (spec.project <$> runs)
                  (notions.all_keys runs)) as H1.
    destruct (group_loop None _ _) as [g0|e0]; [|discriminate].
    intros [= ->].
    destruct (group_loop (Some key) _ _) as [g1|e1].
    + pose proof (H1 key) as Hk1.
      rewrite bool_decide_eq_true_2 in Hk1 by exact Hkey.
      destruct Hk1 as (v & Hv & Hg1). rewrite group_entry_key in Hv.
      destruct (py_set _) as [[|v' [|w vs]]|e]; try discriminate.
      injection Hv as ->. f_equal. apply map_eq. intros k.
      destruct (decide (k = key)) as [->|Hne].
      * rewrite lookup_insert_eq. exact Hg1.
      * rewrite lookup_insert_ne by congruence.
        specialize (H0 k). specialize (H1 k).
        case_bool_decide as Hk; [|congruence].
        destruct H0 as (v0 & Hv0 & ->). destruct H1 as (v1 & Hv1 & ->).
        rewrite group_entry_list in Hv0 by discriminate.
        rewrite group_entry_list in Hv1 by congruence.
        congruence.
    + destruct H1 as (k & Hk & He).
      destruct (decide (k = key)) as [->|Hne].
      * rewrite group_entry_key in He.
        destruct (py_set _) as [[|v' [|w vs]]|e]; congruence.
      * rewrite group_entry_list in He by congruence. discriminate.
Qed.

(** *** Delta annotation *)

Lemma add_deltas_Forall2 (groups : list (gmap string Value)) :
  forall groups',
    add_deltas_to_grouped_runs groups = Ok groups' ->
    Forall2 (λ g g' : gmap string Value,
               forall k, g' !! k = spec.annotated <$> g !! k) groups groups'.
Proof.
  induction groups as [|g rest IH]; intros groups' H; simpl in H.
  - injection H as <-. constructor.
  - destruct (update_each annotate_entry g) as [g'|e] eqn:Hg; [|discriminate].
    simpl in H.
    destruct (add_deltas_to_grouped_runs rest) as [rest'|e] eqn:Hr;
      [|discriminate].
    simpl in H. injection H as <-. constructor; [|apply IH; reflexivity].
    intros k.
    destruct (update_each_lookup _ _ _ Hg k)
      as [[-> ->]|(v & v' & -> & Hv & ->)]; [reflexivity |].
    simpl. f_equal. apply annotate_entry_annotated. exact Hv.
Qed.

Lemma update_each_raise (f : Value -> result Value) (d : gmap string Value)
    (e : exn) :
  update_each f d = Raise e -> exists k v, d !! k = Some v /\ f v = Raise e.
Proof.
  unfold update_each. generalize d at 1. intros d0.
  apply (map_fold_weak_ind (λ (r : result (gmap string Value))
                              (m : gmap string Value),
    r = Raise e -> exists k v, m !! k = Some v /\ f v = Raise e)).
  - discriminate.
  - intros i x m r Hi IH H. destruct r as [d'|e'].
    + simpl in H. destruct (f x) as [y|e'] eqn:Hx; [discriminate |].
      injection H as ->. exists i, x. rewrite lookup_insert_eq. auto.
    + destruct (IH H) as (k & v & Hk & Hv). exists k, v.
      split; [|exact Hv]. rewrite lookup_insert_ne; [exact Hk | congruence].
Qed.

Lemma annotate_entry_raise (v : Value) (e : exn) :
  annotate_entry v = Raise e -> v = VList [] /\ e = IndexError.
Proof.
  destruct v as [| | | | | | |l| |]; simpl; try discriminate.
  destruct l; [intros [= <-]; auto | discriminate].
Qed.

Lemma add_deltas_no_empty_list (groups : list (gmap string Value)) :
  forall groups',
    add_deltas_to_grouped_runs groups = Ok groups' ->
    forall g k, g ∈ groups -> g !! k <> Some (VList []).
Proof.
  induction groups as [|g0 rest IH]; intros groups' H g k Hg Hk.
  - inversion Hg.
  - simpl in H.
    destruct (update_each annotate_entry g0) as [g'|e] eqn:Hg0;
      [|discriminate].
    simpl in H.
    destruct (add_deltas_to_grouped_runs rest) as [rest'|e] eqn:Hr;
      [|discriminate].
    apply elem_of_cons in Hg as [->|Hg].
    + destruct (update_each_lookup _ _ _ Hg0 k)
        as [[Hn _]|(v & v' & Hv & Hf & _)]; [congruence |].
      rewrite Hk in Hv. injection Hv as <-. discriminate.
    + exact (IH _ eq_refl g k Hg Hk).
Qed.

(** X5.  [add_deltas_to_grouped_runs] keeps the number of groups and the
    keys of each; an entry that is not a list is left as it is; a list
    keeps its length and its first slot, and every later slot becomes a
    [withdelta] around the value it held, with the delta of that value
    against the first slot.  The call raises only [IndexError], and exactly
    when some entry of some group is the empty list. *)
Theorem add_deltas_to_grouped_runs_entries
    (groups : list (gmap string Value)) :
  (forall groups',
     add_deltas_to_grouped_runs groups = Ok groups' ->
     Forall2 (λ g g' : gmap string Value,
       dom g' = dom g
       /\ forall k v, g !! k = Some v ->
            match v with
            | VList l =>
                exists l', g' !! k = Some (VList l')
                  /\ length l' = length l
                  /\ l' !! 0%nat = l !! 0%nat
                  /\ forall i x ref_val, l !! 0%nat = Some ref_val ->
                       l !! S i = Some x ->
                       l' !! S i
                       = Some (VBox x (get_delta_percent ref_val x))
            | _ => g' !! k = Some v
            end) groups groups')
  /\ (forall e, add_deltas_to_grouped_runs groups = Raise e ->
        e = IndexError
        /\ exists g k, g ∈ groups /\ g !! k = Some (VList []))
  /\ ((exists g k, g ∈ groups /\ g !! k = Some (VList [])) ->
      add_deltas_to_grouped_runs groups = Raise IndexError).
Proof.
  assert (Hraise : forall e,
            add_deltas_to_grouped_runs groups = Raise e ->
            e = IndexError
            /\ exists g k, g ∈ groups /\ g !! k = Some (VList [])).
  { induction groups as [|g rest IH]; intros e H; simpl in H;
      [discriminate |].
    destruct (update_each annotate_entry g) as [g'|e'] eqn:Hg.
    - simpl in H.
      destruct (add_deltas_to_grouped_runs rest) as [rest'|e'] eqn:Hr;
        [discriminate |].
      simpl in H. injection H as ->.
      destruct (IH e eq_refl) as (-> & g0 & k & Hg0 & Hk).
      split; [reflexivity |]. exists g0, k. split; [right; exact Hg0 | exact Hk].
    - simpl in H. injection H as ->.
      apply update_each_raise in Hg as (k & v & Hk & Hv).
      apply annotate_entry_raise in Hv as [-> ->].
      split; [reflexivity |]. exists g, k. split; [left | exact Hk]. }
  split; [|split; [exact Hraise |]].
  - intros groups' H. apply add_deltas_Forall2 in H.
    eapply Forall2_impl; [exact H |]. clear. intros g g' H. split.
    + apply set_eq. intros k. rewrite !elem_of_dom, H.
      destruct (g !! k); simpl; split; intros [? ?]; eauto; discriminate.
    + intros k v Hk. rewrite H, Hk. simpl.
      destruct v as [| | | | | | |l| |]; try reflexivity.
      destruct l as [|ref_val items]; simpl.
      * exists []. repeat split; auto. intros i x r Hr. discriminate.
      * eexists. split; [reflexivity |]. split.
        -- simpl. rewrite length_fmap. reflexivity.
        -- split; [reflexivity |].
           intros i x r [= <-] Hi. simpl in Hi |- *.
           rewrite list_lookup_fmap, Hi. reflexivity.
  - intros (g & k & Hg & Hk).
    destruct (add_deltas_to_grouped_runs groups) as [groups'|e] eqn:H.
    + exfalso. exact (add_deltas_no_empty_list _ _ H g k Hg Hk).
    + destruct (Hraise e eq_refl) as [-> _]. reflexivity.
Qed.

(** *** The pipeline of quick_process_multiple_runs *)

(** X6.  Grouping the runs without a group-by key and annotating the result
    always succeeds on runs that are dictionaries, files that were missing
    or scans with a projection: every key present in any run gets a list
    with one slot per run, the first slot holding the value of the first
    run (null where that run lacks the key) and every later slot holding the
    run's value boxed with its delta against that of the first run. *)
Theorem quick_process_multiple_runs_entries (runs : list Run) :
  (forall e, RunExtractor e ∈ runs -> exists d, as_dict e = Ok d) ->
  exists g,
    stats_extractor.quick_process_multiple_runs None runs = Ok g
    /\ dom g = notions.all_keys runs
    /\ forall k, k ∈ notions.all_keys runs ->
         exists l, g !! k = Some (VList l)
           /\ length l = length runs
           /\ l !! 0%nat = notions.slots runs k !! 0%nat
           /\ forall i x ref_val,
                notions.slots runs k !! 0%nat = Some ref_val ->
                notions.slots runs k !! S i = Some x ->
                l !! S i = Some (VBox x (get_delta_percent ref_val x)).
Proof.
  intros Hok. unfold stats_extractor.quick_process_multiple_runs.
  unfold group_multiple_runs.
  rewrite (normalise_runs_project runs Hok). simpl.
  pose proof (group_loop_entries None (spec.project <$> runs)
                (notions.all_keys runs)) as H.
  destruct (group_loop None _ _) as [g|e].
  2:{ destruct H as (k & _ & Hk).
      rewrite group_entry_list in Hk by discriminate. discriminate. }
  assert (Hg : forall k,
            g !! k = if bool_decide (k ∈ notions.all_keys runs)
                     then Some (VList (notions.slots runs k)) else None).
  { intros k. specialize (H k). case_bool_decide; [|exact H].
    destruct H as (v & Hv & ->).
    rewrite group_entry_list in Hv by discriminate. congruence. }
  clear H. simpl.
  assert (Hne : forall k, k ∈ notions.all_keys runs -> runs <> []).
  { intros k Hk ->. unfold notions.all_keys in Hk. simpl in Hk.
    apply elem_of_empty in Hk. exact Hk. }
  destruct (update_each_total annotate_entry g) as [g' Hg'].
  { intros k v Hk. apply annotate_entry_total. intros ->.
    rewrite Hg in Hk. case_bool_decide as Hin; [|discriminate].
    injection Hk as Hk. unfold notions.slots in Hk.
    apply fmap_nil_inv in Hk. exact (Hne k Hin Hk). }
  rewrite Hg'. simpl. exists g'. split; [reflexivity |].
  assert (Hl : forall k, g' !! k = spec.annotated <$> g !! k).
  { intros k.
    destruct (update_each_lookup _ _ _ Hg' k)
      as [[-> ->]|(v & v' & -> & Hv & ->)]; [reflexivity |].
    simpl. f_equal. apply annotate_entry_annotated. exact Hv. }
  split.
  - apply set_eq. intros k. rewrite elem_of_dom, Hl, Hg.
    case_bool_decide; simpl; split; intros Hx; try tauto; eauto.
    destruct Hx; discriminate.
  - intros k Hk. rewrite Hl, Hg, bool_decide_eq_true_2 by exact Hk. simpl.
    destruct (notions.slots runs k) as [|ref_val items] eqn:Hs.
    + exfalso. unfold notions.slots in Hs. apply fmap_nil_inv in Hs.
      exact (Hne k Hk Hs).
    + eexists. split; [reflexivity |].
      assert (Hlen : length (notions.slots runs k) = length runs)
        by apply length_fmap.
      rewrite Hs in Hlen. simpl in Hlen |- *. rewrite length_fmap.
      split; [exact Hlen |]. split; [reflexivity |].
      intros i x r [= <-] Hi. rewrite list_lookup_fmap, Hi. reflexivity.
Qed.

Lemma quick_process_multiple_runs_entries_witness :
  exists g,
    stats_extractor.quick_process_multiple_runs None examples.sample_runs
    = Ok g
    /\ dom g = notions.all_keys examples.sample_runs.
Proof.
  destruct (quick_process_multiple_runs_entries examples.sample_runs
              sample_runs_project) as (g & Hg & Hdom & _).
  exists g. auto.
Defined.

(** *** When a delta is null *)

(** X7.  [get_delta_percent] returns null in exactly two cases: both
    operands are null, or the operands have different types.  Two operands
    of one type that the method does not support (a [long], a list, a
    tuple, a [withdelta]) give NaN, never null. *)
Theorem get_delta_percent_null (v1 v2 : Value) :
  (get_delta_percent v1 v2 = None <->
     (v1 = VNone /\ v2 = VNone) \/ type_of v1 <> type_of v2)
  /\ (type_of v1 = type_of v2 ->
      type_of v1 ∈ [TLong; TList; TTuple; TWithdelta] ->
      get_delta_percent v1 v2 = Some float_nan).
Proof.
  split.
  - unfold get_delta_percent. split.
    + destruct (is_none v1 && is_none v2) eqn:Hn.
      * intros _. left. apply andb_true_iff in Hn as [H1 H2].
        destruct v1, v2; try discriminate. auto.
      * destruct (type_is (type_of v1) (type_of v2)) eqn:Ht; simpl.
        -- repeat match goal with
                  | |- context [if ?b then _ else _] => destruct b
                  end; discriminate.
        -- intros _. right. intros Heq. apply type_is_eq in Heq. congruence.
    + intros [[-> ->]|Hne]; [reflexivity |].
      destruct (is_none v1 && is_none v2); [reflexivity |].
      destruct (type_is (type_of v1) (type_of v2)) eqn:Ht; [|reflexivity].
      apply type_is_eq in Ht. contradiction.
  - intros Heq Hin. unfold get_delta_percent.
    assert (Hn : is_none v1 = false).
    { destruct v1; try reflexivity. simpl in Hin.
      repeat (apply elem_of_cons in Hin as [Hin|Hin]; [discriminate |]).
      inversion Hin. }
    rewrite Hn. simpl.
    apply type_is_eq in Heq. rewrite Heq. simpl.
    assert (Hv : is_valid (type_of v1) v1 = false).
    { destruct v1; try reflexivity; simpl in Hin;
        repeat (apply elem_of_cons in Hin as [Hin|Hin]; [discriminate |]);
        inversion Hin. }
    rewrite Hv. reflexivity.
Qed.

Lemma get_delta_percent_null_witness :
  get_delta_percent (VLong 1) (VLong 2) = Some float_nan.
Proof.
  apply (proj2 (get_delta_percent_null (VLong 1) (VLong 2))).
  - reflexivity.
  - apply elem_of_cons. left. reflexivity.
Defined.

(** *** Operands of the footer statistics *)

Section BoxedOperands.

Variable action : Value -> Value -> result Value.

Lemma expand_binary_unbox_l (n : nat) (v r : Value) (d : option float) :
  is_withdelta v = false ->
  expand_binary n action (VBox v d) r = expand_binary n action v r.
Proof.
  intros Hv. destruct n as [|n]; [reflexivity |].
  destruct v; try discriminate; reflexivity.
Qed.

Lemma expand_binary_unbox_r (n : nat) (l v : Value) (d : option float) :
  is_withdelta v = false ->
  expand_binary n action l (VBox v d) = expand_binary n action l v.
Proof.
  intros Hv. destruct n as [|n]; [reflexivity |].
  destruct v; try discriminate; reflexivity.
Qed.

(** X8.  The combination of two footer operands reads through a
    [withdelta]: an operand boxed once, whatever its delta, combines as the
    value it holds. *)
Theorem call_binary_unboxes (l r v : Value) (d : option float) :
  is_withdelta v = false ->
  call_binary action (VBox v d) r = call_binary action v r
  /\ call_binary action l (VBox v d) = call_binary action l v.
Proof.
  intros Hv. unfold call_binary. split.
  - rewrite expand_binary_unbox_l by exact Hv.
    replace (call_depth (VBox v d)) with (call_depth v); [reflexivity |].
    destruct v; try discriminate; reflexivity.
  - rewrite expand_binary_unbox_r by exact Hv. reflexivity.
Qed.

End BoxedOperands.

Lemma call_binary_unboxes_witness :
  call_binary add_leaf (VBox (VInt 2) (Some float_zero)) (VInt 3)
  = call_binary add_leaf (VInt 2) (VInt 3).
Proof.
  exact (proj1 (call_binary_unboxes add_leaf VNone (VInt 3) (VInt 2)
                  (Some float_zero) eq_refl)).
Defined.

(** *** The keys of the footer *)

Section FooterKeys.

Variable timedelta_of_seconds : float -> result Value.

Lemma footer_field_raise (group : gmap string Value) (e : exn) :
  map_fold footer_field (Raise e) group = Raise e.
Proof.
  apply (map_fold_weak_ind (λ r (_ : gmap string Value), r = Raise e)).
  - reflexivity.
  - intros i x m r _ ->. reflexivity.
Qed.

Lemma footer_group_dom (group s0 m0 : gmap string Value) :
  forall s m,
    map_fold footer_field (Ok (s0, m0)) group
    = Ok (s, m) ->
    dom s = dom s0 ∪ dom group /\ dom m = dom m0 ∪ dom group.
Proof.
  apply (map_fold_weak_ind
           (λ (r : result (gmap string Value * gmap string Value))
              (g : gmap string Value),
              forall s m, r = Ok (s, m) ->
                dom s = dom s0 ∪ dom g /\ dom m = dom m0 ∪ dom g)).
  - intros s m [= <- <-]. rewrite dom_empty_L. split; set_solver.
  - intros i x g r Hi IH s m H.
    destruct r as [[s1 m1]|e]; [|discriminate].
    unfold footer_field in H. simpl in H.
    destruct (IH s1 m1 eq_refl) as [Hs Hm].
    destruct (match s1 !! i with None => Ok x | Some s2 => _ end)
      as [sv|e]; [|discriminate].
    simpl in H.
    destruct (match m1 !! i with None => Ok x | Some m2 => _ end)
      as [mv|e]; [|discriminate].
    simpl in H. injection H as <- <-.
    rewrite !dom_insert_L, Hs, Hm. split; set_solver.
Qed.

Lemma footer_groups_dom (groups : list (gmap string Value)) :
  forall s0 m0 s m,
    footer_groups groups (Ok (s0, m0)) = Ok (s, m) ->
    dom s = dom s0 ∪ ⋃ (dom <$> groups)
    /\ dom m = dom m0 ∪ ⋃ (dom <$> groups).
Proof.
  unfold footer_groups.
  induction groups as [|g rest IH]; intros s0 m0 s m H; simpl in H.
  - injection H as <- <-. simpl. split; set_solver.
  - destruct (map_fold footer_field (Ok (s0, m0)) g)
      as [[s1 m1]|e] eqn:Hg.
    + destruct (footer_group_dom _ _ _ _ _ Hg) as [Hs1 Hm1].
      destruct (IH _ _ _ _ H) as [Hs Hm].
      rewrite Hs, Hm, Hs1, Hm1. simpl. split; set_solver.
    + exfalso. revert H. clear.
      induction rest as [|g' rest IH]; simpl; [discriminate |].
      rewrite footer_field_raise. exact IH.
Qed.

Lemma update_each_dom (f : Value -> result Value) (d d' : gmap string Value) :
  update_each f d = Ok d' -> dom d' = dom d.
Proof.
  intros H. apply set_eq. intros k. rewrite !elem_of_dom.
  destruct (update_each_lookup _ _ _ H k)
    as [[-> ->]|(v & v' & -> & _ & ->)]; split; intros [? ?]; eauto;
    discriminate.
Qed.

(** X9.  The footer is a dictionary with exactly the two entries [max] and
    [avg], and each of them has exactly the keys that occur in some group
    -- none at all when there is no group. *)
Theorem compute_footer_keys (groups : list (gmap string Value))
    (with_delta : bool) (footer : gmap string (gmap string Value)) :
  compute_footer_from_grouped_runs timedelta_of_seconds groups with_delta
  = Ok footer ->
  dom footer = {[ "max"; "avg" ]}
  /\ forall name stats, footer !! name = Some stats ->
       dom stats = ⋃ (dom <$> groups).
Proof.
  unfold compute_footer_from_grouped_runs. intros H.
  destruct (footer_groups groups (Ok (∅, ∅)))
    as [[s m]|e] eqn:Hfg; [|discriminate].
  destruct (footer_groups_dom _ _ _ _ _ Hfg) as [Hs Hm].
  rewrite dom_empty_L, (left_id_L ∅ (∪)) in Hs, Hm.
  simpl in H.
  destruct (update_each _ s) as [sums|e] eqn:Hsums; [|discriminate].
  apply update_each_dom in Hsums. simpl in H.
  assert (Hfin : exists sums' maxes',
            footer = {[ "max" := maxes'; "avg" := sums' ]}
            /\ dom sums' = dom sums /\ dom maxes' = dom m).
  { destruct with_delta.
    - simpl in H.
      destruct (update_each annotate_entry sums) as [sums'|e] eqn:H1;
        [|discriminate].
      simpl in H.
      destruct (update_each annotate_entry m) as [maxes'|e] eqn:H2;
        [|discriminate].
      simpl in H. injection H as <-.
      apply update_each_dom in H1, H2. eauto.
    - simpl in H. injection H as <-. eauto. }
  destruct Hfin as (sums' & maxes' & -> & Hd1 & Hd2). split.
  - rewrite dom_insert_L, dom_singleton_L. reflexivity.
  - intros name stats Hn.
    destruct (decide (name = "max")) as [->|Hne].
    + rewrite lookup_insert_eq in Hn. injection Hn as <-. congruence.
    + rewrite lookup_insert_ne in Hn by congruence.
      apply lookup_singleton_Some in Hn as [_ <-]. congruence.
Qed.



End FooterKeys.

(** *** Strings *)

Lemma string_app_cons (x : ascii) (a b : string) :
  (String x a ++ b)%string = String x (a ++ b)%string.
Proof. reflexivity. Qed.

Lemma string_app_nil (b : string) : (EmptyString ++ b)%string = b.
Proof. reflexivity. Qed.

Lemma string_app_assoc (a b c : string) :
  ((a ++ b) ++ c)%string = (a ++ (b ++ c))%string.
Proof.
  induction a as [|x a IH]; [reflexivity |].
  rewrite !string_app_cons, IH. reflexivity.
Qed.

Lemma string_app_empty (a : string) : (a ++ EmptyString)%string = a.
Proof.
  induction a as [|x a IH]; [reflexivity |].
  rewrite string_app_cons, IH. reflexivity.
Qed.

Lemma lower_char_idemp (c : ascii) : lower_char (lower_char c) = lower_char c.
Proof. destruct c as [[] [] [] [] [] [] [] []]; reflexivity. Qed.

Lemma lower_idemp (s : string) : lower (lower s) = lower s.
Proof.
  induction s as [|c s IH]; simpl; [reflexivity |].
  rewrite lower_char_idemp. f_equal. exact IH.
Qed.

Lemma lower_app (a b : string) :
  lower (a ++ b)%string = (lower a ++ lower b)%string.
Proof.
  induction a as [|x a IH]; [reflexivity |].
  rewrite string_app_cons. simpl. rewrite IH. reflexivity.
Qed.

Lemma last_char_snoc (s : string) (c : ascii) :
  last_char (s ++ String c EmptyString)%string = Ok c.
Proof.
  induction s as [|x s IH]; [reflexivity |].
  rewrite string_app_cons. simpl. rewrite IH.
  destruct s; reflexivity.
Qed.

Lemma drop_last_snoc (s : string) (c : ascii) :
  drop_last (s ++ String c EmptyString)%string = s.
Proof.
  induction s as [|x s IH]; [reflexivity |].
  rewrite string_app_cons. simpl. rewrite IH.
  destruct s; reflexivity.
Qed.

Lemma split_colon_aux_piece (p : string) :
  forall cur rest : string,
    notions.no_colon p = true ->
    split_colon_aux cur (p ++ rest)%string
    = split_colon_aux (cur ++ p)%string rest.
Proof.
  induction p as [|c p IH]; intros cur rest Hp.
  - rewrite string_app_empty. reflexivity.
  - simpl in Hp. apply andb_true_iff in Hp as [Hc Hp].
    apply negb_true_iff in Hc. rewrite string_app_cons. simpl.
    rewrite Hc, IH by exact Hp.
    rewrite string_app_assoc. reflexivity.
Qed.

(** Splitting at the colons undoes joining with colons, for pieces that
    hold no colon. *)
Lemma split_colon_join (pieces : list string) :
  forall (p cur : string),
    notions.no_colon p = true ->
    Forall (λ q, notions.no_colon q = true) pieces ->
    split_colon_aux cur (String.concat ":" (p :: pieces))
    = (cur ++ p)%string :: pieces.
Proof.
  induction pieces as [|q pieces IH]; intros p cur Hp Hall.
  - simpl. rewrite <- (string_app_empty p) at 1.
    rewrite split_colon_aux_piece by exact Hp. reflexivity.
  - inversion Hall as [|? ? Hq Hrest]; subst.
    change (String.concat ":" (p :: q :: pieces))
      with (p ++ String ":"%char (String.concat ":" (q :: pieces)))%string.
    rewrite split_colon_aux_piece by exact Hp.
    cbn [split_colon_aux]. change (Ascii.eqb ":" ":") with true. cbv iota.
    rewrite (IH q EmptyString Hq Hrest). reflexivity.
Qed.

(** *** The duration and memory converters *)

Section ConverterFacts.

Variable parse_float : string -> option float.
Variable make_timedelta : float -> float -> float -> float -> result Value.

Lemma parse_pieces_length (pieces : list string) :
  forall fs, parse_pieces parse_float pieces = Some fs ->
             length fs = length pieces.
Proof.
  induction pieces as [|p rest IH]; intros fs H; simpl in H.
  - injection H as <-. reflexivity.
  - destruct (parse_float p); [|discriminate].
    destruct (parse_pieces parse_float rest) as [fs'|]; [|discriminate].
    injection H as <-. simpl. f_equal. apply IH. reflexivity.
Qed.

(** X11.  The duration converter reads the colon-separated fields from the
    right as seconds, minutes, hours and days, the fields that are not
    written counting as zero.  More than four fields, or a field that
    [float] rejects, give null; nothing else is raised than what the
    [timedelta] constructor raises. *)
Theorem time_converter_fields (p : string) (pieces : list string) :
  notions.no_colon p = true ->
  Forall (λ q, notions.no_colon q = true) pieces ->
  let raw := String.concat ":" (p :: pieces) in
  let convert :=
    TimeConverterExtractor_convert_raw_value parse_float make_timedelta in
  ((3 < length pieces)%nat -> convert raw = Ok VNone)
  /\ (parse_pieces parse_float (p :: pieces) = None ->
      convert raw = Ok VNone)
  /\ (forall fs, parse_pieces parse_float (p :: pieces) = Some fs ->
        (length pieces <= 3)%nat ->
        convert raw
        = match fs with
          | [s] => make_timedelta float_zero float_zero float_zero s
          | [m; s] => make_timedelta float_zero float_zero m s
          | [h; m; s] => make_timedelta float_zero h m s
          | [d; h; m; s] => make_timedelta d h m s
          | _ => Ok VNone
          end).
Proof.
  intros Hp Hall raw convert. subst raw convert.
  unfold TimeConverterExtractor_convert_raw_value, split_colon.
  rewrite (split_colon_join pieces p EmptyString Hp Hall).
  change (EmptyString ++ p)%string with p.
  split; [|split].
  - intros Hlen. simpl length.
    destruct (Nat.ltb_spec 4 (S (length pieces))); [reflexivity | lia].
  - intros ->. destruct (4 <? _)%nat; reflexivity.
  - intros fs Hfs Hlen. rewrite Hfs. simpl length.
    destruct (Nat.ltb_spec 4 (S (length pieces))); [lia |].
    apply parse_pieces_length in Hfs. simpl in Hfs.
    destruct fs as [|a [|b [|c [|d [|x fs]]]]]; simpl in Hfs; try lia;
      reflexivity.
Qed.

Lemma memory_converter_lower (raw : string) :
  MemoryConverterExtractor_convert_raw_value parse_float raw
  = MemoryConverterExtractor_convert_raw_value parse_float (lower raw).
Proof.
  unfold MemoryConverterExtractor_convert_raw_value.
  rewrite lower_idemp. reflexivity.
Qed.

Lemma memory_converter_b (raw : string) :
  last_char (lower raw) <> Ok "b"%char ->
  MemoryConverterExtractor_convert_raw_value parse_float (raw ++ "b")%string
  = MemoryConverterExtractor_convert_raw_value parse_float raw.
Proof.
  intros Hb. unfold MemoryConverterExtractor_convert_raw_value.
  rewrite lower_app. change (lower "b") with "b".
  rewrite last_char_snoc. cbn [bind].
  change (Ascii.eqb "b" "b") with true. cbv iota.
  rewrite drop_last_snoc.
  destruct (last_char (lower raw)) as [c|e] eqn:Hc; [|reflexivity].
  cbn [bind].
  destruct (Ascii.eqb_spec c "b") as [->|Hne]; [congruence |].
  rewrite Hc. reflexivity.
Qed.

Lemma memory_converter_scaled (raw : string) :
  let convert := MemoryConverterExtractor_convert_raw_value parse_float in
  let scaled (factor : float) :=
    match parse_float (lower raw) with
    | None => Raise ValueError
    | Some f => int_of_float (PrimFloat.mul f factor)
    end in
  convert (raw ++ "k")%string = scaled 1000%float
  /\ convert (raw ++ "m")%string = scaled 1000000%float
  /\ convert (raw ++ "g")%string = scaled 1000000000%float.
Proof.
  cbv zeta. unfold MemoryConverterExtractor_convert_raw_value.
  rewrite !lower_app.
  change (lower "k") with "k". change (lower "m") with "m".
  change (lower "g") with "g".
  rewrite !last_char_snoc. cbn [bind].
  change (Ascii.eqb "k" "b") with false.
  change (Ascii.eqb "m" "b") with false.
  change (Ascii.eqb "g" "b") with false. cbv iota.
  rewrite !last_char_snoc. cbn [bind].
  rewrite !drop_last_snoc.
  repeat split; reflexivity.
Qed.

(** X12.  The memory converter ignores the case of its input and one
    trailing [b]; a trailing [k], [m] or [g] scales the number before it by
    a thousand, a million or a billion, and the product is truncated to an
    integer.  A number that [float] rejects raises [ValueError]. *)
Theorem memory_converter_suffixes (raw : string) :
  let convert := MemoryConverterExtractor_convert_raw_value parse_float in
  let scaled (factor : float) :=
    match parse_float (lower raw) with
    | None => Raise ValueError
    | Some f => int_of_float (PrimFloat.mul f factor)
    end in
  convert raw = convert (lower raw)
  /\ (last_char (lower raw) <> Ok "b"%char ->
      convert (raw ++ "b")%string = convert raw
      /\ convert (raw ++ "B")%string = convert raw)
  /\ convert (raw ++ "k")%string = scaled 1000%float
  /\ convert (raw ++ "m")%string = scaled 1000000%float
  /\ convert (raw ++ "g")%string = scaled 1000000000%float.
Proof.
  cbv zeta. split; [apply memory_converter_lower |].
  split; [|apply memory_converter_scaled].
  intros Hb. split; [exact (memory_converter_b raw Hb) |].
  rewrite memory_converter_lower, lower_app.
  change (lower "B") with (lower "b"). rewrite <- lower_app.
  rewrite <- memory_converter_lower. exact (memory_converter_b raw Hb).
Qed.

End ConverterFacts.

(** *** Column descriptors *)

(** X13.  An attribute set for a column is what is read back for it; the
    attributes of the other columns read as before; another attribute of
    the same column reads as before when the column had a descriptor of its
    own, and otherwise reads as the caller's default: the descriptor
    created for the column hides the default descriptor of the class. *)
Theorem set_column_attribute_get (self : TableFilteredBase)
    (col attrib : string) (v d : Attr) :
  let self' := set_column_attribute self col attrib v in
  get_column_attribute self' (Some col) attrib d = v
  /\ (forall col' attrib', col' <> col ->
        get_column_attribute self' (Some col') attrib' d
        = get_column_attribute self (Some col') attrib' d)
  /\ (forall attrib', attrib' <> attrib ->
        get_column_attribute self' (Some col) attrib' d
        = match column_descriptors self !! col with
          | Some descriptor => default d (descriptor !! attrib')
          | None => d
          end).
Proof.
  unfold get_column_attribute, set_column_attribute. simpl.
  split; [|split].
  - rewrite !lookup_insert_eq. reflexivity.
  - intros col' attrib' Hne. rewrite lookup_insert_ne by congruence.
    reflexivity.
  - intros attrib' Hne. rewrite lookup_insert_eq.
    rewrite lookup_insert_ne by congruence.
    destruct (column_descriptors self !! col) as [descriptor|]; simpl.
    + destruct (descriptor !! attrib'); reflexivity.
    + rewrite lookup_empty. reflexivity.
Qed.

Lemma set_column_attribute_get_witness :
  get_column_attribute
    (set_column_attribute (filtered examples.sample_html) "time" "stand_out"
       (AttrBool true))
    (Some "time") "toggle_off" (AttrBool true)
  = AttrBool true.
Proof.
  exact (proj2 (proj2 (set_column_attribute_get (filtered examples.sample_html)
                         "time" "stand_out" (AttrBool true) (AttrBool true)))
           "toggle_off" ltac:(discriminate)).
Defined.

(** *** The header *)

Lemma excluded_spec (self : TableFilteredBase) (col : string) :
  col ∈ filter (λ k, truthy (get_column_attribute self (Some k) "toggle_off"
                               (AttrBool false)) = true)
         (map_to_list (column_descriptors self)).*1
  <-> notions.excluded self col = true.
Proof.
  split.
  - intros H. rewrite list_elem_of_filter in H. destruct H as [Ht Hin].
    apply list_elem_of_fmap in Hin as ([k desc] & -> & Hin).
    apply elem_of_map_to_list in Hin.
    unfold notions.excluded, get_column_attribute in *. simpl in *.
    rewrite Hin in Ht |- *.
    destruct (desc !! "toggle_off"); exact Ht.
  - intros H. rewrite list_elem_of_filter.
    unfold notions.excluded, get_column_attribute in *. simpl in *.
    destruct (column_descriptors self !! col) as [desc|] eqn:Hc;
      [|discriminate].
    split.
    + destruct (desc !! "toggle_off"); exact H.
    + apply list_elem_of_fmap. exists (col, desc). split; [reflexivity |].
      apply elem_of_map_to_list. exact Hc.
Qed.

(** X14.  The header of a filtered table holds exactly the keys of the data
    that are not switched off by their own descriptor.  The columns named
    in [preferred_order] come first, in that order and as often as they are
    named there, then the remaining ones come once each; so the header has
    no repeated column when [preferred_order] has none. *)
Theorem recompute_header_columns (self : TableFilteredBase)
    (all_keys : gset string) :
  (forall col, col ∈ recompute_header self all_keys <->
               col ∈ all_keys /\ notions.excluded self col = false)
  /\ (exists pre rest,
        recompute_header self all_keys = pre ++ rest
        /\ pre = filter (λ col, col ∈ all_keys
                                /\ notions.excluded self col = false)
                   (preferred_order self)
        /\ NoDup rest
        /\ forall col, col ∈ rest -> col ∉ preferred_order self)
  /\ (NoDup (preferred_order self) ->
      NoDup (recompute_header self all_keys)).
Proof.
  unfold recompute_header.
  set (exclude := filter _ (map_to_list (column_descriptors self)).*1).
  assert (Hex : forall col, col ∉ exclude <-> notions.excluded self col = false).
  { intros col. unfold exclude. rewrite excluded_spec.
    destruct (notions.excluded self col); split; congruence. }
  assert (Hpre : filter (λ col, col ∈ all_keys ∧ col ∉ exclude)
                   (preferred_order self)
                 = filter (λ col, col ∈ all_keys
                                  /\ notions.excluded self col = false)
                     (preferred_order self)).
  { apply list_filter_iff. intros col. rewrite Hex. reflexivity. }
  split; [|split].
  - intros col. rewrite elem_of_app, !list_elem_of_filter, elem_of_elements.
    rewrite Hex. split.
    + intros [[[H1 H2] _]|[[H1 _] H2]]; auto.
    + intros [H1 H2].
      destruct (decide (col ∈ preferred_order self)); [left | right]; auto.
  - eexists _, _. split; [reflexivity |]. split; [exact Hpre |]. split.
    + apply NoDup_filter, NoDup_elements.
    + intros col Hin. rewrite list_elem_of_filter in Hin.
      destruct Hin as [[_ H] _]. exact H.
  - intros Hnd. apply NoDup_app. split; [|split].
    + apply NoDup_filter. exact Hnd.
    + intros col H1 H2. rewrite list_elem_of_filter in H1, H2.
      destruct H1 as [_ H1]. destruct H2 as [[_ H2] _]. contradiction.
    + apply NoDup_filter, NoDup_elements.
Qed.

Lemma recompute_header_columns_witness :
  NoDup (recompute_header (filtered examples.sample_html)
           (_all_keys (base (filtered examples.sample_html)))).
Proof.
  apply (proj2 (proj2 (recompute_header_columns
                         (filtered examples.sample_html)
                         (_all_keys (base (filtered examples.sample_html)))))).
  apply NoDup_nil_2.
Defined.

(** X15.  The header of the base class lists every key of the data once,
    in increasing order of the byte strings; it does not depend on the
    order in which the set of keys happens to be enumerated. *)
Theorem base_recompute_header_sorted (all_keys : gset string) :
  StronglySorted String.le (table_formatter.recompute_header all_keys)
  /\ NoDup (table_formatter.recompute_header all_keys)
  /\ (forall k, k ∈ table_formatter.recompute_header all_keys <-> k ∈ all_keys)
  /\ forall l : list string,
       l ≡ₚ elements all_keys ->
       merge_sort String.le l = table_formatter.recompute_header all_keys.
Proof.
  unfold table_formatter.recompute_header.
  split; [|split; [|split]].
  - apply StronglySorted_merge_sort; apply _.
  - rewrite merge_sort_Permutation. apply NoDup_elements.
  - intros k. rewrite merge_sort_Permutation. apply elem_of_elements.
  - intros l Hl. apply (Sorted_unique String.le).
    + apply Sorted_merge_sort. apply _.
    + apply Sorted_merge_sort. apply _.
    + rewrite !merge_sort_Permutation. exact Hl.
Qed.

Lemma base_recompute_header_sorted_witness :
  merge_sort String.le ["time"; "name"]
  = table_formatter.recompute_header {[ "name"; "time" ]}.
Proof.
  apply (proj2 (proj2 (proj2 (base_recompute_header_sorted
                                {[ "name"; "time" ]})))).
  apply NoDup_Permutation.
  - apply NoDup_cons. split; [|apply NoDup_singleton].
    intros H. apply list_elem_of_singleton in H. discriminate.
  - apply NoDup_elements.
  - intros k. rewrite elem_of_elements. set_solver.
Defined.

(** *** The run counts of _get_extra_info *)

Lemma extra_info_key_max (chd0 : gmap string bool) (group : gmap string Value) :
  let st := map_fold extra_info_key (chd0, ∅, -1) group in
  -1 <= st.2
  /\ (forall k v, group !! k = Some v -> spec.runs_in_cell v <= st.2)
  /\ (st.2 = -1
      \/ exists k v, group !! k = Some v /\ spec.runs_in_cell v = st.2).
Proof.
  cbv zeta.
  apply (map_fold_weak_ind (λ (st : gmap string bool * gmap string Z * Z) m,
    -1 <= st.2
    /\ (forall k v, m !! k = Some v -> spec.runs_in_cell v <= st.2)
    /\ (st.2 = -1
        \/ exists k v, m !! k = Some v /\ spec.runs_in_cell v = st.2))).
  - simpl. split; [lia |]. split; [|auto].
    intros k v Hk. rewrite lookup_empty in Hk. discriminate.
  - intros i x m [[chd cell] grp] Hi (IH0 & IH1 & IH2). simpl in IH0, IH1, IH2.
    unfold extra_info_key. cbn [snd].
    change (match x with VList l => Z.of_nat (length l) | _ => -1 end)
      with (spec.runs_in_cell x).
    destruct (Z.ltb_spec grp (spec.runs_in_cell x)) as [Hlt|Hge].
    + split; [lia |]. split.
      * intros k v Hk. destruct (decide (k = i)) as [->|Hne].
        -- rewrite lookup_insert_eq in Hk. injection Hk as <-. lia.
        -- rewrite lookup_insert_ne in Hk by congruence.
           specialize (IH1 k v Hk). lia.
      * right. exists i, x. rewrite lookup_insert_eq. auto.
    + split; [lia |]. split.
      * intros k v Hk. destruct (decide (k = i)) as [->|Hne].
        -- rewrite lookup_insert_eq in Hk. injection Hk as <-. lia.
        -- rewrite lookup_insert_ne in Hk by congruence. exact (IH1 k v Hk).
      * destruct IH2 as [->|(k & v & Hk & Hv)]; [auto |].
        right. exists k, v. split; [|exact Hv].
        rewrite lookup_insert_ne; [exact Hk | congruence].
Qed.

Lemma extra_info_group_counts (self : TableFormatterBase)
    (group : gmap string Value) :
  _all_keys (extra_info_group self group) = _all_keys self ∪ dom group
  /\ length (_num_of_runs_in_cell (extra_info_group self group))
     = S (length (_num_of_runs_in_cell self))
  /\ exists grp : Z,
       _num_of_runs_in_group (extra_info_group self group)
       = _num_of_runs_in_group self ++ [grp]
       /\ -1 <= grp
       /\ (forall k v, group !! k = Some v -> spec.runs_in_cell v <= grp)
       /\ (grp = -1
           \/ exists k v, group !! k = Some v /\ spec.runs_in_cell v = grp).
Proof.
  unfold extra_info_group.
  pose proof (extra_info_key_max (_col_has_delta self) group) as H.
  destruct (map_fold extra_info_key (_col_has_delta self, ∅, -1) group)
    as [[chd cell] grp].
  simpl in *. split; [reflexivity |]. split.
  - rewrite length_app. simpl. lia.
  - exists grp. split; [reflexivity | exact H].
Qed.

Lemma extra_info_fold_counts (groups : list (gmap string Value)) :
  forall self : TableFormatterBase,
    let info := foldl extra_info_group self groups in
    _all_keys info = _all_keys self ∪ ⋃ (dom <$> groups)
    /\ length (_num_of_runs_in_cell info)
       = (length (_num_of_runs_in_cell self) + length groups)%nat
    /\ length (_num_of_runs_in_group info)
       = (length (_num_of_runs_in_group self) + length groups)%nat
    /\ (forall i R, _num_of_runs_in_group self !! i = Some R ->
                    _num_of_runs_in_group info !! i = Some R)
    /\ forall (i : nat) (g : gmap string Value),
         groups !! i = Some g ->
         exists R : Z,
           _num_of_runs_in_group info
             !! (length (_num_of_runs_in_group self) + i)%nat = Some R
           /\ -1 <= R
           /\ (forall k v, g !! k = Some v -> spec.runs_in_cell v <= R)
           /\ (R = -1
               \/ exists k v, g !! k = Some v /\ spec.runs_in_cell v = R).
Proof.
  induction groups as [|g groups IH]; intros self; cbv zeta.
  - simpl. split; [set_solver |]. split; [lia |]. split; [lia |].
    split; [auto |]. intros i g' Hi. discriminate.
  - cbn [foldl].
    destruct (extra_info_group_counts self g)
      as (Hkeys & Hcell & grp & Hgrp & Hprops).
    destruct (IH (extra_info_group self g)) as (IH1 & IH2 & IH3 & IH4 & IH5).
    split; [|split; [|split; [|split]]].
    + rewrite IH1, Hkeys. simpl. set_solver.
    + rewrite IH2, Hcell. simpl. lia.
    + rewrite IH3, Hgrp, length_app. simpl. lia.
    + intros i R Hi. apply IH4. rewrite Hgrp.
      apply lookup_app_l_Some. exact Hi.
    + intros [|i] g' Hi; simpl in Hi.
      * injection Hi as <-. exists grp. split; [|exact Hprops].
        apply IH4. rewrite Hgrp, Nat.add_0_r.
        rewrite lookup_app_r by lia. rewrite Nat.sub_diag. reflexivity.
      * destruct (IH5 i g' Hi) as (R & HR & HRp). exists R.
        split; [|exact HRp].
        rewrite Hgrp, length_app in HR. simpl in HR.
        rewrite <- HR. f_equal. lia.
Qed.

(** X16.  [_get_extra_info] records the union of the keys of all groups,
    body and footer, and one run count per group and one dictionary of cell
    counts per group, in the order body then footer.  The run count of a
    group is the length of its longest list, and -1 when it holds no list
    at all; the count of a cell is the length of its list, -1 for anything
    that is not a list. *)
Theorem get_extra_info_counts (t : TableFormatterBase) :
  let info := _get_extra_info t in
  let groups := table t ++ footer t in
  _all_keys info = ⋃ (dom <$> groups)
  /\ length (_num_of_runs_in_group info) = length groups
  /\ length (_num_of_runs_in_cell info) = length groups
  /\ forall (i : nat) (g : gmap string Value),
       groups !! i = Some g ->
       exists (R : Z) (cells : gmap string Z),
         _num_of_runs_in_group info !! i = Some R
         /\ _num_of_runs_in_cell info !! i = Some cells
         /\ (forall k, cells !! k = spec.runs_in_cell <$> (g !! k))
         /\ (forall k l, g !! k = Some (VList l) -> Z.of_nat (length l) <= R)
         /\ ((forall k l, g !! k <> Some (VList l)) -> R = -1)
         /\ (R <> -1 -> exists k l, g !! k = Some (VList l)
                                    /\ Z.of_nat (length l) = R).
Proof.
  cbv zeta. unfold _get_extra_info.
  set (init := {| table := table t; footer := footer t;
                  footer_names := footer_names t; _all_keys := ∅;
                  _col_has_delta := ∅; _num_of_runs_in_group := [];
                  _num_of_runs_in_cell := [] |}).
  destruct (extra_info_fold_counts (table t ++ footer t) init)
    as (H1 & H2 & H3 & _ & H5).
  destruct (extra_info_fold (table t ++ footer t) init) as (_ & Hcells & _).
  split; [rewrite H1; simpl; set_solver |].
  split; [exact H3 |]. split; [exact H2 |].
  intros i g Hi.
  destruct (H5 i g Hi) as (R & HR & Hlow & Hmax & Hatt).
  destruct (Hcells i g Hi) as (cells & Hc & Hck).
  exists R, cells. simpl in HR, Hc.
  split; [exact HR |]. split; [exact Hc |]. split; [exact Hck |].
  split; [|split].
  - intros k l Hk. exact (Hmax k (VList l) Hk).
  - intros Hno. destruct Hatt as [->|(k & v & Hk & Hv)]; [reflexivity |].
    destruct v as [| | | | | | |l| |]; simpl in Hv; try congruence.
    exfalso. exact (Hno k l Hk).
  - intros Hne. destruct Hatt as [->|(k & v & Hk & Hv)]; [congruence |].
    destruct v as [| | | | | | |l| |]; simpl in Hv; try congruence.
    exists k, l. auto.
Qed.

Lemma get_extra_info_counts_witness :
  exists R, _num_of_runs_in_group (_get_extra_info examples.sample_input)
              !! 0%nat = Some R
            /\ Z.of_nat 2 <= R.
Proof.
  destruct (proj2 (proj2 (proj2 (get_extra_info_counts examples.sample_input)))
              0%nat examples.sample_group eq_refl)
    as (R & cells & HR & _ & _ & Hmax & _).
  exists R. split; [exact HR |].
  apply (Hmax "time" [VInt 10; VBox (VInt 12) (Some 0.2%float)]).
  vm_compute. reflexivity.
Defined.

(** *** What the walk needs of the data *)

Section WalkNeeds.

Variable self : TableFormatterBase.
Variable chd : option string -> result bool.
Variable header : list string.

Lemma columns_lookup (c : nat) (k : string) :
  header !! c = Some k -> columns header !! c = Some (c, k).
Proof.
  intros Hk. unfold columns. apply lookup_zip_with_Some.
  exists c, k. split; [reflexivity |]. split; [|exact Hk].
  apply lookup_seq. split; [reflexivity |].
  apply lookup_lt_Some in Hk. exact Hk.
Qed.

Lemma group_calls_cells (groups : list (gmap string Value)) (T : TableLoc)
    (offset g : nat) (new : list Event) :
  spec.group_calls self header groups T offset g new ->
  exists R,
    _num_of_runs_in_group self !! (g + offset)%nat = Some R
    /\ forall (r c : nat) (k : string),
         (r < Z.to_nat R)%nat -> header !! c = Some k ->
         exists content, cell_content self groups g r k = Ok content.
Proof.
  intros (R & eb & news & ee & HR & _ & _ & _ & HF).
  exists R. split; [exact HR |]. intros r c k Hr Hk.
  assert (Hseq : seq 0 (Z.to_nat R) !! r = Some r).
  { apply lookup_seq. split; [reflexivity | exact Hr]. }
  destruct (Forall2_lookup_l _ _ _ _ _ HF Hseq) as (rowev & _ & Hrow).
  destruct Hrow as (eb' & cnews & ee' & _ & _ & _ & HF').
  destruct (Forall2_lookup_l _ _ _ _ _ HF' (columns_lookup c k Hk))
    as (colev & _ & content & Hc & _).
  exists content. exact Hc.
Qed.

Lemma run_cells (evs : list Event) :
  run self chd header = Ok evs ->
  (forall g, (g < length (table self))%nat ->
     exists R,
       _num_of_runs_in_group self !! g = Some R
       /\ forall (r c : nat) (k : string),
            (r < Z.to_nat R)%nat -> header !! c = Some k ->
            exists content,
              cell_content self (table self) g r k = Ok content)
  /\ (forall g, (g < length (footer self))%nat ->
        exists R,
          _num_of_runs_in_group self !! (g + length (table self))%nat
          = Some R
          /\ forall (r c : nat) (k : string),
               (r < Z.to_nat R)%nat -> header !! c = Some k ->
               exists content,
                 cell_content self (footer self) g r k = Ok content).
Proof.
  intros H. apply run_calls in H
    as (pre & bnews & mid & fnews & post & _ & _ & _ & _ & HFb & HFf).
  split; intros g Hg.
  - assert (Hseq : seq 0 (length (table self)) !! g = Some g).
    { apply lookup_seq. split; [reflexivity | exact Hg]. }
    destruct (Forall2_lookup_l _ _ _ _ _ HFb Hseq) as (new & _ & Hnew).
    apply group_calls_cells in Hnew as (R & HR & Hcells).
    rewrite Nat.add_0_r in HR. eauto.
  - assert (Hseq : seq 0 (length (footer self)) !! g = Some g).
    { apply lookup_seq. split; [reflexivity | exact Hg]. }
    destruct (Forall2_lookup_l _ _ _ _ _ HFf Hseq) as (new & _ & Hnew).
    apply group_calls_cells in Hnew as (R & HR & Hcells). eauto.
Qed.

End WalkNeeds.

Lemma get_extra_info_group (t : TableFormatterBase) (i : nat)
    (g : gmap string Value) :
  (table t ++ footer t) !! i = Some g ->
  exists (R : Z) (cells : gmap string Z),
    _num_of_runs_in_group (_get_extra_info t) !! i = Some R
    /\ _num_of_runs_in_cell (_get_extra_info t) !! i = Some cells
    /\ (forall k, cells !! k = spec.runs_in_cell <$> (g !! k))
    /\ (forall k v, g !! k = Some v -> spec.runs_in_cell v <= R)
    /\ table (_get_extra_info t) = table t
    /\ footer (_get_extra_info t) = footer t.
Proof.
  intros Hi. unfold _get_extra_info.
  set (init := {| table := table t; footer := footer t;
                  footer_names := footer_names t; _all_keys := ∅;
                  _col_has_delta := ∅; _num_of_runs_in_group := [];
                  _num_of_runs_in_cell := [] |}).
  destruct (extra_info_fold_counts (table t ++ footer t) init)
    as (_ & _ & _ & _ & H5).
  destruct (extra_info_fold (table t ++ footer t) init)
    as (_ & Hcells & Ht & Hf & _).
  destruct (H5 i g Hi) as (R & HR & _ & Hmax & _).
  destruct (Hcells i g Hi) as (cells & Hc & Hck).
  exists R, cells. simpl in HR, Hc. auto 10.
Qed.

(** X17.  The walk of a table completes only if, in every body group, the
    lists that are not empty and stand under a column of the header all
    have the same length, the number of rows of the group: a shorter list
    is indexed past its end. *)
Theorem walk_needs_lists_of_equal_length (t : TableFormatterBase)
    (chd : option string -> result bool) (header : list string)
    (evs : list Event) :
  run (_get_extra_info t) chd header = Ok evs ->
  forall (g : nat) (group : gmap string Value),
    table t !! g = Some group ->
    exists R,
      _num_of_runs_in_group (_get_extra_info t) !! g = Some R
      /\ forall k l, k ∈ header -> group !! k = Some (VList l) -> l <> [] ->
           Z.of_nat (length l) = R.
Proof.
  intros Hrun g group Hg.
  destruct (get_extra_info_group t g group) as
    (R & cells & HR & Hc & Hck & Hmax & Ht & _).
  { apply lookup_app_l_Some. exact Hg. }
  exists R. split; [exact HR |]. intros k l Hk Hl Hne.
  pose proof (Hmax k (VList l) Hl) as Hle. simpl in Hle.
  apply Z.le_antisymm; [exact Hle |].
  destruct (proj1 (run_cells _ chd header evs Hrun) g) as (R' & HR' & Hcells).
  { rewrite Ht. apply lookup_lt_Some in Hg. exact Hg. }
  rewrite HR in HR'. injection HR' as <-.
  apply list_elem_of_lookup in Hk as [c Hc'].
  assert (Hpos : (0 < length l)%nat) by (destruct l; [congruence | simpl; lia]).
  destruct (Hcells (Z.to_nat R - 1)%nat c k) as [content Hcont];
    [lia | exact Hc' |].
  unfold cell_content in Hcont. rewrite Ht, Hg, Hl, Hc, Hck, Hl in Hcont.
  simpl in Hcont.
  destruct (Z.ltb_spec 0 (Z.of_nat (length l))) as [_|]; [|lia].
  destruct (l !! (Z.to_nat R - 1)%nat) as [x|] eqn:Hx; [|discriminate].
  apply lookup_lt_Some in Hx. lia.
Qed.

Lemma walk_needs_lists_of_equal_length_witness :
  exists R,
    _num_of_runs_in_group (_get_extra_info examples.sample_input) !! 0%nat
    = Some R
    /\ forall k l, k ∈ ["name"; "time"] ->
         examples.sample_group !! k = Some (VList l) -> l <> [] ->
         Z.of_nat (length l) = R.
Proof.
  assert (H : exists evs,
            run (_get_extra_info examples.sample_input)
              (base_column_has_delta (_get_extra_info examples.sample_input))
              ["name"; "time"] = Ok evs).
  { eexists. vm_compute. reflexivity. }
  destruct H as [evs H].
  exact (walk_needs_lists_of_equal_length examples.sample_input _ _ evs H
           0%nat examples.sample_group eq_refl).
Defined.

(** X18.  For a cell of a footer group the walk looks the run count up
    under the index of the footer group, which is where the count of a body
    group stands: the footer index is not shifted by the number of body
    groups.  So when the group standing at that index, counting body groups
    first, lacks a key that the footer group has under a column of the
    header, and the footer group has rows, the walk does not complete. *)
Theorem walk_footer_reads_counts_unshifted (t : TableFormatterBase)
    (chd : option string -> result bool) (header : list string)
    (g c : nat) (k : string) (fg bg : gmap string Value) (R : Z) :
  footer t !! g = Some fg ->
  (table t ++ footer t) !! g = Some bg ->
  header !! c = Some k ->
  is_Some (fg !! k) ->
  bg !! k = None ->
  _num_of_runs_in_group (_get_extra_info t) !! (g + length (table t))%nat
  = Some R ->
  0 < R ->
  forall evs, run (_get_extra_info t) chd header <> Ok evs.
Proof.
  intros Hfg Hbg Hk [entry Hentry] Hmiss HR Hpos evs Hrun.
  destruct (get_extra_info_group t g bg Hbg) as
    (R0 & cells & _ & Hc & Hck & _ & Ht & Hf).
  destruct (proj2 (run_cells _ chd header evs Hrun) g) as (R' & HR' & Hcells).
  { rewrite Hf. apply lookup_lt_Some in Hfg. exact Hfg. }
  rewrite Ht, HR in HR'. injection HR' as <-.
  destruct (Hcells 0%nat c k) as [content Hcont]; [lia | exact Hk |].
  unfold cell_content in Hcont.
  rewrite Hf, Hfg, Hentry, Hc, Hck, Hmiss in Hcont. discriminate.
Qed.

Lemma walk_footer_reads_counts_unshifted_witness :
  exists e,
    table_formatter.run (_get_extra_info notions.uneven_table) = Raise e.
Proof.
  destruct (table_formatter.run (_get_extra_info notions.uneven_table))
    as [evs|e] eqn:Hrun; [exfalso | exists e; reflexivity].
  revert Hrun. unfold table_formatter.run.
  apply (walk_footer_reads_counts_unshifted notions.uneven_table _ _
           0%nat 1%nat "b"
           {[ "a" := VList [VInt 1; VInt 2]; "b" := VList [VInt 3; VInt 4] ]}
           {[ "a" := VList [VInt 1; VInt 2] ]} 2).
  - reflexivity.
  - reflexivity.
  - vm_compute. reflexivity.
  - eexists. vm_compute. reflexivity.
  - vm_compute. reflexivity.
  - vm_compute. reflexivity.
  - lia.
Defined.

(** *** The sequence of hooks *)

Section WalkHooks.

Variable self : TableFormatterBase.
Variable chd : option string -> result bool.
Variable header : list string.

Lemma join_hooks {A} (hs : list Hook) (xs : list A)
    (news : list (list Event)) :
  Forall2 (λ _ new, new.*1 = hs) xs news ->
  (mjoin news).*1 = mjoin (replicate (length xs) hs).
Proof.
  induction 1 as [|x new xs news Hx _ IH]; [reflexivity |].
  simpl. rewrite fmap_app, Hx, IH. reflexivity.
Qed.

Lemma columns_length : length (columns header) = length header.
Proof.
  unfold columns. rewrite length_zip_with, length_seq. lia.
Qed.

Lemma walk_cell_hooks (h : Hook) (f : Location -> Location) (w : Walk) :
  exists new, (walk_cell (call h f w)).2 = w.2 ++ new
              /\ new.*1 = h :: [BeginValue; ProcessValue; EndValue;
                                BeginDelta; ProcessDelta; EndDelta; EndCol].
Proof.
  destruct w as [loc evs]. eexists. split.
  - unfold walk_cell, call. simpl. rewrite <- !app_assoc. reflexivity.
  - reflexivity.
Qed.

Lemma walk_row_hooks (groups : list (gmap string Value)) (g r : nat)
    (w w' : Walk) :
  walk_row self chd header groups g (Ok w) r = Ok w' ->
  exists new, w'.2 = w.2 ++ new
              /\ new.*1 = notions.row_hooks (length header).
Proof.
  intros H. unfold walk_row in H. simpl in H.
  destruct (foldl _ _ _) as [w1|e] eqn:Hf in H; [|discriminate].
  simpl in H. injection H as <-.
  apply (foldl_walk _ (λ _, True) (λ _ new, new.*1 = spec.cell_hooks)) in Hf.
  - destruct Hf as (_ & news & Hnews & HF).
    eexists. split.
    + rewrite call_events. cbn [snd]. rewrite Hnews, call_events. cbn [snd].
      rewrite <- !app_assoc. reflexivity.
    + unfold Event in *.
      rewrite !fmap_app, (join_hooks _ _ _ HF), columns_length.
      reflexivity.
  - reflexivity.
  - intros w0 c w0' _ Hs. split; [exact I |].
    unfold walk_col in Hs. simpl in Hs.
    destruct (cell_content self groups g r c.2) as [content|e];
      [|discriminate].
    simpl in Hs. destruct (chd (Some c.2)) as [has|e]; [|discriminate].
    simpl in Hs. injection Hs as <-. apply walk_cell_hooks.
  - exact I.
Qed.

Lemma walk_group_hooks (groups : list (gmap string Value)) (offset g : nat)
    (w w' : Walk) :
  walk_group self chd header groups offset (Ok w) g = Ok w' ->
  exists new, w'.2 = w.2 ++ new
    /\ exists R, _num_of_runs_in_group self !! (g + offset)%nat = Some R
                 /\ new.*1 = notions.group_hooks (length header) R.
Proof.
  intros H. unfold walk_group in H. simpl in H.
  destruct (_num_of_runs_in_group self !! (g + offset)%nat)
    as [R|] eqn:HR; [|discriminate].
  simpl in H.
  destruct (foldl _ _ _) as [w1|e] eqn:Hf in H; [|discriminate].
  simpl in H. injection H as <-.
  apply (foldl_walk _ (λ _, True)
           (λ _ new, new.*1 = notions.row_hooks (length header))) in Hf.
  - destruct Hf as (_ & news & Hnews & HF).
    eexists. split.
    + rewrite call_events. cbn [snd]. rewrite Hnews, call_events. cbn [snd].
      rewrite <- !app_assoc. reflexivity.
    + exists R. split; [reflexivity |].
      unfold Event in *.
      rewrite !fmap_app, (join_hooks _ _ _ HF), length_seq.
      reflexivity.
  - reflexivity.
  - intros w0 r w0' _ Hs. split; [exact I |].
    exact (walk_row_hooks groups g r w0 w0' Hs).
  - exact I.
Qed.

Lemma join_group_hooks (offset : nat) (n : nat) :
  forall (j : nat) (news : list (list Event)),
    Forall2 (λ g new, exists R,
               _num_of_runs_in_group self !! (g + offset)%nat = Some R
               /\ new.*1 = notions.group_hooks (length header) R)
      (seq j n) news ->
    (mjoin news).*1
    = mjoin (notions.group_hooks (length header)
               <$> take n (drop (j + offset) (_num_of_runs_in_group self))).
Proof.
  induction n as [|n IH]; intros j news HF.
  - inversion HF. reflexivity.
  - cbn [seq] in HF. inversion HF as [|? new ? news' (R & HR & Hnew) HF']; subst.
    rewrite join_cons. unfold Event in *. rewrite fmap_app, Hnew.
    rewrite (drop_S _ _ _ HR). cbn [take]. rewrite fmap_cons, join_cons.
    f_equal. rewrite (IH (S j) news' HF'). reflexivity.
Qed.

Lemma process_groups_hooks (groups : list (gmap string Value)) (offset : nat)
    (w w' : Walk) :
  process_groups self chd header groups offset w = Ok w' ->
  exists new, w'.2 = w.2 ++ new
    /\ new.*1
       = mjoin (notions.group_hooks (length header)
                  <$> take (length groups)
                        (drop offset (_num_of_runs_in_group self))).
Proof.
  intros H. unfold process_groups in H.
  apply (foldl_walk _ (λ _, True)
           (λ g new, exists R,
              _num_of_runs_in_group self !! (g + offset)%nat = Some R
              /\ new.*1 = notions.group_hooks (length header) R)) in H.
  - destruct H as (_ & news & Hnews & HF).
    exists (mjoin news). split; [exact Hnews |].
    exact (join_group_hooks offset _ 0%nat news HF).
  - reflexivity.
  - intros w0 g w0' _ Hs. split; [exact I |].
    exact (walk_group_hooks groups offset g w0 w0' Hs).
  - exact I.
Qed.

Lemma walk_header_hooks (w : Walk) :
  walk_header chd header = Ok w ->
  w.2.*1 = [BeginTable; BeginHeader] ++ notions.row_hooks (length header)
           ++ [EndHeader; BeginBody].
Proof.
  unfold walk_header. intros H.
  destruct (foldl _ _ _) as [w1|e] eqn:Hf in H; [|discriminate].
  simpl in H. injection H as <-.
  apply (foldl_walk _ (λ _, True) (λ _ new, new.*1 = spec.cell_hooks)) in Hf.
  - destruct Hf as (_ & news & Hnews & HF).
    rewrite !call_events. cbn [fst snd]. rewrite Hnews.
    rewrite !call_events. cbn [fst snd]. unfold Event in *.
    rewrite !fmap_app, (join_hooks _ _ _ HF), columns_length.
    unfold notions.row_hooks. simpl. rewrite <- !app_assoc. reflexivity.
  - reflexivity.
  - intros w0 c w0' _ Hs. split; [exact I |].
    unfold walk_header_col in Hs. simpl in Hs.
    destruct (chd (Some c.2)) as [has|e]; [|discriminate].
    simpl in Hs. injection Hs as <-. apply walk_cell_hooks.
  - exact I.
Qed.

(** X19.  A walk that completes calls the hooks in the order of the
    documented call stack, and which hooks are called depends on nothing
    but the number of columns of the header and the run counts of the
    groups: the header row, then for every body group its rows between
    [begin_group] and [end_group], then the same for every footer group,
    every row holding the eight cell hooks once per column. *)
Theorem walk_hook_sequence (evs : list Event) :
  run self chd header = Ok evs ->
  evs.*1
  = notions.walk_hooks (length header)
      (take (length (table self)) (_num_of_runs_in_group self))
      (take (length (footer self))
         (drop (length (table self)) (_num_of_runs_in_group self))).
Proof.
  unfold run, walk_body. intros H.
  destruct (walk_header chd header) as [w0|e] eqn:Hh; [|discriminate].
  simpl in H.
  destruct (process_groups self chd header (table self) 0 w0)
    as [w1|e] eqn:Hb; [|discriminate].
  simpl in H.
  destruct (process_groups self chd header (footer self) _ _)
    as [w2|e] eqn:Hf in H; [|discriminate].
  simpl in H. injection H as <-.
  apply walk_header_hooks in Hh.
  apply process_groups_hooks in Hb as (bnew & Hbn & Hbh).
  apply process_groups_hooks in Hf as (fnew & Hfn & Hfh).
  rewrite ?call_events. cbn [fst snd].
  rewrite Hfn. rewrite ?call_events. cbn [fst snd]. rewrite Hbn.
  unfold Event in *.
  rewrite !fmap_app, Hh, Hbh, Hfh. unfold notions.walk_hooks.
  rewrite drop_0. simpl. rewrite <- !app_assoc. reflexivity.
Qed.

End WalkHooks.

Lemma walk_hook_sequence_witness :
  exists evs,
    run (_get_extra_info examples.sample_input)
      (base_column_has_delta (_get_extra_info examples.sample_input))
      ["name"; "time"] = Ok evs
    /\ evs.*1 = notions.walk_hooks 2 [2] [2; 2].
Proof.
  assert (H : exists evs,
            run (_get_extra_info examples.sample_input)
              (base_column_has_delta (_get_extra_info examples.sample_input))
              ["name"; "time"] = Ok evs).
  { eexists. vm_compute. reflexivity. }
  destruct H as [evs H]. exists evs. split; [exact H |].
  exact (walk_hook_sequence _ _ _ evs H).
Defined.

(** *** The cache of stand-out classes *)

(** X20.  The class cached for a cell is keyed by the indices of the group,
    the run and the column alone.  Once a lookup has been made for a cell,
    every later lookup at the same indices returns the class found then and
    leaves the formatter as it is, whatever delta, column name or table
    section the later location carries: a footer cell gets the class of the
    body cell with the same indices. *)
Theorem stand_out_class_cache_hit (self : HTMLSheetFormatter)
    (loc loc' : Location) :
  n_group loc' = n_group loc -> n_run loc' = n_run loc ->
  n_col loc' = n_col loc ->
  let first := _get_stand_out_class_from_cache self loc in
  _get_stand_out_class_from_cache first.2 loc' = first
  /\ filtered first.2 = filtered self
  /\ _indent first.2 = _indent self.
Proof.
  intros Hg Hr Hc. cbv zeta. unfold _get_stand_out_class_from_cache.
  rewrite Hg, Hr, Hc.
  destruct (_stand_out_class_cache self !! (n_group loc, n_run loc, n_col loc))
    as [c|] eqn:Hhit; simpl.
  - rewrite Hhit. auto.
  - rewrite lookup_insert_eq. auto.
Qed.

Lemma stand_out_class_cache_hit_witness :
  let body := update_col (VInt 12) (Some 0.2%float) 2 (Some true) 1
                (Some "time")
                (update_n_run 1
                   (update_group 0 2
                      (update_loc_in_table (Some LOC_IN_TABLE_BODY)
                         new_location))) in
  let foot := update_col (VInt 12) None 2 (Some true) 1 (Some "time")
                (update_loc_in_table (Some LOC_IN_TABLE_FOOTER) body) in
  (_get_stand_out_class_from_cache
     (_get_stand_out_class_from_cache examples.sample_html body).2 foot).1
  = Some "danger"
  /\ get_stand_out_class examples.sample_html foot = Some "muted".
Proof.
  intros body foot. split; [|reflexivity].
  rewrite (proj1 (stand_out_class_cache_hit examples.sample_html body foot
                    eq_refl eq_refl eq_refl)).
  vm_compute. reflexivity.
Defined.

(** *** The indentation of the HTML visitor *)

Section HtmlIndent.

Variable quick_html_escape : Value -> string.
Variable py_str : Value -> string.
Variable format_percent : float -> string.
Variable difference_text : Value -> Value -> option string.

Lemma cache_lookup_frame (self : HTMLSheetFormatter) (loc : Location) :
  filtered (_get_stand_out_class_from_cache self loc).2 = filtered self
  /\ _indent (_get_stand_out_class_from_cache self loc).2 = _indent self.
Proof.
  unfold _get_stand_out_class_from_cache.
  destruct (_stand_out_class_cache self !! _); simpl; auto.
Qed.

Lemma begin_value_builder_frame (self self' : HTMLSheetFormatter)
    (loc : Location) (b : option TagBuilder) :
  begin_value_builder self loc = Ok (b, self') ->
  filtered self' = filtered self /\ _indent self' = _indent self
  /\ (b = None <-> spans_group loc && negb (n_run loc =? 0) = true).
Proof.
  unfold begin_value_builder.
  destruct (if in_table loc LOC_IN_TABLE_HDR then _ else _) as [builder|e];
    [|discriminate].
  cbn [bind].
  destruct (spans_group loc) eqn:Hs; cbn [andb].
  - destruct (n_run loc =? 0) eqn:Hr; cbn [negb].
    + destruct (column_has_delta (filtered self) (col_name loc)) as [has|e];
        [|discriminate].
      cbn [bind].
      destruct (truthy _).
      * destruct (negb (in_table loc LOC_IN_TABLE_HDR)).
        -- pose proof (cache_lookup_frame self loc) as [Hf Hi].
           destruct (_get_stand_out_class_from_cache self loc) as [c s1].
           simpl in Hf, Hi.
           destruct c as [c|]; [destruct (negb (String.eqb c "muted")) |];
             intros [= <- <-]; repeat split; auto; intros; discriminate.
        -- intros [= <- <-]. repeat split; auto; intros; discriminate.
      * intros [= <- <-]. repeat split; auto; intros; discriminate.
    + intros [= <- <-]. repeat split; auto.
  - destruct (truthy _).
    + destruct (negb (in_table loc LOC_IN_TABLE_HDR)).
      * pose proof (cache_lookup_frame self loc) as [Hf Hi].
        destruct (_get_stand_out_class_from_cache self loc) as [c s1].
        simpl in Hf, Hi.
        destruct c as [c|]; [destruct (negb (String.eqb c "muted")) |];
          intros [= <- <-]; repeat split; auto; intros; discriminate.
      * intros [= <- <-]. repeat split; auto; intros; discriminate.
    + intros [= <- <-]. repeat split; auto; intros; discriminate.
Qed.

Lemma delta_skipped_shown (self : HTMLSheetFormatter) (loc : Location)
    (b : bool) :
  html.delta_skipped self loc = Ok b ->
  notions.delta_shown (filtered self) loc = negb b.
Proof.
  unfold html.delta_skipped, notions.delta_shown.
  destruct (column_has_delta (filtered self) (col_name loc)) as [has|e];
    [|discriminate].
  cbn [bind]. destruct has; cbn [negb orb andb].
  - destruct (in_table loc LOC_IN_TABLE_HDR); cbn [negb andb];
      intros [= <-]; [reflexivity |].
    destruct (spans_group loc && (0 <? n_run loc)); reflexivity.
  - intros [= <-]. reflexivity.
Qed.

Lemma get_delta_text_frame (self self' : HTMLSheetFormatter) (loc : Location)
    (text : option string) (cls : option (list string)) :
  html.get_delta_text_and_classes format_percent difference_text self loc
  = Ok (text, cls, self') ->
  filtered self' = filtered self /\ _indent self' = _indent self.
Proof.
  unfold html.get_delta_text_and_classes.
  pose proof (cache_lookup_frame self loc) as [Hf Hi].
  destruct (_get_stand_out_class_from_cache self loc) as [c s1].
  simpl in Hf, Hi. destruct c as [c|].
  - pose proof (cache_lookup_frame s1 loc) as [Hf' Hi'].
    destruct (_get_stand_out_class_from_cache s1 loc) as [c' s2].
    simpl in Hf', Hi'. destruct c' as [c'|]; [|discriminate].
    intros [= _ _ <-]. split; congruence.
  - intros [= _ _ <-]. auto.
Qed.

(** What a hook that returns does to the formatter: the column descriptors
    and the data stay as they are, and the indentation level changes by the
    amount [indent_change] tells. *)
Lemma hook_effect (h : Hook) (self self' : HTMLSheetFormatter)
    (loc : Location) (o : option string) :
  html.hook quick_html_escape py_str format_percent difference_text h self loc
  = Ok (o, self') ->
  filtered self' = filtered self
  /\ _indent self' = _indent self + notions.indent_change (filtered self) h loc.
Proof.
  destruct h; cbn [html.hook notions.indent_change].
  - (* begin_table *) intros [= _ <-]. simpl. auto.
  - (* begin_header *) intros [= _ <-]. simpl. auto.
  - (* begin_body *) intros [= _ <-]. split; [reflexivity | lia].
  - (* begin_footer *) intros [= _ <-]. simpl. auto.
  - (* begin_group *) unfold html.begin_group.
    destruct (in_table loc LOC_IN_TABLE_BODY); cbn [negb];
      intros [= _ <-]; simpl; split; auto; lia.
  - (* begin_row *) unfold html.begin_row.
    destruct (in_table loc LOC_IN_TABLE_FOOTER && (n_run loc =? 0));
      intros [= _ <-]; simpl; auto.
  - (* begin_col *) intros [= _ <-]. split; [reflexivity | lia].
  - (* begin_value *) unfold begin_value.
    destruct (begin_value_builder self loc) as [[b s1]|e] eqn:Hb;
      [|discriminate].
    apply begin_value_builder_frame in Hb as (Hf & Hi & Hnone).
    cbn [bind fst snd].
    destruct b as [builder|].
    + intros [= _ <-]. simpl.
      destruct (spans_group loc && negb (n_run loc =? 0)) eqn:Hs.
      * discriminate (proj2 Hnone eq_refl).
      * split; [exact Hf | lia].
    + intros [= _ <-].
      rewrite (proj1 Hnone eq_refl). split; [exact Hf | lia].
  - (* begin_delta *) unfold html.begin_delta.
    destruct (html.delta_skipped self loc) as [skipped|e] eqn:Hs;
      [|discriminate].
    rewrite (delta_skipped_shown _ _ _ Hs). cbn [bind].
    destruct skipped; cbn [negb].
    + intros [= _ <-]. split; [reflexivity | lia].
    + destruct (truthy _).
      * pose proof (cache_lookup_frame self loc) as [Hf Hi].
        destruct (_get_stand_out_class_from_cache self loc) as [c s1].
        simpl in Hf, Hi.
        destruct c as [c|]; [destruct (negb (String.eqb c "muted")) |];
          intros [= _ <-]; simpl; split; auto; lia.
      * intros [= _ <-]. simpl. auto.
  - (* process_value *) unfold process_value.
    destruct (spans_group loc && (0 <? n_run loc)).
    + intros [= _ <-]. split; [reflexivity | lia].
    + destruct (if negb (in_table loc LOC_IN_TABLE_HDR) then _ else _)
        as [v|e]; [|discriminate].
      cbn [bind].
      destruct (if in_table loc LOC_IN_TABLE_FOOTER && _ && _ then _ else _)
        as [v'|e]; [|discriminate].
      cbn [bind].
      destruct (is_none v'); intros [= _ <-]; split; auto; lia.
  - (* process_delta *) unfold html.process_delta.
    destruct (html.delta_skipped self loc) as [skipped|e]; [|discriminate].
    cbn [bind]. destruct skipped.
    + intros [= _ <-]. split; [reflexivity | lia].
    + destruct (n_run loc =? 0).
      * intros [= _ <-]. split; [reflexivity | lia].
      * destruct (html.get_delta_text_and_classes _ _ self loc)
          as [[[text cls] s1]|e] eqn:Ht; [|discriminate].
        apply get_delta_text_frame in Ht as [Hf Hi].
        cbn [bind]. destruct text as [text|].
        -- destruct (TagBuilder_run quick_html_escape _) as [[op bd] cl].
           destruct bd; [|discriminate].
           intros [= _ <-]. split; [exact Hf | lia].
        -- intros [= _ <-]. split; [exact Hf | lia].
  - (* end_delta *) unfold html.end_delta.
    destruct (html.delta_skipped self loc) as [skipped|e] eqn:Hs;
      [|discriminate].
    rewrite (delta_skipped_shown _ _ _ Hs). cbn [bind].
    destruct skipped; cbn [negb]; intros [= _ <-]; simpl; split; auto; lia.
  - (* end_value *) unfold end_value.
    destruct (spans_group loc && (0 <? n_run loc));
      intros [= _ <-]; simpl; split; auto; lia.
  - (* end_col *) intros [= _ <-]. split; [reflexivity | lia].
  - (* end_row *) intros [= _ <-]. simpl. auto.
  - (* end_group *) unfold html.end_group.
    destruct (in_table loc LOC_IN_TABLE_BODY); cbn [negb];
      intros [= _ <-]; simpl; split; auto; lia.
  - (* end_body *) intros [= _ <-]. split; [reflexivity | lia].
  - (* end_footer *) intros [= _ <-]. simpl. auto.
  - (* end_header *) intros [= _ <-]. simpl. auto.
  - (* end_table *) intros [= _ <-]. simpl. auto.
Qed.

End HtmlIndent.

Section HtmlRun.

Variable quick_html_escape : Value -> string.
Variable py_str : Value -> string.
Variable format_percent : float -> string.
Variable difference_text : Value -> Value -> option string.

Lemma visit_effect (h : Hook) (update : Location -> Location)
    (w w' : visitor.Visit HTMLSheetFormatter) :
  visitor.visit _
    (html.hook quick_html_escape py_str format_percent difference_text)
    h update w = Ok w' ->
  w'.1.1 = update w.1.1
  /\ filtered w'.1.2 = filtered w.1.2
  /\ _indent w'.1.2
     = _indent w.1.2
       + notions.indent_change (filtered w.1.2) h (update w.1.1).
Proof.
  unfold visitor.visit.
  destruct (html.hook _ _ _ _ h w.1.2 (update w.1.1)) as [[o s1]|e] eqn:Hh;
    [|discriminate].
  apply hook_effect in Hh as [Hf Hi].
  cbn [bind]. intros [= <-]. simpl. auto.
Qed.

Lemma foldl_visit {A}
    (step : result (visitor.Visit HTMLSheetFormatter) -> A
            -> result (visitor.Visit HTMLSheetFormatter))
    (I : visitor.Visit HTMLSheetFormatter -> Prop) :
  (forall e a, step (Raise e) a = Raise e) ->
  (forall w a w', I w -> step (Ok w) a = Ok w' -> I w') ->
  forall (xs : list A) (w w' : visitor.Visit HTMLSheetFormatter),
    I w -> foldl step (Ok w) xs = Ok w' -> I w'.
Proof.
  intros Hraise Hstep xs.
  induction xs as [|a xs IH]; intros w w' HI H; cbn [foldl] in H.
  - injection H as <-. exact HI.
  - destruct (step (Ok w) a) as [w1|e] eqn:H1.
    + exact (IH w1 w' (Hstep w a w1 HI H1) H).
    + exfalso. clear -H Hraise.
      assert (Hr : forall ys, foldl step (Raise e) ys = Raise e).
      { induction ys as [|y ys IHy]; simpl; [reflexivity |].
        rewrite Hraise. exact IHy. }
      rewrite Hr in H. discriminate.
Qed.

(** The hooks of one cell leave the indentation where it was: the value
    and the delta are each closed exactly when they were opened. *)
Lemma visit_cell_level (f : TableFilteredBase) (n : Z)
    (w w' : visitor.Visit HTMLSheetFormatter) :
  notions.at_level f n w ->
  0 <= n_run w.1.1 \/ num_of_runs_in_group w.1.1 <= 0 ->
  visitor.visit_cell _
    (html.hook quick_html_escape py_str format_percent difference_text) w
  = Ok w' ->
  notions.at_level f n w'
  /\ loc_in_table w'.1.1 = loc_in_table w.1.1
  /\ n_run w'.1.1 = n_run w.1.1
  /\ num_of_runs_in_group w'.1.1 = num_of_runs_in_group w.1.1.
Proof.
  intros [Hf Hn] Hrow H. unfold visitor.visit_cell in H.
  repeat match type of H with
         | context [visitor.visit ?S ?hk ?h ?u ?x] =>
             let Hv := fresh "Hv" in
             destruct (visitor.visit S hk h u x) as [?w|?] eqn:Hv;
             [|discriminate H];
             cbn [bind] in H;
             apply visit_effect in Hv as (? & ? & ?)
         end.
  injection H as <-.
  destruct w as [[loc st] out]. 
  repeat match goal with
         | w : visitor.Visit _ |- _ => destruct w as [[? ?] ?]
         end.
  cbn [fst snd] in *. subst.
  unfold notions.at_level. cbn [fst snd].
  repeat match goal with
         | H : filtered _ = filtered _ |- _ => rewrite H in *; clear H
         end.
  split; [|auto].
  split; [reflexivity |].
  repeat match goal with
         | H : _indent _ = _ |- _ => rewrite H; clear H
         end.
  cbn [notions.indent_change id].
  unfold notions.delta_shown, spans_group.
  cbn [update_loc_in_cell loc_in_table n_group n_col col_name n_run
       num_of_runs_in_cell num_of_runs_in_group in_table].
  destruct (column_has_delta _ _) as [[|]|e];
    repeat match goal with
           | |- context [if ?b then _ else _] => destruct b eqn:?
           end; try lia.
  all: exfalso;
    repeat match goal with
           | H : _ && _ = true |- _ => apply andb_true_iff in H as [? ?]
           | H : _ && _ = false |- _ => apply andb_false_iff in H as [?|?]
           | H : negb _ = true |- _ => apply negb_true_iff in H
           | H : negb _ = false |- _ => apply negb_false_iff in H
           end; lia.
Qed.

Lemma visit_col_level (self : TableFormatterBase)
    (chd : option string -> result bool)
    (groups : list (gmap string Value)) (g r : nat)
    (f : TableFilteredBase) (n : Z) (T : option TableLoc) (R : Z)
    (w w' : visitor.Visit HTMLSheetFormatter) (c : nat * string) :
  (notions.at_level f n w /\ loc_in_table w.1.1 = T
   /\ n_run w.1.1 = Z.of_nat r /\ num_of_runs_in_group w.1.1 = R) ->
  visitor.visit_col _
    (html.hook quick_html_escape py_str format_percent difference_text)
    self chd groups g r (Ok w) c = Ok w' ->
  notions.at_level f n w' /\ loc_in_table w'.1.1 = T
  /\ n_run w'.1.1 = Z.of_nat r /\ num_of_runs_in_group w'.1.1 = R.
Proof.
  intros ([Hf Hn] & HT & Hr & HR) H. unfold visitor.visit_col in H.
  cbn [bind] in H.
  destruct (cell_content self groups g r c.2) as [content|e]; [|discriminate].
  cbn [bind] in H. destruct (chd (Some c.2)) as [has|e]; [|discriminate].
  cbn [bind] in H.
  destruct (visitor.visit _ _ BeginCol _ w) as [w1|e] eqn:Hv; [|discriminate].
  cbn [bind] in H. apply visit_effect in Hv as (Hloc & Hf1 & Hi1).
  cbn [notions.indent_change] in Hi1.
  apply (visit_cell_level f n) in H as (Hlev & H1 & H2 & H3).
  - rewrite Hloc in H1, H2, H3. simpl in H1, H2, H3.
    split; [exact Hlev |]. repeat split; congruence.
  - split; [congruence | lia].
  - left. rewrite Hloc. simpl. lia.
Qed.

Lemma visit_header_col_level (chd : option string -> result bool)
    (f : TableFilteredBase) (n : Z) (T : option TableLoc)
    (w w' : visitor.Visit HTMLSheetFormatter) (c : nat * string) :
  (notions.at_level f n w /\ loc_in_table w.1.1 = T
   /\ num_of_runs_in_group w.1.1 = -1) ->
  visitor.visit_header_col _
    (html.hook quick_html_escape py_str format_percent difference_text)
    chd (Ok w) c = Ok w' ->
  notions.at_level f n w' /\ loc_in_table w'.1.1 = T
  /\ num_of_runs_in_group w'.1.1 = -1.
Proof.
  intros ([Hf Hn] & HT & HR) H. unfold visitor.visit_header_col in H.
  cbn [bind] in H. destruct (chd (Some c.2)) as [has|e]; [|discriminate].
  cbn [bind] in H.
  destruct (visitor.visit _ _ BeginCol _ w) as [w1|e] eqn:Hv; [|discriminate].
  cbn [bind] in H. apply visit_effect in Hv as (Hloc & Hf1 & Hi1).
  cbn [notions.indent_change] in Hi1.
  apply (visit_cell_level f n) in H as (Hlev & H1 & H2 & H3).
  - rewrite Hloc in H1, H3. simpl in H1, H3.
    split; [exact Hlev |]. split; congruence.
  - split; [congruence | lia].
  - right. rewrite Hloc. simpl. lia.
Qed.

Lemma visit_row_level (self : TableFormatterBase)
    (chd : option string -> result bool) (header : list string)
    (groups : list (gmap string Value)) (g : nat)
    (f : TableFilteredBase) (n : Z) (T : option TableLoc) (R : Z)
    (w w' : visitor.Visit HTMLSheetFormatter) (r : nat) :
  (notions.at_level f n w /\ loc_in_table w.1.1 = T
   /\ num_of_runs_in_group w.1.1 = R) ->
  visitor.visit_row _
    (html.hook quick_html_escape py_str format_percent difference_text)
    self chd header groups g (Ok w) r = Ok w' ->
  notions.at_level f n w' /\ loc_in_table w'.1.1 = T
  /\ num_of_runs_in_group w'.1.1 = R.
Proof.
  intros ([Hf Hn] & HT & HR) H. unfold visitor.visit_row in H.
  cbn [bind] in H.
  destruct (visitor.visit _ _ BeginRow _ w) as [w1|e] eqn:Hv; [|discriminate].
  cbn [bind] in H. apply visit_effect in Hv as (Hloc & Hf1 & Hi1).
  cbn [notions.indent_change] in Hi1.
  destruct (foldl _ _ _) as [w2|e] eqn:Hcols in H; [|discriminate].
  cbn [bind] in H.
  apply (foldl_visit _
           (λ x, notions.at_level f (n + 1) x /\ loc_in_table x.1.1 = T
                 /\ n_run x.1.1 = Z.of_nat r
                 /\ num_of_runs_in_group x.1.1 = R)) in Hcols.
  - destruct Hcols as ([Hf2 Hn2] & HT2 & _ & HR2).
    apply visit_effect in H as (Hloc3 & Hf3 & Hi3).
    cbn [notions.indent_change] in Hi3.
    rewrite Hloc3. simpl. split; [split; [congruence | lia] |].
    split; congruence.
  - reflexivity.
  - intros x c x' Hx Hs.
    exact (visit_col_level self chd groups g r f (n + 1) T R x x' c Hx Hs).
  - rewrite Hloc. simpl. split; [split; [congruence | lia] |].
    repeat split; congruence.
Qed.

Lemma visit_group_level (self : TableFormatterBase)
    (chd : option string -> result bool) (header : list string)
    (groups : list (gmap string Value)) (offset : nat)
    (f : TableFilteredBase) (n : Z) (T : option TableLoc)
    (w w' : visitor.Visit HTMLSheetFormatter) (g : nat) :
  (notions.at_level f n w /\ loc_in_table w.1.1 = T) ->
  visitor.visit_group _
    (html.hook quick_html_escape py_str format_percent difference_text)
    self chd header groups offset (Ok w) g = Ok w' ->
  notions.at_level f n w' /\ loc_in_table w'.1.1 = T.
Proof.
  intros ([Hf Hn] & HT) H. unfold visitor.visit_group in H.
  cbn [bind] in H.
  destruct (_num_of_runs_in_group self !! (g + offset)%nat) as [R|];
    [|discriminate].
  cbn [bind] in H.
  destruct (visitor.visit _ _ BeginGroup _ w) as [w1|e] eqn:Hv;
    [|discriminate].
  cbn [bind] in H. apply visit_effect in Hv as (Hloc & Hf1 & Hi1).
  destruct (foldl _ _ _) as [w2|e] eqn:Hrows in H; [|discriminate].
  cbn [bind] in H.
  apply (foldl_visit _
           (λ x, notions.at_level f (_indent w1.1.2) x
                 /\ loc_in_table x.1.1 = T
                 /\ num_of_runs_in_group x.1.1 = R)) in Hrows.
  - destruct Hrows as ([Hf2 Hn2] & HT2 & HR2).
    apply visit_effect in H as (Hloc3 & Hf3 & Hi3).
    rewrite Hloc3. simpl. split; [|exact HT2].
    split; [congruence |].
    rewrite Hi3, Hn2, Hi1, Hn. cbn [notions.indent_change].
    unfold in_table. simpl. rewrite HT2, HT.
    destruct T as [[| |]|]; lia.
  - reflexivity.
  - intros x r x' Hx Hs.
    exact (visit_row_level self chd header groups g f _ T R x x' r Hx Hs).
  - rewrite Hloc. simpl. split; [split; [congruence | reflexivity] |].
    split; [exact HT | reflexivity].
Qed.

Lemma process_groups_level (self : TableFormatterBase)
    (chd : option string -> result bool) (header : list string)
    (groups : list (gmap string Value)) (offset : nat)
    (f : TableFilteredBase) (n : Z) (T : option TableLoc)
    (w w' : visitor.Visit HTMLSheetFormatter) :
  (notions.at_level f n w /\ loc_in_table w.1.1 = T) ->
  visitor.process_groups _
    (html.hook quick_html_escape py_str format_percent difference_text)
    self chd header groups offset w = Ok w' ->
  notions.at_level f n w' /\ loc_in_table w'.1.1 = T.
Proof.
  intros Hw H. unfold visitor.process_groups in H.
  apply (foldl_visit _
           (λ x, notions.at_level f n x /\ loc_in_table x.1.1 = T)) in H.
  - exact H.
  - reflexivity.
  - intros x g x' Hx Hs.
    exact (visit_group_level self chd header groups offset f n T x x' g Hx Hs).
  - exact Hw.
Qed.

(** X22.  A run of the HTML visitor over a table that completes leaves the
    formatter at the indentation level it started from, with the column
    descriptors and the data it started with: every tag the hooks open is
    closed again, also in the cells that are skipped because a cell of the
    first row spans them. *)
Theorem html_run_restores_indent (self : HTMLSheetFormatter)
    (w : visitor.Visit HTMLSheetFormatter) :
  html.run_table quick_html_escape py_str format_percent difference_text self
  = Ok w ->
  _indent w.1.2 = _indent self /\ filtered w.1.2 = filtered self.
Proof.
  unfold html.run_table, visitor.run. intros H.
  repeat match type of H with
         | context [visitor.visit ?S ?hk ?h ?u ?x] =>
             let Hv := fresh "Hv" in
             destruct (visitor.visit S hk h u x) as [?w|?] eqn:Hv;
             [|discriminate H];
             cbn [bind] in H;
             apply visit_effect in Hv as (? & ? & ?)
         | context [foldl ?s ?a ?l] =>
             let Hl := fresh "Hl" in
             destruct (foldl s a l) as [?w|?] eqn:Hl;
             [|discriminate H];
             cbn [bind] in H
         | context [visitor.process_groups ?S ?hk ?sf ?c ?hd ?gs ?o ?x] =>
             let Hg := fresh "Hg" in
             destruct (visitor.process_groups S hk sf c hd gs o x)
               as [?w|?] eqn:Hg;
             [|discriminate H];
             cbn [bind] in H
         end.
  injection H as <-.
  cbn [notions.indent_change fst snd id] in *.
  apply (foldl_visit _
           (λ x, notions.at_level (filtered self) (_indent self + 3) x
                 /\ loc_in_table x.1.1 = Some LOC_IN_TABLE_HDR
                 /\ num_of_runs_in_group x.1.1 = -1)) in Hl.
  2:{ reflexivity. }
  2:{ intros x c x' Hx Hs.
      exact (visit_header_col_level _ _ _ _ x x' c Hx Hs). }
  2:{ split; [split; [congruence | lia] |].
      repeat match goal with
             | E : ?x.1.1 = _ |- context [?x.1.1] => rewrite E
             end.
      split; reflexivity. }
  destruct Hl as ([Hf3 Hn3] & HT3 & _).
  apply (process_groups_level _ _ _ _ _ (filtered self) (_indent self + 1)
           (Some LOC_IN_TABLE_BODY)) in Hg.
  2:{ split; [split; [congruence | lia] |].
      match goal with
      | E : ?x.1.1 = _ |- context [?x.1.1] => rewrite E
      end.
      reflexivity. }
  destruct Hg as ([Hf8 Hn8] & HT8).
  apply (process_groups_level _ _ _ _ _ (filtered self) (_indent self + 2)
           (Some LOC_IN_TABLE_FOOTER)) in Hg0.
  2:{ split; [split; [congruence | lia] |].
      match goal with
      | E : ?x.1.1 = _ |- context [?x.1.1] => rewrite E
      end.
      reflexivity. }
  destruct Hg0 as ([Hf11 Hn11] & HT11).
  split; [lia | congruence].
Qed.

(** X21.  [HTMLSheetFormatter.run] reads the attribute [_runs_output],
    which only the branch for a non-empty list of run names sets: on a
    formatter without run names, as the constructor builds it by default,
    the first call of [run] raises [AttributeError] before anything is
    rendered. *)
Theorem html_run_without_run_names (self : HTMLSheetFormatter) :
  run_names self = [] ->
  html.run quick_html_escape py_str format_percent difference_text self None
  = Raise AttributeError.
Proof.
  intros Hnames. unfold html.run. rewrite Hnames. reflexivity.
Qed.

End HtmlRun.

Lemma html_run_without_run_names_witness :
  html.run examples.text_of examples.text_of (λ _, "+20.0%") (λ _ _, None)
    examples.sample_html None
  = Raise AttributeError.
Proof.
  exact (html_run_without_run_names examples.text_of examples.text_of
           (λ _, "+20.0%") (λ _ _, None) examples.sample_html eq_refl).
Defined.

Lemma html_run_restores_indent_witness :
  exists w,
    html.run_table examples.text_of examples.text_of (λ _, "+20.0%")
      (λ _ _, None) examples.sample_html = Ok w
    /\ _indent w.1.2 = 0.
Proof.
  assert (H : exists w,
            html.run_table examples.text_of examples.text_of (λ _, "+20.0%")
              (λ _ _, None) examples.sample_html = Ok w).
  { eexists. vm_compute. reflexivity. }
  destruct H as [w H]. exists w. split; [exact H |].
  exact (proj1 (html_run_restores_indent _ _ _ _ _ w H)).
Defined.

(** *** The console formatter *)

Lemma foldl_max_spec (rest : list Z) :
  forall x : Z,
    (foldl Z.max x rest = x \/ foldl Z.max x rest ∈ rest)
    /\ x <= foldl Z.max x rest
    /\ forall y, y ∈ rest -> y <= foldl Z.max x rest.
Proof.
  induction rest as [|z rest IH]; intros x; simpl.
  - split; [auto |]. split; [lia |]. intros y Hy. inversion Hy.
  - destruct (IH (Z.max x z)) as (Hin & Hle & Hall).
    split; [|split].
    + destruct Hin as [Heq|Hin]; [|right; right; exact Hin].
      rewrite Heq. destruct (Z.max_spec x z) as [[_ ->]|[_ ->]]; [|auto].
      right. left.
    + lia.
    + intros y Hy. apply elem_of_cons in Hy as [->|Hy]; [lia | auto].
Qed.

Lemma py_max_spec (values : list Z) :
  match console.py_max values with
  | Ok m => m ∈ values /\ forall y, y ∈ values -> y <= m
  | Raise e => values = [] /\ e = ValueError
  end.
Proof.
  destruct values as [|x rest]; simpl; [auto |].
  destruct (foldl_max_spec rest x) as (Hin & Hle & Hall). split.
  - destruct Hin as [->|Hin]; [left | right; exact Hin].
  - intros y Hy. apply elem_of_cons in Hy as [->|Hy]; auto.
Qed.

Lemma list_lengths_spec (g : gmap string Value) (x : Z) :
  x ∈ console.list_lengths g <->
  exists k l, g !! k = Some (VList l) /\ x = Z.of_nat (length l).
Proof.
  unfold console.list_lengths. rewrite list_elem_of_omap. split.
  - intros ([k v] & Hin & Hv). apply elem_of_map_to_list in Hin.
    simpl in Hv. destruct v; try discriminate. injection Hv as <-. eauto.
  - intros (k & l & Hk & ->). exists (k, VList l). split; [|reflexivity].
    apply elem_of_map_to_list. exact Hk.
Qed.

(** X23.  The console formatter can be built only for a group with at
    least one per-run list: with an empty group, or one holding scalars
    only, the constructor raises [ValueError].  When it is built, the
    number of runs is the length of the longest list. *)
Theorem new_console_number_of_runs (g : gmap string Value) :
  ((forall k l, g !! k <> Some (VList l)) ->
   console.new_console g = Raise ValueError)
  /\ ((exists k l, g !! k = Some (VList l)) ->
      exists self, console.new_console g = Ok self)
  /\ (forall self, console.new_console g = Ok self ->
        console.runs_group self = g
        /\ console._formatted_output self = None
        /\ (exists k l, g !! k = Some (VList l)
                        /\ Z.of_nat (length l) = console._num_of_runs self)
        /\ forall k l, g !! k = Some (VList l) ->
             Z.of_nat (length l) <= console._num_of_runs self).
Proof.
  unfold console.new_console.
  pose proof (py_max_spec (console.list_lengths g)) as H.
  destruct (console.py_max (console.list_lengths g)) as [m|e]; simpl.
  - destruct H as [Hin Hall]. split; [|split].
    + intros Hno. apply list_lengths_spec in Hin as (k & l & Hk & _).
      destruct (Hno k l Hk).
    + eauto.
    + intros self [= <-]. simpl. split; [reflexivity |].
      split; [reflexivity |]. split.
      * apply list_lengths_spec in Hin as (k & l & Hk & ->). eauto.
      * intros k l Hk. apply Hall. apply list_lengths_spec. eauto.
  - destruct H as [Hnil ->]. split; [auto |]. split; [|discriminate].
    intros (k & l & Hk). exfalso.
    assert (Hin : Z.of_nat (length l) ∈ console.list_lengths g)
      by (apply list_lengths_spec; eauto).
    rewrite Hnil in Hin. inversion Hin.
Qed.

Lemma new_console_number_of_runs_witness :
  console.new_console examples.sample_group <> Raise ValueError
  /\ console.new_console {[ "name" := VStr "A" ]} = Raise ValueError.
Proof.
  split; [vm_compute; discriminate |].
  apply (proj1 (new_console_number_of_runs {[ "name" := VStr "A" ]})).
  intros k l Hk. apply lookup_singleton_Some in Hk as [_ Hk]. discriminate.
Defined.

Section ConsoleRun.

Variable py_str : Value -> string.
Variable format_percent : float -> string.

Lemma value_len_raise (v : Value) :
  match console.value_len py_str v with
  | Ok _ => v <> VList []
  | Raise e => v = VList [] /\ e = ValueError
  end.
Proof.
  destruct v as [| | | | | | |l| |]; simpl; try discriminate.
  destruct l; simpl; [auto | discriminate].
Qed.

Lemma compute_value_len_fold (kvs : list (string * Value)) :
  forall acc : result Z,
    (forall e, acc = Raise e -> e = ValueError) ->
    match foldl (λ acc (kv : string * Value),
                   let* w := acc in
                   let* new_max := console.value_len py_str kv.2 in
                   Ok (if w <? new_max then new_max else w)) acc kvs with
    | Ok _ => (exists w, acc = Ok w)
              /\ forall kv, kv ∈ kvs -> kv.2 <> VList []
    | Raise e =>
        e = ValueError
        /\ ((exists e', acc = Raise e') \/ exists kv, kv ∈ kvs /\ kv.2 = VList [])
    end.
Proof.
  induction kvs as [|kv kvs IH]; intros acc Hacc; cbn [foldl].
  - destruct acc as [w|e].
    + split; [eauto |]. intros kv Hkv. inversion Hkv.
    + split; [auto | eauto].
  - set (acc' := let* w := acc in
                 let* new_max := console.value_len py_str kv.2 in
                 Ok (if w <? new_max then new_max else w)).
    assert (Hacc' : forall e, acc' = Raise e -> e = ValueError).
    { intros e. unfold acc'. destruct acc as [w|e0]; simpl.
      - pose proof (value_len_raise kv.2) as Hv.
        destruct (console.value_len py_str kv.2); simpl; [discriminate |].
        intros [= <-]. tauto.
      - intros [= <-]. auto. }
    specialize (IH acc' Hacc').
    destruct (foldl _ acc' kvs) as [w|e].
    + destruct IH as [[w' Hw'] Hall]. unfold acc' in Hw'.
      destruct acc as [w0|e0]; [|discriminate]. simpl in Hw'.
      pose proof (value_len_raise kv.2) as Hv.
      destruct (console.value_len py_str kv.2); [|discriminate].
      split; [eauto |]. intros kv' Hin.
      apply elem_of_cons in Hin as [->|Hin]; auto.
    + destruct IH as [-> Hwhy]. split; [reflexivity |].
      destruct Hwhy as [[e' He']|(kv' & Hin & Hkv')].
      * unfold acc' in He'. destruct acc as [w0|e0]; [|eauto]. simpl in He'.
        pose proof (value_len_raise kv.2) as Hv.
        destruct (console.value_len py_str kv.2); [discriminate |].
        right. exists kv. split; [left | tauto].
      * right. exists kv'. split; [right; exact Hin | exact Hkv'].
Qed.

Lemma collect_fmap_Ok {A B} (f : A -> result B) (g : A -> B) (l : list A) :
  (forall a, a ∈ l -> f a = Ok (g a)) ->
  collect (f <$> l) = Ok (g <$> l).
Proof.
  induction l as [|a l IH]; intros H; [reflexivity |].
  rewrite !fmap_cons. cbn [collect]. rewrite (H a) by left.
  rewrite IH; [reflexivity |].
  intros b Hb. apply H. right. exact Hb.
Qed.

Lemma print_lines_all (fmt : console.LineFormat) (lines : list (list string)) :
  forall printed : list string,
    Forall (λ line, exists text, console.format fmt line = Ok text) lines ->
    exists more,
      foldl (console.print_line fmt) (printed, Ok tt) lines
      = (printed ++ more, Ok tt)
      /\ length more = length lines.
Proof.
  induction lines as [|line lines IH]; intros printed Hall.
  - exists []. rewrite app_nil_r. auto.
  - inversion Hall as [|? ? [text Htext] Hrest]; subst.
    cbn [foldl]. unfold console.print_line at 2. cbn [snd fst].
    rewrite Htext. destruct (IH (printed ++ [text]) Hrest) as (more & -> & Hlen).
    exists (text :: more). rewrite <- app_assoc. simpl. auto.
Qed.

Lemma print_lines_raise (fmt : console.LineFormat)
    (lines : list (list string)) :
  forall printed : list string,
    Exists (λ line, console.format fmt line = Raise IndexError) lines ->
    Forall (λ line, forall e, console.format fmt line = Raise e
                              -> e = IndexError) lines ->
    exists more,
      foldl (console.print_line fmt) (printed, Ok tt) lines
      = (printed ++ more, Raise IndexError)
      /\ (length more < length lines)%nat.
Proof.
  assert (Hstuck : forall (ls : list (list string)) (p : list string) e,
            foldl (console.print_line fmt) (p, Raise e) ls = (p, Raise e)).
  { induction ls as [|l ls IHl]; intros p e; [reflexivity |].
    cbn [foldl]. unfold console.print_line at 2. cbn [snd]. apply IHl. }
  induction lines as [|line lines IH]; intros printed Hex Hall.
  - inversion Hex.
  - inversion Hall as [|? ? Hline Hrest]; subst.
    cbn [foldl]. unfold console.print_line at 2. cbn [snd fst].
    destruct (console.format fmt line) as [text|e] eqn:Hf.
    + inversion Hex as [? ? Hbad|? ? Hbad]; subst; [congruence |].
      destruct (IH (printed ++ [text]) Hbad Hrest) as (more & -> & Hlen).
      exists (text :: more). rewrite <- app_assoc. simpl. split; [auto | lia].
    + rewrite (Hline e eq_refl), Hstuck. exists [].
      rewrite app_nil_r. simpl. split; [reflexivity | lia].
Qed.

Lemma later_runs_length (n : Z) :
  length (console.later_runs n) = (Z.to_nat n - 1)%nat.
Proof. unfold console.later_runs. rewrite length_fmap, length_seq. lia. Qed.

Lemma join_pairs_length {A B} (f : A -> list B) (l : list A) :
  (forall a, length (f a) = 2%nat) ->
  length (mjoin (f <$> l)) = (2 * length l)%nat.
Proof.
  intros Hf. induction l as [|a l IH]; [reflexivity |].
  cbn [fmap list_fmap]. rewrite join_cons, length_app, Hf.
  change (list_fmap A (list B) f l) with (f <$> l). rewrite IH. simpl. lia.
Qed.

(** X24.  What [run] prints for a console formatter just built.  An entry
    that is the empty list makes it raise [ValueError] before anything is
    printed.  Otherwise the header line is printed, and the run completes,
    with one more line per key, exactly when every entry is a list with as
    many values as there are runs -- or there is a single run; any other
    entry, such as the single value of a group-by key beside lists of two
    runs, makes it raise [IndexError] after the header and the lines before
    it have been printed. *)
Theorem console_run_outcome (g : gmap string Value)
    (self : console.SimpleConsoleFormatter) :
  console.new_console g = Ok self ->
  ((exists k, g !! k = Some (VList [])) ->
   console.run py_str format_percent self = ([], Raise ValueError))
  /\ ((forall k, g !! k <> Some (VList [])) ->
      exists header_line : string,
        ((forall k v, g !! k = Some v ->
                      notions.fits_format (console._num_of_runs self) v) ->
         exists lines self',
           console.run py_str format_percent self
           = (header_line :: lines, Ok self')
           /\ length lines = size g)
        /\ ((exists k v, g !! k = Some v
               /\ ~ notions.fits_format (console._num_of_runs self) v) ->
            exists lines,
              console.run py_str format_percent self
              = (header_line :: lines, Raise IndexError)
              /\ (length lines < size g)%nat)).
Proof.
  intros Hnew.
  assert (Hself : console.runs_group self = g
                  /\ console._formatted_output self = None
                  /\ console.value_colw self = 6
                  /\ (exists k l, g !! k = Some (VList l)
                        /\ Z.of_nat (length l) = console._num_of_runs self)
                  /\ forall k l, g !! k = Some (VList l) ->
                       Z.of_nat (length l) <= console._num_of_runs self).
  { unfold console.new_console in Hnew.
    pose proof (py_max_spec (console.list_lengths g)) as H.
    destruct (console.py_max (console.list_lengths g)) as [m|e];
      [|discriminate].
    simpl in Hnew. injection Hnew as <-. simpl.
    destruct H as [Hin Hall]. repeat split; try reflexivity.
    - apply list_lengths_spec in Hin as (k & l & Hk & ->). eauto.
    - intros k l Hk. apply Hall. apply list_lengths_spec. eauto. }
  destruct Hself as (Hg & Hout & Hvw & (k0 & l0 & Hk0 & Hn0) & Hmax).
  unfold console.run, console.prepare. rewrite Hout.
  unfold console.compute_value_len. cbn [console.runs_group console.value_colw].
  pose proof (compute_value_len_fold (map_to_list (console.runs_group self))
                (Ok (console.value_colw self))
                ltac:(intros e He; discriminate)) as Hfold.
  split.
  - intros [k Hk].
    destruct (foldl _ (Ok (console.value_colw self)) _) as [w|e].
    + exfalso. destruct Hfold as [_ Hall].
      apply (Hall (k, VList [])); [|reflexivity].
      apply elem_of_map_to_list. rewrite Hg. exact Hk.
    + destruct Hfold as [-> _]. reflexivity.
  - intros Hne.
    destruct (foldl _ (Ok (console.value_colw self)) _) as [w|e].
    2:{ exfalso. destruct Hfold as [_ [[e' He']|([k v] & Hin & Hv)]];
          [discriminate |].
        apply elem_of_map_to_list in Hin. simpl in Hv. subst v.
        rewrite Hg in Hin. exact (Hne k Hin). }
    clear Hfold. cbn [bind].
    cbn [console._create_header_and_output_format console._num_of_runs
         console.value_colw console.key_colw console.delta_colw
         console.runs_group console._output_line_format
         console._formatted_header console._formatted_output].
    unfold console._generate_formatted_output.
    cbn [console.runs_group].
    set (self1 := console.mkConsole _ _ _ _ _ _ _ _).
    set (n := console._num_of_runs self) in *.
    assert (Hn1 : 1 <= n).
    { destruct l0 as [|x l0]; [destruct (Hne k0 Hk0) |].
      simpl in Hn0. lia. }
    set (line := λ kv : string * Value,
           let name := (console.OKBLUE ++ kv.1 ++ console.ENDC
                        ++ console.blanks (console.key_colw self1
                                           - console.len kv.1))%string in
           match kv.2 with
           | VList (first :: rest) =>
               name :: py_str (val_of first)
                 :: mjoin ((λ val, [py_str (val_of val);
                                    console.output_percent format_percent
                                      self1 val]) <$> rest)
           | v => [name; py_str (val_of v)]
           end).
    assert (Hlines : collect (console.output_line py_str format_percent self1
                                <$> map_to_list (console.runs_group self))
                     = Ok (line <$> map_to_list (console.runs_group self))).
    { apply collect_fmap_Ok. intros [k v] Hin.
      apply elem_of_map_to_list in Hin. rewrite Hg in Hin.
      unfold console.output_line, line. simpl.
      destruct v as [| | | | | | |l| |]; try reflexivity.
      destruct l; [destruct (Hne k Hin) | reflexivity]. }
    rewrite Hlines. cbn [bind console._output_line_format
                         console._formatted_header console._formatted_output
                         default].
    set (fields := ([console.Plain; console.RightAligned w]
                    ++ mjoin ((λ _, [console.RightAligned w; console.Plain])
                                <$> console.later_runs n))%list).
    assert (Hfields : length fields = (2 * Z.to_nat n)%nat).
    { unfold fields. rewrite length_app, join_pairs_length by reflexivity.
      rewrite later_runs_length. simpl. lia. }
    assert (Hlen : forall k v, g !! k = Some v ->
              (notions.fits_format n v ->
               (length fields <= length (line (k, v)))%nat)
              /\ (~ notions.fits_format n v ->
                  (length (line (k, v)) < length fields)%nat)).
    { intros k v Hk. rewrite Hfields. unfold line, notions.fits_format.
      cbn [fst snd].
      destruct v as [| | | | | | |l| |];
        try (simpl; split; intros; lia).
      destruct l as [|x l]; [destruct (Hne k Hk) |].
      pose proof (Hmax k _ Hk) as Hle.
      cbn [length] in *.
      rewrite join_pairs_length by reflexivity. split; intros; lia. }
    assert (Hformat : forall ln : list string,
              match console.format (console.FormatFields fields) ln with
              | Ok _ => (length fields <= length ln)%nat
              | Raise e => e = IndexError /\ (length ln < length fields)%nat
              end).
    { intros ln. unfold console.format.
      destruct (Nat.ltb_spec (length ln) (length fields)); [auto | lia]. }
    eexists. split.
    + intros Hfit.
      assert (HF : Forall (λ ln, exists text,
                              console.format (console.FormatFields fields) ln
                              = Ok text)
                     (line <$> map_to_list (console.runs_group self))).
      { apply Forall_fmap, Forall_forall. intros [k v] Hin.
        apply elem_of_map_to_list in Hin. rewrite Hg in Hin.
        unfold compose. cbn beta.
        generalize (Hformat (line (k, v))).
        destruct (console.format _ (line (k, v))) as [text|e]; [eauto |].
        intros [_ Hlt].
        pose proof (proj1 (Hlen k v Hin) (Hfit k v Hin)). lia. }
      match goal with
      | |- context [foldl ?F (?p, ?r) ?ls] =>
          destruct (print_lines_all _ _ p HF) as (more & Hmore & Hlen');
          replace (foldl F (p, r) ls) with ((p ++ more)%list, @Ok unit tt)
            by (symmetry; exact Hmore)
      end.
      eexists more, _. split; [reflexivity |].
      rewrite Hlen', length_fmap, length_map_to_list, Hg. reflexivity.
    + intros (k & v & Hk & Hbad).
      assert (HE : Exists (λ ln, console.format (console.FormatFields fields)
                                   ln = Raise IndexError)
                     (line <$> map_to_list (console.runs_group self))).
      { apply Exists_fmap, Exists_exists. exists (k, v). split.
        - apply elem_of_map_to_list. rewrite Hg. exact Hk.
        - unfold compose. cbn beta. generalize (Hformat (line (k, v))).
          destruct (console.format _ (line (k, v))) as [text|e].
          + intros Hle. pose proof (proj2 (Hlen k v Hk) Hbad). lia.
          + intros [-> _]. reflexivity. }
      assert (HF : Forall (λ ln, forall e,
                              console.format (console.FormatFields fields) ln
                              = Raise e -> e = IndexError)
                     (line <$> map_to_list (console.runs_group self))).
      { apply Forall_fmap, Forall_forall. intros kv _ e He.
        unfold compose in He. cbn beta in He.
        specialize (Hformat (line kv)). rewrite He in Hformat. tauto. }
      match goal with
      | |- context [foldl ?F (?p, ?r) ?ls] =>
          destruct (print_lines_raise _ _ p HE HF) as (more & Hmore & Hlen');
          replace (foldl F (p, r) ls)
            with ((p ++ more)%list, @Raise unit IndexError)
            by (symmetry; exact Hmore)
      end.
      exists more. split; [reflexivity |].
      rewrite length_fmap, length_map_to_list, Hg in Hlen'. exact Hlen'.
Qed.

End ConsoleRun.

(** *** Formatting a byte count and parsing it back *)

Lemma small_counts_spec (q : Z) : 0 <= q < 1000 -> q ∈ notions.small_counts.
Proof.
  intros Hq. unfold notions.small_counts. apply list_elem_of_fmap.
  exists (Z.to_nat q). split; [lia |].
  apply elem_of_seq. lia.
Qed.

Lemma small_counts_checked :
  forallb (λ q, notions.digits_only q && notions.scaled_exactly q
                && notions.parses_itself q) notions.small_counts = true.
Proof. vm_compute. reflexivity. Qed.

Lemma small_count_facts (q : Z) :
  0 <= q < 1000 ->
  notions.digits_only q = true /\ notions.scaled_exactly q = true
  /\ notions.parses_itself q = true.
Proof.
  intros Hq. pose proof small_counts_checked as H.
  rewrite forallb_forall in H.
  specialize (H q). rewrite <- list_elem_of_In in H.
  specialize (H (small_counts_spec q Hq)).
  apply andb_true_iff in H as [H H3]. apply andb_true_iff in H as [H1 H2].
  auto.
Qed.

Lemma int_result_checked (r : result Value) (z : Z) :
  match r with
  | Ok (VInt r') => r' =? z
  | _ => false
  end = true ->
  r = Ok (VInt z).
Proof.
  destruct r as [[]|]; try discriminate.
  intros H. apply Z.eqb_eq in H. congruence.
Qed.

Lemma scaled_exactly_factors (q : Z) :
  notions.scaled_exactly q = true ->
  int_of_float (PrimFloat.mul (float_of_Z q) 1%float) = Ok (VInt q)
  /\ int_of_float (PrimFloat.mul (float_of_Z q) 1000%float)
     = Ok (VInt (q * 1000))
  /\ int_of_float (PrimFloat.mul (float_of_Z q) 1000000%float)
     = Ok (VInt (q * 1000000)).
Proof.
  unfold notions.scaled_exactly. cbn [forallb fst snd].
  rewrite !andb_true_iff. intros (H1 & H2 & H3 & _).
  apply int_result_checked in H1, H2, H3.
  rewrite Z.mul_1_r in H1. auto.
Qed.

Section MemoryRoundTrip.

Variable py_str : Value -> string.
Variable parse_float : string -> option float.
Variable format_1f : float -> string.

Hypothesis parse_small :
  forall q, 0 <= q < 1000 ->
    parse_float (pretty q) = Some (float_of_Z q)
    /\ parse_float (pretty q ++ " ")%string = Some (float_of_Z q).

Lemma small_count_lower (q : Z) :
  0 <= q < 1000 -> lower (pretty q) = pretty q.
Proof.
  intros Hq. destruct (small_count_facts q Hq) as (Hd & _ & _).
  unfold notions.digits_only in Hd. apply andb_true_iff in Hd as [Hl _].
  apply String.eqb_eq in Hl. exact Hl.
Qed.

Lemma convert_plain (q : Z) :
  0 <= q < 1000 ->
  MemoryConverterExtractor_convert_raw_value parse_float (pretty q)
  = Ok (VInt q).
Proof.
  intros Hq. destruct (small_count_facts q Hq) as (Hd & Hs & _).
  apply scaled_exactly_factors in Hs as (Hs & _ & _).
  unfold notions.digits_only in Hd. apply andb_true_iff in Hd as [_ Hc].
  unfold MemoryConverterExtractor_convert_raw_value.
  rewrite (small_count_lower q Hq).
  destruct (last_char (pretty q)) as [c|e] eqn:Hlast; [|discriminate].
  cbn [bind]. apply negb_true_iff in Hc.
  apply orb_false_iff in Hc as [Hc Hg]. apply orb_false_iff in Hc as [Hc Hm].
  apply orb_false_iff in Hc as [Hb Hk].
  rewrite Hb, Hlast. cbn [bind]. rewrite Hk, Hm, Hg. cbn [orb].
  rewrite (proj1 (parse_small q Hq)). exact Hs.
Qed.

Lemma convert_with_unit (q : Z) :
  0 <= q < 1000 ->
  MemoryConverterExtractor_convert_raw_value parse_float
    (pretty q ++ " KB")%string = Ok (VInt (q * 1000))
  /\ MemoryConverterExtractor_convert_raw_value parse_float
       (pretty q ++ " MB")%string = Ok (VInt (q * 1000000)).
Proof.
  intros Hq. destruct (small_count_facts q Hq) as (_ & Hs & _).
  apply scaled_exactly_factors in Hs as (_ & Hk & Hm).
  assert (Hlow : lower (pretty q ++ " ")%string = (pretty q ++ " ")%string).
  { rewrite lower_app, (small_count_lower q Hq). reflexivity. }
  destruct (memory_converter_scaled parse_float (pretty q ++ " ")%string)
    as (Hck & Hcm & _).
  rewrite Hlow, (proj2 (parse_small q Hq)) in Hck, Hcm.
  split.
  - rewrite (memory_converter_lower parse_float), lower_app,
      (small_count_lower q Hq).
    change (lower " KB") with (" " ++ "k" ++ "b")%string.
    rewrite <- !string_app_assoc.
    rewrite memory_converter_b.
    + rewrite Hck. exact Hk.
    + rewrite lower_app. change (lower "k") with "k".
      rewrite last_char_snoc. discriminate.
  - rewrite (memory_converter_lower parse_float), lower_app,
      (small_count_lower q Hq).
    change (lower " MB") with (" " ++ "m" ++ "b")%string.
    rewrite <- !string_app_assoc.
    rewrite memory_converter_b.
    + rewrite Hcm. exact Hm.
    + rewrite lower_app. change (lower "m") with "m".
      rewrite last_char_snoc. discriminate.
Qed.

(** X25.  A byte count below a gigabyte that [memory_formatter] has
    written is read back by the memory converter as the count rounded down
    to the unit shown: exactly below a thousand, to the kilobyte below a
    million, to the megabyte above.  The parser [float] is only asked to
    read the decimal writing of a number below a thousand, with or without
    a blank after it. *)
Theorem memory_formatter_read_back (z : Z) :
  0 <= z < 1000000000 ->
  exists text,
    formatters.memory_formatter py_str parse_float format_1f (VInt z)
    = Ok (VStr text)
    /\ MemoryConverterExtractor_convert_raw_value parse_float text
       = Ok (VInt (z - z mod notions.unit_of z)).
Proof.
  intros Hz. unfold formatters.memory_formatter, notions.unit_of.
  destruct (Z.ltb_spec z 1000) as [H1|H1].
  - eexists. split; [reflexivity |].
    rewrite Z.mod_1_r, Z.sub_0_r. apply convert_plain. lia.
  - destruct (Z.ltb_spec z 1000000) as [H2|H2].
    + eexists. split; [reflexivity |].
      rewrite (proj1 (convert_with_unit (z / 1000) ltac:(split;
                 [apply Z.div_pos; lia | apply Z.div_lt_upper_bound; lia]))).
      f_equal. f_equal. pose proof (Z.div_mod z 1000 ltac:(lia)). lia.
    + destruct (Z.ltb_spec z 1000000000) as [H3|H3]; [|lia].
      eexists. split; [reflexivity |].
      rewrite (proj2 (convert_with_unit (z / 1000000) ltac:(split;
                 [apply Z.div_pos; lia | apply Z.div_lt_upper_bound; lia]))).
      f_equal. f_equal. pose proof (Z.div_mod z 1000000 ltac:(lia)). lia.
Qed.

End MemoryRoundTrip.

Lemma parse_small_count_spec :
  forall q, 0 <= q < 1000 ->
    notions.parse_small_count (pretty q) = Some (float_of_Z q)
    /\ notions.parse_small_count (pretty q ++ " ")%string
       = Some (float_of_Z q).
Proof.
  intros q Hq. destruct (small_count_facts q Hq) as (_ & _ & Hp).
  unfold notions.parses_itself in Hp. unfold notions.parse_small_count.
  destruct (notions.digits_value (pretty q) 0) as [a|]; [|discriminate].
  destruct (notions.digits_value (pretty q ++ " ") 0) as [b|];
    [|discriminate].
  apply andb_true_iff in Hp as [Ha Hb].
  apply Z.eqb_eq in Ha, Hb. subst. auto.
Defined.

Lemma memory_formatter_read_back_witness :
  exists text,
    formatters.memory_formatter examples.text_of notions.parse_small_count
      (λ _, "0.0") (VInt 123456) = Ok (VStr text)
    /\ MemoryConverterExtractor_convert_raw_value notions.parse_small_count
         text = Ok (VInt 123000).
Proof.
  exact (memory_formatter_read_back examples.text_of
           notions.parse_small_count (λ _, "0.0") parse_small_count_spec
           123456 ltac:(lia)).
Defined.

(** *** The properties on sample data *)


Lemma keyed_runs_project :
  forall e, RunExtractor e ∈ notions.keyed_runs -> exists d, as_dict e = Ok d.
Proof.
  intros e He. unfold notions.keyed_runs in He.
  apply elem_of_cons in He as [He|He]; [discriminate |].
  apply list_elem_of_singleton in He. discriminate.
Defined.

Lemma group_multiple_runs_by_key_witness :
  (group_multiple_runs (Some "g") notions.keyed_runs).2
  = Ok {[ "g" := VStr "A"; "t" := VList [VInt 1; VInt 2] ]}.
Proof.
  assert (Hl : (group_multiple_runs None notions.keyed_runs).2
               = Ok {[ "g" := VList [VStr "A"; VStr "A"];
                       "t" := VList [VInt 1; VInt 2] ]})
    by (vm_compute; reflexivity).
  assert (Hin : "g" ∈ notions.all_keys notions.keyed_runs)
    by (vm_compute; reflexivity).
  rewrite (proj1 (proj2 (group_multiple_runs_by_key "g" notions.keyed_runs _
                           keyed_runs_project Hl)) Hin).
  vm_compute. reflexivity.
Defined.

Lemma add_deltas_to_grouped_runs_entries_witness :
  add_deltas_to_grouped_runs [ {[ "x" := VList [] ]} ] = Raise IndexError.
Proof.
  apply (proj2 (proj2 (add_deltas_to_grouped_runs_entries
                         [ {[ "x" := VList [] ]} ]))).
  exists {[ "x" := VList [] ]}, "x".
  split; [left | apply lookup_singleton_eq].
Defined.

Lemma compute_footer_keys_witness :
  exists footer,
    compute_footer_from_grouped_runs examples.whole_microseconds
      examples.two_groups true = Ok footer
    /\ dom footer = {[ "max"; "avg" ]}.
Proof.
  assert (H : exists footer,
            compute_footer_from_grouped_runs examples.whole_microseconds
              examples.two_groups true = Ok footer).
  { eexists. vm_compute. reflexivity. }
  destruct H as [footer H]. exists footer. split; [exact H |].
  exact (proj1 (compute_footer_keys examples.whole_microseconds
                  examples.two_groups true footer H)).
Defined.


Lemma time_converter_fields_witness :
  TimeConverterExtractor_convert_raw_value notions.parse_small_count
    notions.timedelta_fields "1:30"
  = notions.timedelta_fields float_zero float_zero (float_of_Z 1)
      (float_of_Z 30).
Proof.
  exact (proj2 (proj2 (time_converter_fields notions.parse_small_count
                         notions.timedelta_fields "1" ["30"] eq_refl
                         ltac:(repeat constructor)))
           [float_of_Z 1; float_of_Z 30] ltac:(vm_compute; reflexivity)
           ltac:(simpl; lia)).
Defined.

Lemma memory_converter_suffixes_witness :
  MemoryConverterExtractor_convert_raw_value notions.parse_small_count "12kb"
  = MemoryConverterExtractor_convert_raw_value notions.parse_small_count "12k".
Proof.
  exact (proj1 (proj1 (proj2 (memory_converter_suffixes
                                notions.parse_small_count "12k"))
                  ltac:(vm_compute; discriminate))).
Defined.

Lemma sample_group_no_empty_list :
  forall k, examples.sample_group !! k <> Some (VList []).
Proof.
  intros k Hk. unfold examples.sample_group in Hk.
  apply lookup_insert_Some in Hk as [[_ Hk]|[_ Hk]]; [discriminate |].
  apply lookup_singleton_Some in Hk as [_ Hk]. discriminate.
Defined.

Lemma console_run_outcome_witness :
  exists self header_line lines,
    console.new_console examples.sample_group = Ok self
    /\ console.run examples.text_of (λ _, "+20.0%") self
       = (header_line :: lines, Raise IndexError).
Proof.
  assert (H : exists self,
            console.new_console examples.sample_group = Ok self).
  { eexists. vm_compute. reflexivity. }
  destruct H as [self H].
  destruct (proj2 (console_run_outcome examples.text_of (λ _, "+20.0%")
                     examples.sample_group self H)
              sample_group_no_empty_list) as (header_line & _ & Hbad).
  destruct Hbad as (lines & Hrun & _).
  { exists "name", (VStr "A"). split; [reflexivity |].
    vm_compute in H. injection H as <-. simpl. discriminate. }
  exists self, header_line, lines. auto.
Defined.

